(** * Term-Project: the control core of the Romi line follower

    A shallow embedding of encoder_romi.py, motor_romi.py, ClosedLoop.py,
    BNO055.py with its calibration file, and the motor, sensor and switch
    tasks and the button handler of main.py, with the properties of the
    specification, and further properties read off the sources, stated
    and proved over it.

    Python integers are [Z].  The places where the sources compute with
    floats are kept apart: the [limit] of the encoder is a float that is
    only compared with integers, and is held by its value, a rational,
    exact or as the interpreter rounds it; ClosedLoop.py is written over
    an abstract arithmetic that is then read both as exact rationals and
    as Python's binary floats.  Objects are records, a method takes
    the object and returns the new one; the generator tasks of main.py are
    one pass of their loop in a state-and-exception monad that records, in
    order, every call made on the hardware and on the shared queues. *)

From Stdlib Require Import ZArith QArith Qpower Lia List Ascii String Strings.Byte Floats.SpecFloat.
From Stdlib Require HexString.
Import ListNotations.
Open Scope string_scope.
Open Scope list_scope.
Open Scope Z_scope.

(** * Part I: the program *)

(** Strict comparison of rationals as a boolean. *)
Definition Qlt_bool (x y : Q) : bool := negb (Qle_bool y x).

(** ** encoder_romi.py *)

Module Encoder.

(** The attributes of an [Encoder] but for the timer and its channels.
    [limit] and [neg_limit] are floats in the source, compared with the
    integer [delta]; Python compares the two by their values, and the
    record holds the values, as rationals. *)
Record t := mk {
  idx : Z;
  delta : Z;
  count : Z;
  old_count : Z;
  auto_reload : Z;
  limit : Q;
  neg_limit : Q;
  AR1 : Z;
  position : Z
}.

(** [__init__] where the floats [(auto_r + 1)/2] and [-1*(auto_r + 1)/2]
    are the exact halves, as they are for every period of a 16-bit
    counter.  [FloatEncoder.init] below is the constructor for any
    period, with the limits rounded as the interpreter rounds them. *)
Definition init (auto_r : Z) : t :=
  {| idx := 0;
     delta := 0;
     count := 0;
     old_count := 0;
     auto_reload := auto_r;
     limit := inject_Z (auto_r + 1) / 2;
     neg_limit := inject_Z (-1 * (auto_r + 1)) / 2;
     AR1 := auto_r + 1;
     position := 0 |}.

(** [update()], [counter] being what [self.tim.counter()] returns. *)
Definition update (counter : Z) (e : t) : t :=
  let count' := counter in
  let delta0 := count' - old_count e in
  let delta' :=
    if Qlt_bool (limit e) (inject_Z delta0) then delta0 - AR1 e
    else if Qlt_bool (inject_Z delta0) (neg_limit e) then delta0 + AR1 e
    else delta0 in
  {| idx := idx e;
     delta := delta';
     count := count';
     old_count := count';
     auto_reload := auto_reload e;
     limit := limit e;
     neg_limit := neg_limit e;
     AR1 := AR1 e;
     position := position e + delta' |}.

Definition get_position (e : t) : Z := position e.

Definition get_delta (e : t) : Z := delta e.

Definition zero (e : t) : t :=
  {| idx := idx e;
     delta := 0;
     count := 0;
     old_count := 0;
     auto_reload := auto_reload e;
     limit := limit e;
     neg_limit := neg_limit e;
     AR1 := AR1 e;
     position := 0 |}.

(** The calls that change an encoder object. *)
Inductive call := Update (counter : Z) | Zero.

Definition do_call (e : t) (c : call) : t :=
  match c with
  | Update counter => update counter e
  | Zero => zero e
  end.

Definition run (e : t) (cs : list call) : t := fold_left do_call cs e.

(** Successive [update()] calls, the timer showing [samples] in turn. *)
Definition updates (e : t) (samples : list Z) : t :=
  fold_left (fun e c => update c e) samples e.

(** What [get_delta()] returns after each of those updates. *)
Fixpoint deltas (e : t) (samples : list Z) : list Z :=
  match samples with
  | [] => []
  | c :: rest => get_delta (update c e) :: deltas (update c e) rest
  end.


End Encoder.

(** ** motor_romi.py *)

Module L6206.

(** [IN2] and [EN] are the levels of the two output pins, [PWM_1] the
    pulse width percentage of the PWM channel; [duty] exists only once
    [set_duty] has run. *)
Record t := mk {
  PWM_1 : Z;
  IN2 : bool;
  EN : bool;
  duty : option Z
}.

Definition init : t :=
  {| PWM_1 := 0; IN2 := false; EN := false; duty := None |}.

Definition set_duty (d : Z) (self : t) : t :=
  if d >=? 0
  then {| PWM_1 := Z.abs d; IN2 := false; EN := EN self; duty := Some d |}
  else {| PWM_1 := Z.abs d; IN2 := true; EN := EN self; duty := Some d |}.

Definition enable (self : t) : t :=
  {| PWM_1 := PWM_1 self; IN2 := IN2 self; EN := true; duty := duty self |}.

Definition disable (self : t) : t :=
  {| PWM_1 := PWM_1 self; IN2 := IN2 self; EN := false; duty := duty self |}.

(** The calls that change a driver object. *)
Inductive call := SetDuty (d : Z) | Enable | Disable.

Definition do_call (self : t) (c : call) : t :=
  match c with
  | SetDuty d => set_duty d self
  | Enable => enable self
  | Disable => disable self
  end.

Definition run (self : t) (cs : list call) : t := fold_left do_call cs self.

End L6206.

(** ** task_share.Queue, from section 6 of the specification *)

Module Queue.

(** Modelled from the spec: the queue primitive of the [task_share] library
    is not among the sources; section 6 makes it a fixed-capacity FIFO.
    A queue is its waiting elements, oldest first, and its capacity. *)
Record t := mk { items : list Z; size : nat }.

(** Modelled from the spec: [task_share.Queue(type, size)] makes an empty
    queue of capacity [size]. *)
Definition init (capacity : nat) : t := {| items := []; size := capacity |}.

(** Modelled from the spec: [any()] is a non-blocking query, true when
    an element is waiting. *)
Definition any (q : t) : bool :=
  match items q with [] => false | _ :: _ => true end.

(** Modelled from the spec: [full()] is a non-blocking query, true when
    the queue is at capacity. *)
Definition full (q : t) : bool := (size q <=? List.length (items q))%nat.

(** Modelled from the spec: [put(value)] either appends or signals full
    without blocking.  The boolean is that signal ([true]: stored);
    main.py never looks at it. *)
Definition put (v : Z) (q : t) : bool * t :=
  if full q then (false, q)
  else (true, {| items := items q ++ [v]; size := size q |}).

(** Modelled from the spec: [get()] removes and returns the oldest
    element, or signals empty. *)
Definition get (q : t) : option (Z * t) :=
  match items q with
  | [] => None
  | v :: rest => Some (v, {| items := rest; size := size q |})
  end.

End Queue.

(** ** main.py: the shared queues and the task monad *)

Module Task.

(** The two module-level queues of main.py. *)
Inductive qname := turn_q_r | turn_q_l.

(** The calls one pass of a task makes on the hardware, on the queues and
    on the console, in the order it makes them. *)
Inductive event :=
| enc_update                     (* self.enc.update() *)
| enc_zero                       (* self.enc.zero() *)
| enc_get_delta                  (* self.enc.get_delta() *)
| enc_get_position               (* self.enc.get_position() *)
| ticks_ms                       (* time.ticks_ms() *)
| set_duty (duty : Z)            (* self.mot.set_duty(duty) *)
| q_any (q : qname)              (* q.any() *)
| q_full (q : qname)             (* q.full() *)
| q_get (q : qname) (v : Z)      (* q.get(), returning v *)
| q_put (q : qname) (v : Z) (stored : bool)   (* q.put(v) *)
| print (s : string)             (* print of a string literal *)
| print_int (z : Z).             (* print of an integer *)

(** What the tasks share: the two queues, and the calls made so far. *)
Record world := mk_world {
  queue_r : Queue.t;
  queue_l : Queue.t;
  trace : list event
}.

Definition queue (q : qname) (w : world) : Queue.t :=
  match q with turn_q_r => queue_r w | turn_q_l => queue_l w end.

Definition set_queue (q : qname) (v : Queue.t) (w : world) : world :=
  match q with
  | turn_q_r => {| queue_r := v; queue_l := queue_l w; trace := trace w |}
  | turn_q_l => {| queue_r := queue_r w; queue_l := v; trace := trace w |}
  end.

Definition log (e : event) (w : world) : world :=
  {| queue_r := queue_r w; queue_l := queue_l w; trace := trace w ++ [e] |}.

(** The module-level statements of main.py that create the queues. *)
Definition initial_world : world :=
  {| queue_r := Queue.init 1000; queue_l := Queue.init 1000; trace := [] |}.

(** The exceptions a pass can end with; [QueueEmpty] is the empty signal
    of [get()]. *)
Inductive exn :=
| ZeroDivisionError
| ValueError (msg : string)
| QueueEmpty.

Inductive res (A : Type) :=
| Ok (a : A)
| Raise (e : exn).
Arguments Ok {A} a.
Arguments Raise {A} e.

(** A computation over a task object of type [O] and the world: it may
    raise, and object and world keep what was done before the raise. *)
Definition M (O A : Type) : Type := O * world -> res A * (O * world).

Definition ret {O A} (a : A) : M O A := fun s => (Ok a, s).

Definition bind {O A B} (c : M O A) (k : A -> M O B) : M O B :=
  fun s =>
    match c s with
    | (Ok a, s') => k a s'
    | (Raise e, s') => (Raise e, s')
    end.

Definition raise {O A} (e : exn) : M O A := fun s => (Raise e, s).

Definition self {O} : M O O := fun s => (Ok (fst s), s).

Definition assign {O} (f : O -> O) : M O unit :=
  fun s => (Ok tt, (f (fst s), snd s)).

Definition emit {O} (e : event) : M O unit :=
  fun s => (Ok tt, (fst s, log e (snd s))).

Definition q_any_call {O} (q : qname) : M O bool :=
  fun s => (Ok (Queue.any (queue q (snd s))), (fst s, log (q_any q) (snd s))).

Definition q_full_call {O} (q : qname) : M O bool :=
  fun s => (Ok (Queue.full (queue q (snd s))), (fst s, log (q_full q) (snd s))).

Definition q_get_call {O} (q : qname) : M O Z :=
  fun s =>
    match Queue.get (queue q (snd s)) with
    | Some (v, q') => (Ok v, (fst s, log (q_get q v) (set_queue q q' (snd s))))
    | None => (Raise QueueEmpty, s)
    end.

Definition q_put_call {O} (q : qname) (v : Z) : M O unit :=
  fun s =>
    let (stored, q') := Queue.put v (queue q (snd s)) in
    (Ok tt, (fst s, log (q_put q v stored) (set_queue q q' (snd s)))).

Definition when {O} (b : bool) (c : M O unit) : M O unit :=
  if b then c else ret tt.

End Task.

Import Task.

Notation "x <- c ;; k" := (bind c (fun x => k))
  (at level 61, c at next level, right associativity).
Notation "c ;; k" := (bind c (fun _ => k))
  (at level 61, right associativity).

(** ** main.py: class motor *)

Module Motor.

(** The attributes of a [motor] task.  [end_] is the attribute [end].
    [v_meas] and [Kp] hold floats in the source; nothing reads them back,
    and they are held as rationals. *)
Record t := mk {
  mot : L6206.t;
  enc : Encoder.t;
  state : Z;
  set : string;
  v_ref : Z;
  start : Z;
  end_ : Z;
  count : Z;
  v_meas : Q;
  v_set : Z;
  Kp : Q;
  Ki : Z;
  adjust1 : Z;
  adjust2 : Z;
  adjust3 : Z;
  adjust4 : Z;
  adjust5 : Z;
  period : Z;
  offset : Z;
  back : Z;
  turn : Z;
  forw : Z
}.

Definition m_per : Z := 5.

(** [__init__]; the constructor's [self.mot.set_duty(0)] is applied to
    the driver object it is given. *)
Definition init (motor : L6206.t) (encoder : Encoder.t) (me_set : string) : t :=
  {| mot := L6206.set_duty 0 motor; enc := encoder; state := 0; set := me_set;
     v_ref := 15; start := 0; end_ := 0; count := 0; v_meas := 0; v_set := 0;
     Kp := 16 # 10; Ki := 15;
     adjust1 := 10; adjust2 := 40; adjust3 := 85; adjust4 := 25; adjust5 := 30;
     period := m_per; offset := 3; back := 0; turn := 0; forw := 0 |}.

(** Assignment to one attribute. *)
Definition with_mot (v : L6206.t) (m : t) : t :=
  mk v (enc m) (state m) (set m) (v_ref m) (start m) (end_ m) (count m)
     (v_meas m) (v_set m) (Kp m) (Ki m) (adjust1 m) (adjust2 m) (adjust3 m)
     (adjust4 m) (adjust5 m) (period m) (offset m) (back m) (turn m) (forw m).
Definition with_enc (v : Encoder.t) (m : t) : t :=
  mk (mot m) v (state m) (set m) (v_ref m) (start m) (end_ m) (count m)
     (v_meas m) (v_set m) (Kp m) (Ki m) (adjust1 m) (adjust2 m) (adjust3 m)
     (adjust4 m) (adjust5 m) (period m) (offset m) (back m) (turn m) (forw m).
Definition with_state (v : Z) (m : t) : t :=
  mk (mot m) (enc m) v (set m) (v_ref m) (start m) (end_ m) (count m)
     (v_meas m) (v_set m) (Kp m) (Ki m) (adjust1 m) (adjust2 m) (adjust3 m)
     (adjust4 m) (adjust5 m) (period m) (offset m) (back m) (turn m) (forw m).
Definition with_start (v : Z) (m : t) : t :=
  mk (mot m) (enc m) (state m) (set m) (v_ref m) v (end_ m) (count m)
     (v_meas m) (v_set m) (Kp m) (Ki m) (adjust1 m) (adjust2 m) (adjust3 m)
     (adjust4 m) (adjust5 m) (period m) (offset m) (back m) (turn m) (forw m).
Definition with_end (v : Z) (m : t) : t :=
  mk (mot m) (enc m) (state m) (set m) (v_ref m) (start m) v (count m)
     (v_meas m) (v_set m) (Kp m) (Ki m) (adjust1 m) (adjust2 m) (adjust3 m)
     (adjust4 m) (adjust5 m) (period m) (offset m) (back m) (turn m) (forw m).
Definition with_count (v : Z) (m : t) : t :=
  mk (mot m) (enc m) (state m) (set m) (v_ref m) (start m) (end_ m) v
     (v_meas m) (v_set m) (Kp m) (Ki m) (adjust1 m) (adjust2 m) (adjust3 m)
     (adjust4 m) (adjust5 m) (period m) (offset m) (back m) (turn m) (forw m).
Definition with_v_meas (v : Q) (m : t) : t :=
  mk (mot m) (enc m) (state m) (set m) (v_ref m) (start m) (end_ m) (count m)
     v (v_set m) (Kp m) (Ki m) (adjust1 m) (adjust2 m) (adjust3 m)
     (adjust4 m) (adjust5 m) (period m) (offset m) (back m) (turn m) (forw m).
Definition with_back (v : Z) (m : t) : t :=
  mk (mot m) (enc m) (state m) (set m) (v_ref m) (start m) (end_ m) (count m)
     (v_meas m) (v_set m) (Kp m) (Ki m) (adjust1 m) (adjust2 m) (adjust3 m)
     (adjust4 m) (adjust5 m) (period m) (offset m) v (turn m) (forw m).
Definition with_turn (v : Z) (m : t) : t :=
  mk (mot m) (enc m) (state m) (set m) (v_ref m) (start m) (end_ m) (count m)
     (v_meas m) (v_set m) (Kp m) (Ki m) (adjust1 m) (adjust2 m) (adjust3 m)
     (adjust4 m) (adjust5 m) (period m) (offset m) (back m) v (forw m).

(** What the hardware shows during one pass of the loop: the clock, and
    the encoder timer's counter at the [update()] of the preamble and at
    the second [update()] a state-13 pass makes. *)
Record inputs := mk_inputs {
  now : Z;
  counter : Z;
  counter' : Z
}.

(** The calls [mot_gen] makes on the objects the motor task owns. *)
Definition enc_update_call (c : Z) : M t unit :=
  assign (fun m => with_enc (Encoder.update c (enc m)) m) ;; emit enc_update.

Definition enc_zero_call : M t unit :=
  assign (fun m => with_enc (Encoder.zero (enc m)) m) ;; emit enc_zero.

Definition enc_get_delta_call : M t Z :=
  m <- self ;; emit enc_get_delta ;; ret (Encoder.get_delta (enc m)).

Definition enc_get_position_call : M t Z :=
  m <- self ;; emit enc_get_position ;; ret (Encoder.get_position (enc m)).

Definition ticks_ms_call (i : inputs) : M t Z :=
  emit ticks_ms ;; ret (now i).

Definition set_duty_call (d : Z) : M t unit :=
  assign (fun m => with_mot (L6206.set_duty d (mot m)) m) ;; emit (set_duty d).

(** [d/t] of Python: a true division, which raises on a zero divisor. *)
Definition truediv (d elapsed : Z) : M t Q :=
  if elapsed =? 0 then raise ZeroDivisionError
  else ret (inject_Z d / inject_Z elapsed)%Q.

(** The body shared by states 1, 2, 4 to 11: one duty for the right
    wheel, one for the left, none for any other [set]; then back to 0. *)
Definition graded (duty_R duty_L : t -> Z) : M t unit :=
  m <- self ;;
  (if String.eqb (set m) "R" then set_duty_call (duty_R m)
   else if String.eqb (set m) "L" then set_duty_call (duty_L m)
   else ret tt) ;;
  assign (with_state 0).

(** State 0 of a wheel: a waiting code becomes the state, and with none
    waiting the idle duty is commanded. *)
Definition poll (q : qname) (idle_duty : Z) : M t unit :=
  pending <- q_any_call q ;;
  if pending : bool
  then (v <- q_get_call q ;; assign (with_state v))
  else set_duty_call idle_duty.

(** State 0. *)
Definition state0 : M t unit :=
  m <- self ;;
  if String.eqb (set m) "R" then poll turn_q_r (v_ref m)
  else if String.eqb (set m) "L" then poll turn_q_l (v_ref m + 0)
  else set_duty_call (v_ref m).

(** State 13, the scripted turn. *)
Definition state13 (i : inputs) : M t unit :=
  m <- self ;;
  if (back m =? 0) && (turn m =? 0) && (forw m =? 0) then
    emit (print "FIRST") ;;
    enc_zero_call ;;
    assign (with_back 1) ;;
    enc_update_call (counter' i)
  else if back m =? 1 then
    emit (print "SECOND") ;;
    enc_zero_call ;;
    enc_update_call (counter' i) ;;
    p <- enc_get_position_call ;;
    if Z.abs p <? 1440 then
      p' <- enc_get_position_call ;;
      emit (print_int (Z.abs p')) ;;
      set_duty_call (-3)
    else
      assign (with_turn 1) ;;
      assign (with_back 0) ;;
      set_duty_call 0 ;;
      m' <- self ;;
      if count m' <? 1000 then
        assign (with_count (count m' + 1)) ;;
        assign (with_state 13)
      else assign (with_state 0)
  else
    emit (print "DONE") ;;
    assign (with_state 0).

(** The statements every pass begins with, whatever the state: the
    encoder update and the velocity estimate. *)
Definition measure (i : inputs) : M t unit :=
  enc_update_call (counter i) ;;
  t_end <- ticks_ms_call i ;;
  assign (with_end t_end) ;;
  d <- enc_get_delta_call ;;
  m <- self ;;
  let elapsed := end_ m - start m in
  q <- truediv d elapsed ;;
  assign (with_v_meas (q * (1000 / 1440))%Q) ;;
  assign (fun m => with_start (end_ m) m).

(** The [if]/[elif] chain on [self.state]. *)
Definition dispatch (i : inputs) : M t unit :=
  m <- self ;;
  if state m =? 0 then state0
  else if state m =? 1 then
    graded (fun m => v_ref m + adjust1 m) (fun m => v_ref m - adjust1 m + 0)
  else if state m =? 2 then
    graded (fun m => v_ref m - adjust1 m) (fun m => v_ref m + adjust1 m + 0)
  else if state m =? 3 then
    set_duty_call (v_ref m) ;; assign (with_state 0)
  else if state m =? 4 then
    graded (fun m => v_ref m + adjust2 m) (fun m => v_ref m - adjust2 m + 0)
  else if state m =? 5 then
    graded (fun m => v_ref m + adjust3 m) (fun m => v_ref m - adjust3 m + 0)
  else if state m =? 6 then
    graded (fun m => v_ref m + adjust4 m) (fun m => v_ref m - adjust4 m + 0)
  else if state m =? 7 then
    graded (fun m => v_ref m + adjust4 m) (fun m => v_ref m - adjust4 m + 0)
  else if state m =? 8 then
    graded (fun m => v_ref m - adjust2 m + offset m)
           (fun m => v_ref m + adjust2 m + 0)
  else if state m =? 9 then
    graded (fun m => v_ref m - adjust3 m + offset m)
           (fun m => v_ref m + adjust3 m + 0)
  else if state m =? 10 then
    graded (fun m => v_ref m - adjust4 m + offset m)
           (fun m => v_ref m + adjust4 m + 0)
  else if state m =? 11 then
    graded (fun m => v_ref m - adjust5 m + offset m)
           (fun m => v_ref m + adjust5 m + 0)
  else if state m =? 12 then
    set_duty_call 0 ;; assign (with_state 0)
  else if state m =? 13 then state13 i
  else raise (ValueError "Invalid State").

(** One pass of the [while True] loop of [mot_gen], up to and including
    its [yield]; the result is the yielded value. *)
Definition mot_gen (i : inputs) : M t Z :=
  measure i ;;
  dispatch i ;;
  m <- self ;;
  ret (state m).

End Motor.

(** ** main.py: class sensor *)

Module Sensor.

(** The attributes of a [sensor] task but for the six ADC channels. *)
Record t := mk {
  state : Z;
  black : Z;
  white : Z
}.

(** What the six channels read during one pass: every [read()] of a
    channel within the pass returns the value given here.  A pass in
    which a channel changes between two reads is [sen_gen_reads], below. *)
Record readings := mk_readings {
  S11 : Z;
  S9 : Z;
  S7 : Z;
  S5 : Z;
  S3 : Z;
  S1 : Z
}.

Definition init : t := {| state := 0; black := 2000; white := 2000 |}.

Definition with_state (v : Z) (s : t) : t :=
  {| state := v; black := black s; white := white s |}.

(** The two [put] calls and [self.state = 0] that end every rule. *)
Definition publish (code : Z) : M t unit :=
  q_put_call turn_q_l code ;;
  q_put_call turn_q_r code ;;
  assign (with_state 0).

(** The body of a LEFT rule ([checked] is [turn_q_r]) or of a RIGHT rule
    ([checked] is [turn_q_l]): the fullness check with its message, then
    the puts. *)
Definition report_and_publish (checked : qname) (msg : string) (code : Z) : M t unit :=
  is_full <- q_full_call checked ;;
  when is_full (emit (print msg)) ;;
  publish code.

Definition left_rule := report_and_publish turn_q_r "RIGHT QUEUE FULL".
Definition right_rule := report_and_publish turn_q_l "LEFT QUEUE FULL".

(** One pass of the [while True] loop of [sen_gen], up to and including
    its [yield]. *)
Definition sen_gen (r : readings) : M t Z :=
  s <- self ;;
  (if state s =? 0 then
     (* GO STRAIGHT *)
     if (S9 r <? white s) && (S7 r >? black s) && (S5 r >? black s)
        && (S3 r <? white s)
     then publish 3
     (* LEFT 1 *)
     else if (S3 r >? black s) && (S5 r >? black s)
     then left_rule 1
     (* LEFT 2 *)
     else if (S1 r >? black s) && (S3 r >? black s)
     then left_rule 4
     (* LEFT 3 *)
     else if (S1 r >? black s) && (S3 r <? white s) && (S5 r <? white s)
             && (S7 r <? white s) && (S9 r <? white s) && (S11 r <? white s)
     then left_rule 5
     (* LEFT 4 *)
     else if (S5 r >? black s) && (S7 r >? black s) && (S9 r >? black s)
     then left_rule 6
     (* LEFT 5 *)
     else if (S5 r >? black s) && (S7 r >? black s) && (S9 r >? black s)
             && (S11 r >? black s)
     then left_rule 7
     (* RIGHT 1 *)
     else if (S7 r >? black s) && (S9 r >? black s)
     then right_rule 2
     (* RIGHT 2 *)
     else if (S9 r >? black s) && (S11 r >? black s)
     then right_rule 8
     (* RIGHT 3 *)
     else if (S11 r >? black s) && (S3 r <? white s) && (S5 r <? white s)
             && (S7 r <? white s) && (S9 r <? white s) && (S1 r <? white s)
     then right_rule 9
     (* RIGHT 4 *)
     else if (S3 r >? black s) && (S5 r >? black s) && (S7 r >? black s)
     then right_rule 10
     (* RIGHT 5 *)
     else if (S1 r >? black s) && (S3 r >? black s) && (S5 r >? black s)
             && (S7 r >? black s)
     then right_rule 11
     (* default to go straight *)
     else publish 3
   else raise (ValueError "Invalid State")) ;;
  s <- self ;;
  ret (state s).

(** The rules of the [if]/[elif] chain of [sen_gen], in its order. *)
Inductive rule :=
| GO_STRAIGHT
| LEFT_1 | LEFT_2 | LEFT_3 | LEFT_4 | LEFT_5
| RIGHT_1 | RIGHT_2 | RIGHT_3 | RIGHT_4 | RIGHT_5.

(** One pass of [sen_gen] with every [read()] a call of its own:
    [seen k] is what the channels return while the condition of rule [k]
    is evaluated.  No condition reads a channel twice, so each [read()]
    of the pass has its own value here; a read that [and] skips has no
    effect.  [sen_gen r] above is the pass in which a channel returns the
    same value at every rule. *)
Definition sen_gen_reads (seen : rule -> readings) : M t Z :=
  s <- self ;;
  (if state s =? 0 then
     (* GO STRAIGHT *)
     if (S9 (seen GO_STRAIGHT) <? white s) && (S7 (seen GO_STRAIGHT) >? black s)
        && (S5 (seen GO_STRAIGHT) >? black s) && (S3 (seen GO_STRAIGHT) <? white s)
     then publish 3
     (* LEFT 1 *)
     else if (S3 (seen LEFT_1) >? black s) && (S5 (seen LEFT_1) >? black s)
     then left_rule 1
     (* LEFT 2 *)
     else if (S1 (seen LEFT_2) >? black s) && (S3 (seen LEFT_2) >? black s)
     then left_rule 4
     (* LEFT 3 *)
     else if (S1 (seen LEFT_3) >? black s) && (S3 (seen LEFT_3) <? white s)
             && (S5 (seen LEFT_3) <? white s) && (S7 (seen LEFT_3) <? white s)
             && (S9 (seen LEFT_3) <? white s) && (S11 (seen LEFT_3) <? white s)
     then left_rule 5
     (* LEFT 4 *)
     else if (S5 (seen LEFT_4) >? black s) && (S7 (seen LEFT_4) >? black s)
             && (S9 (seen LEFT_4) >? black s)
     then left_rule 6
     (* LEFT 5 *)
     else if (S5 (seen LEFT_5) >? black s) && (S7 (seen LEFT_5) >? black s)
             && (S9 (seen LEFT_5) >? black s) && (S11 (seen LEFT_5) >? black s)
     then left_rule 7
     (* RIGHT 1 *)
     else if (S7 (seen RIGHT_1) >? black s) && (S9 (seen RIGHT_1) >? black s)
     then right_rule 2
     (* RIGHT 2 *)
     else if (S9 (seen RIGHT_2) >? black s) && (S11 (seen RIGHT_2) >? black s)
     then right_rule 8
     (* RIGHT 3 *)
     else if (S11 (seen RIGHT_3) >? black s) && (S3 (seen RIGHT_3) <? white s)
             && (S5 (seen RIGHT_3) <? white s) && (S7 (seen RIGHT_3) <? white s)
             && (S9 (seen RIGHT_3) <? white s) && (S1 (seen RIGHT_3) <? white s)
     then right_rule 9
     (* RIGHT 4 *)
     else if (S3 (seen RIGHT_4) >? black s) && (S5 (seen RIGHT_4) >? black s)
             && (S7 (seen RIGHT_4) >? black s)
     then right_rule 10
     (* RIGHT 5 *)
     else if (S1 (seen RIGHT_5) >? black s) && (S3 (seen RIGHT_5) >? black s)
             && (S5 (seen RIGHT_5) >? black s) && (S7 (seen RIGHT_5) >? black s)
     then right_rule 11
     (* default to go straight *)
     else publish 3
   else raise (ValueError "Invalid State")) ;;
  s <- self ;;
  ret (state s).

End Sensor.

(** ** main.py: class switch *)

Module Switch.

(** The attributes of a [switch] task but for the two pins. *)
Record t := mk {
  state : Z
}.

(** What [self.left.value()] and [self.right.value()] return during one
    pass. *)
Record pins := mk_pins {
  left : Z;
  right : Z
}.

Definition init : t := {| state := 0 |}.

Definition with_state (v : Z) (s : t) : t := {| state := v |}.

(** One pass of the [while True] loop of [sw_gen], up to and including
    its [yield]. *)
Definition sw_gen (p : pins) : M t Z :=
  s <- self ;;
  (if state s =? 0 then
     if (left p =? 1) || (right p =? 1) then assign (with_state 1)
     else assign (with_state 0)
   else if state s =? 1 then
     q_put_call turn_q_l 13 ;;
     emit (print "triggered") ;;
     q_put_call turn_q_r 13 ;;
     assign (with_state 2)
   else if state s =? 2 then assign (with_state 2)
   else raise (ValueError "Invalid State")) ;;
  s <- self ;;
  ret (state s).

End Switch.

(** ** main.py: the drivers, [stat] and the user button *)

Module Main.

(** The module-level names the handler of the button reads. *)
Record globals := mk {
  mot_R : L6206.t;
  mot_L : L6206.t;
  stat : Z
}.

(** The module-level statements that build the two drivers and [stat]. *)
Definition startup : globals :=
  {| mot_R := L6206.set_duty 0 (L6206.enable L6206.init);
     mot_L := L6206.set_duty 0 (L6206.enable L6206.init);
     stat := 0 |}.

(** [motor_toggle(mot_R, mot_L, status)]: the two driver objects after
    the call, and the value the function leaves in the name [stat].  The
    function body has no [global] statement, so its [stat = status] binds
    a name local to the call; the module-level [stat] is not assigned. *)
Definition motor_toggle (mot_R mot_L : L6206.t) (status : Z)
    : L6206.t * L6206.t * Z :=
  if status =? 1 then
    let mot_R := L6206.disable mot_R in
    let mot_L := L6206.disable mot_L in
    let status := 0 in
    let stat := status in
    (mot_R, mot_L, stat)
  else
    let mot_R := L6206.enable mot_R in
    let mot_L := L6206.enable mot_L in
    let status := 1 in
    let stat := status in
    (mot_R, mot_L, stat).

(** The handler given to [ExtInt]:
    [lambda p: motor_toggle(mot_R, mot_L, (0 if stat==1 else 1))]. *)
Definition button_int (g : globals) : globals :=
  let '(r, l, _) :=
    motor_toggle (mot_R g) (mot_L g) (if stat g =? 1 then 0 else 1) in
  {| mot_R := r; mot_L := l; stat := stat g |}.

End Main.

(** ** ClosedLoop.py *)

(** The arithmetic ClosedLoop.py asks of its arguments: Python applies
    [-], [*], [+] and [/] to whatever numbers the caller passes, the
    integer literals 0 and 1000 come from the source itself, and [num_eq]
    is [==]. *)
Class Number (num : Type) := {
  of_int : Z -> num;
  add : num -> num -> num;
  sub : num -> num -> num;
  mul : num -> num -> num;
  truediv : num -> num -> num;
  num_eq : num -> num -> Prop
}.

Module ClosedLoop.

Section WithNumber.

Context {num : Type} {arith : Number num}.

(** [proportional] and [L] exist only once [update] has run. *)
Record t := mk {
  Kp : num;
  Ki : num;
  meas : num;
  ref : num;
  error : num;
  integral : num;
  period : num;
  proportional : option num;
  L : option num
}.

Definition init (period0 Kp0 Ki0 ref0 meas0 : num) : t :=
  {| Kp := Kp0;
     Ki := Ki0;
     meas := meas0;
     ref := ref0;
     error := of_int 0;
     integral := of_int 0;
     period := truediv period0 (of_int 1000);
     proportional := None;
     L := None |}.

Definition set_Kp (Kp0 : num) (self : t) : t :=
  mk Kp0 (Ki self) (meas self) (ref self) (error self) (integral self)
     (period self) (proportional self) (L self).

Definition set_Ki (Ki0 : num) (self : t) : t :=
  mk (Kp self) Ki0 (meas self) (ref self) (error self) (integral self)
     (period self) (proportional self) (L self).

Definition setpoint (ref0 : num) (self : t) : t :=
  mk (Kp self) (Ki self) (meas self) ref0 (error self) (integral self)
     (period self) (proportional self) (L self).

(** [update()]: the returned output and the object afterwards. *)
Definition update (self : t) : num * t :=
  let error' := sub (ref self) (meas self) in
  let proportional' := mul (Kp self) error' in
  let integral' := add (integral self) (mul (mul (Ki self) error') (period self)) in
  let L' := add proportional' integral' in
  (L',
   {| Kp := Kp self;
      Ki := Ki self;
      meas := meas self;
      ref := ref self;
      error := error';
      integral := integral';
      period := period self;
      proportional := Some proportional';
      L := Some L' |}).

(** [n] calls of [update()] in a row. *)
Fixpoint updates (n : nat) (self : t) : t :=
  match n with
  | O => self
  | S n' => updates n' (snd (update self))
  end.

(** The calls that leave the integral gain as constructed. *)
Inductive call :=
| Update
| SetKp (Kp0 : num)
| Setpoint (ref0 : num).

Definition do_call (self : t) (c : call) : t :=
  match c with
  | Update => snd (update self)
  | SetKp k => set_Kp k self
  | Setpoint r => setpoint r self
  end.

Definition run (self : t) (cs : list call) : t := fold_left do_call cs self.

(** Every call that changes a controller object. *)
Inductive method :=
| CallUpdate
| CallSetKp (Kp0 : num)
| CallSetKi (Ki0 : num)
| CallSetpoint (ref0 : num).

Definition do_method (self : t) (c : method) : t :=
  match c with
  | CallUpdate => snd (update self)
  | CallSetKp k => set_Kp k self
  | CallSetKi k => set_Ki k self
  | CallSetpoint r => setpoint r self
  end.

Definition play (self : t) (cs : list method) : t := fold_left do_method cs self.

End WithNumber.

Arguments t num : clear implicits.
Arguments call num : clear implicits.
Arguments method num : clear implicits.

End ClosedLoop.

(** Exact arithmetic: the rationals. *)
#[export] Instance exact_number : Number Q := {|
  of_int := inject_Z;
  add := Qplus;
  sub := Qminus;
  mul := Qmult;
  truediv := Qdiv;
  num_eq := Qeq
|}.

(** Python's own numbers: unbounded integers and binary floating point
    rounded to nearest even, an operation on an integer and a float
    converting the integer first, and [/] on two integers rounding their
    quotient once.  [prec] and [emax] fix the format: 53 and 1024 for the
    64-bit floats of CPython, 24 and 128 for the 32-bit floats of
    MicroPython on the pyboard.  One case is left out: an integer too
    large for the format becomes an infinity here, where CPython raises
    OverflowError; the properties below are stated for integers of at
    most [prec] bits, whose sums and products stay in range. *)
Module PyNum.

Inductive t :=
| PyInt (z : Z)
| PyFloat (f : spec_float).

Section Format.

Variables prec emax : Z.

Definition float_of_int (z : Z) : spec_float :=
  binary_normalize prec emax z 0 false.

Definition to_float (x : t) : spec_float :=
  match x with
  | PyInt z => float_of_int z
  | PyFloat f => f
  end.

Definition binop (on_int : Z -> Z -> Z)
    (on_float : spec_float -> spec_float -> spec_float) (x y : t) : t :=
  match x, y with
  | PyInt a, PyInt b => PyInt (on_int a b)
  | _, _ => PyFloat (on_float (to_float x) (to_float y))
  end.

Definition py_add := binop Z.add (SFadd prec emax).
Definition py_sub := binop Z.sub (SFsub prec emax).
Definition py_mul := binop Z.mul (SFmul prec emax).

(** An integer with all its digits, as an operand of the division. *)
Definition whole (z : Z) : spec_float :=
  match z with
  | Z0 => S754_zero false
  | Zpos p => S754_finite false p 0
  | Zneg p => S754_finite true p 0
  end.

(** The float [x / y] is: for two integers their quotient rounded once,
    otherwise the quotient of the two floats. *)
Definition quotient (x y : t) : spec_float :=
  match x, y with
  | PyInt a, PyInt b => SFdiv prec emax (whole a) (whole b)
  | _, _ => SFdiv prec emax (to_float x) (to_float y)
  end.

(** [/] always gives a float; the divisors of the sources are 1000, 2
    and 16.0, never zero. *)
Definition py_truediv (x y : t) : t := PyFloat (quotient x y).

(** The rational a finite float stands for. *)
Definition float_value (f : spec_float) : option Q :=
  match f with
  | S754_zero _ => Some 0%Q
  | S754_finite s m e =>
      Some (inject_Z (cond_Zopp s (Zpos m)) * Qpower 2 e)%Q
  | _ => None
  end.

Definition value (x : t) : option Q :=
  match x with
  | PyInt z => Some (inject_Z z)
  | PyFloat f => float_value f
  end.

(** [==] of Python on numbers. *)
Definition py_eq (x y : t) : Prop :=
  match x, y with
  | PyInt a, PyInt b => a = b
  | PyFloat f, PyFloat g => SFeqb f g = true
  | _, _ =>
      match value x, value y with
      | Some p, Some q => (p == q)%Q
      | _, _ => False
      end
  end.

Definition number : Number t := {|
  of_int := PyInt;
  add := py_add;
  sub := py_sub;
  mul := py_mul;
  truediv := py_truediv;
  num_eq := py_eq
|}.

End Format.

Definition binary64 : Number t := number 53 1024.
Definition binary32 : Number t := number 24 128.

End PyNum.

(** ** encoder_romi.py: the limits as the interpreter computes them *)

Module FloatEncoder.

Section Format.

(** The float format of the interpreter, as in [PyNum]. *)
Variables prec emax : Z.

(** [(auto_r + 1)/2] and [-1*(auto_r + 1)/2], as [/] gives them. *)
Definition limit (auto_r : Z) : spec_float :=
  PyNum.quotient prec emax (PyNum.PyInt (auto_r + 1)) (PyNum.PyInt 2).

Definition neg_limit (auto_r : Z) : spec_float :=
  PyNum.quotient prec emax (PyNum.PyInt (-1 * (auto_r + 1))) (PyNum.PyInt 2).

(** [__init__] as the interpreter runs it: the object of [Encoder.init]
    with the two limits as those floats, held by their values.  [None]
    is a quotient too large for a float, where CPython raises
    OverflowError. *)
Definition init (auto_r : Z) : option Encoder.t :=
  match PyNum.float_value (limit auto_r), PyNum.float_value (neg_limit auto_r) with
  | Some l, Some nl =>
      let e := Encoder.init auto_r in
      Some {| Encoder.idx := Encoder.idx e;
              Encoder.delta := Encoder.delta e;
              Encoder.count := Encoder.count e;
              Encoder.old_count := Encoder.old_count e;
              Encoder.auto_reload := Encoder.auto_reload e;
              Encoder.limit := l;
              Encoder.neg_limit := nl;
              Encoder.AR1 := Encoder.AR1 e;
              Encoder.position := Encoder.position e |}
  | _, _ => None
  end.

End Format.

End FloatEncoder.

(** ** machine.I2C, from section 6 of the specification *)

Module I2C.

(** One write transaction: device address, register address, bytes. *)
Definition write := (Z * Z * list byte)%type.

(** Modelled from the spec: the register bus is an external collaborator;
    a bus is the registers of its devices, by device and register
    address, and the write transactions made so far.  The transactions
    below are those that complete: a transport error, which the spec has
    propagate to the caller, is not part of this module. *)
Record t := mk {
  regs : Z -> Z -> byte;
  writes : list write
}.

(** Modelled from the spec: [readfrom_mem(addr, memaddr, nbytes)] is a
    synchronous block read of [nbytes] consecutive registers. *)
Definition readfrom_mem (addr memaddr : Z) (nbytes : nat) (bus : t) : list byte :=
  map (fun k => regs bus addr (memaddr + Z.of_nat k)) (seq 0 nbytes).

(** Modelled from the spec: the registers after a block write, byte by
    byte from [memaddr] upwards. *)
Fixpoint store (addr memaddr : Z) (data : list byte) (r : Z -> Z -> byte)
    : Z -> Z -> byte :=
  match data with
  | [] => r
  | b :: rest =>
      store addr (memaddr + 1) rest
        (fun a k => if (a =? addr) && (k =? memaddr) then b else r a k)
  end.

(** Modelled from the spec: [writeto_mem(addr, memaddr, buf)] is a
    synchronous block write to consecutive registers, which then hold
    the bytes written. *)
Definition writeto_mem (addr memaddr : Z) (buf : list byte) (bus : t) : t :=
  {| regs := store addr memaddr buf (regs bus);
     writes := writes bus ++ [(addr, memaddr, buf)] |}.

End I2C.

(** ** BNO055.py *)

Module BNO055.

(** The attributes [__init__] sets besides [i2c]; the bus object is
    shared with the caller and is threaded through the methods.
    The source assigns [mag_radius_lsb] twice (0x69, then 0x67) and
    never [acc_radius_lsb]. *)
Record t := mk {
  i2c_addr : Z;
  mag_radius_msb : Z;
  mag_radius_lsb : Z;
  acc_radius_msb : Z;
  gyr_off_z_msb : Z; gyr_off_z_lsb : Z;
  gyr_off_y_msb : Z; gyr_off_y_lsb : Z;
  gyr_off_x_msb : Z; gyr_off_x_lsb : Z;
  mag_off_z_msb : Z; mag_off_z_lsb : Z;
  mag_off_y_msb : Z; mag_off_y_lsb : Z;
  mag_off_x_msb : Z; mag_off_x_lsb : Z;
  acc_off_z_msb : Z; acc_off_z_lsb : Z;
  acc_off_y_msb : Z; acc_off_y_lsb : Z;
  acc_off_x_msb : Z; acc_off_x_lsb : Z;
  AXIS_REMAP_P0 : Z; AXIS_REMAP_P1 : Z; AXIS_REMAP_P2 : Z; AXIS_REMAP_P3 : Z;
  AXIS_REMAP_P4 : Z; AXIS_REMAP_P5 : Z; AXIS_REMAP_P6 : Z; AXIS_REMAP_P7 : Z;
  AXIS_REMAP_SIGN_P0 : Z; AXIS_REMAP_SIGN_P1 : Z; AXIS_REMAP_SIGN_P2 : Z;
  AXIS_REMAP_SIGN_P3 : Z; AXIS_REMAP_SIGN_P4 : Z; AXIS_REMAP_SIGN_P5 : Z;
  AXIS_REMAP_SIGN_P6 : Z; AXIS_REMAP_SIGN_P7 : Z
}.

Inductive exn :=
| ValueError (msg : string)
| StructError.

Inductive res (A : Type) :=
| Ok (a : A)
| Raise (e : exn).
Arguments Ok {A} a.
Arguments Raise {A} e.

(** One element of [bytes([...])] or of [struct.pack] with code [B]:
    an integer in range(256), anything else is refused. *)
Definition byte_of_int (z : Z) : option byte :=
  if (0 <=? z) && (z <=? 255) then Byte.of_N (Z.to_N z) else None.

Definition int_of_byte (b : byte) : Z := Z.of_N (Byte.to_N b).

Fixpoint bytes_of_ints (l : list Z) : option (list byte) :=
  match l with
  | [] => Some []
  | z :: rest =>
      match byte_of_int z, bytes_of_ints rest with
      | Some b, Some bs => Some (b :: bs)
      | _, _ => None
      end
  end.

(** [bytes([...])]. *)
Definition bytes (l : list Z) : res (list byte) :=
  match bytes_of_ints l with
  | Some bs => Ok bs
  | None => Raise (ValueError "bytes must be in range(0, 256)")
  end.

(** [bytearray([...])]. *)
Definition bytearray (l : list Z) : res (list byte) :=
  match bytes_of_ints l with
  | Some bs => Ok bs
  | None => Raise (ValueError "byte must be in range(0, 256)")
  end.

(** [struct.unpack("<22B", buffer)]: 22 unsigned bytes, no padding. *)
Definition unpack_22B (buffer : list byte) : res (list Z) :=
  if (List.length buffer =? 22)%nat then Ok (map int_of_byte buffer)
  else Raise StructError.

(** [struct.pack("<22B", *values)]. *)
Definition pack_22B (values : list Z) : res (list byte) :=
  if (List.length values =? 22)%nat then
    match bytes_of_ints values with
    | Some bs => Ok bs
    | None => Raise StructError
    end
  else Raise StructError.

Definition set_operation_mode (self : t) (mode : Z) (bus : I2C.t)
    : res unit * I2C.t :=
  match bytearray [mode] with
  | Ok buf => (Ok tt, I2C.writeto_mem (i2c_addr self) 0x3D buf bus)
  | Raise e => (Raise e, bus)
  end.

(** The attributes [__init__] assigns before it touches the bus. *)
Definition attributes : t :=
  {| i2c_addr := 0x28;
     mag_radius_msb := 0x6A;
     mag_radius_lsb := 0x67;
     acc_radius_msb := 0x68;
     gyr_off_z_msb := 0x66; gyr_off_z_lsb := 0x65;
     gyr_off_y_msb := 0x64; gyr_off_y_lsb := 0x63;
     gyr_off_x_msb := 0x62; gyr_off_x_lsb := 0x61;
     mag_off_z_msb := 0x60; mag_off_z_lsb := 0x5F;
     mag_off_y_msb := 0x5E; mag_off_y_lsb := 0x5D;
     mag_off_x_msb := 0x5C; mag_off_x_lsb := 0x5B;
     acc_off_z_msb := 0x5A; acc_off_z_lsb := 0x59;
     acc_off_y_msb := 0x58; acc_off_y_lsb := 0x57;
     acc_off_x_msb := 0x56; acc_off_x_lsb := 0x55;
     AXIS_REMAP_P0 := 0x21; AXIS_REMAP_P1 := 0x24; AXIS_REMAP_P2 := 0x24;
     AXIS_REMAP_P3 := 0x21; AXIS_REMAP_P4 := 0x24; AXIS_REMAP_P5 := 0x21;
     AXIS_REMAP_P6 := 0x21; AXIS_REMAP_P7 := 0x24;
     AXIS_REMAP_SIGN_P0 := 0x04; AXIS_REMAP_SIGN_P1 := 0x00;
     AXIS_REMAP_SIGN_P2 := 0x06; AXIS_REMAP_SIGN_P3 := 0x02;
     AXIS_REMAP_SIGN_P4 := 0x03; AXIS_REMAP_SIGN_P5 := 0x01;
     AXIS_REMAP_SIGN_P6 := 0x07; AXIS_REMAP_SIGN_P7 := 0x05 |}.

(** [__init__]: the attributes, then [set_operation_mode(0x00)]. *)
Definition init (bus : I2C.t) : res t * I2C.t :=
  match set_operation_mode attributes 0x00 bus with
  | (Ok _, bus') => (Ok attributes, bus')
  | (Raise e, bus') => (Raise e, bus')
  end.

Definition read_calibration_coefficients (self : t) (bus : I2C.t) : res (list Z) :=
  let coefficients := I2C.readfrom_mem (i2c_addr self) 0x55 22 bus in
  unpack_22B coefficients.

Definition write_calibration_coefficients (self : t) (coefficients : list Z)
    (bus : I2C.t) : res unit * I2C.t :=
  match pack_22B coefficients with
  | Ok packed_data => (Ok tt, I2C.writeto_mem (i2c_addr self) 0x55 packed_data bus)
  | Raise e => (Raise e, bus)
  end.

(** The (remap, sign) pair the [if]/[elif] chain of [remap_axes] picks. *)
Definition placement_bytes (placement : Z) : res (Z * Z) :=
  if placement =? 0 then Ok (0x21, 0x04)
  else if placement =? 1 then Ok (0x24, 0x00)
  else if placement =? 2 then Ok (0x24, 0x06)
  else if placement =? 3 then Ok (0x21, 0x02)
  else if placement =? 4 then Ok (0x24, 0x03)
  else if placement =? 5 then Ok (0x21, 0x01)
  else if placement =? 6 then Ok (0x21, 0x07)
  else if placement =? 7 then Ok (0x24, 0x05)
  else Raise (ValueError "Invalid placement value").

Definition remap_axes (self : t) (placement : Z) (bus : I2C.t)
    : res unit * I2C.t :=
  match placement_bytes placement with
  | Raise e => (Raise e, bus)
  | Ok (remap, sign) =>
      match bytes [remap] with
      | Raise e => (Raise e, bus)
      | Ok remap_buf =>
          let bus1 := I2C.writeto_mem (i2c_addr self) 0x41 remap_buf bus in
          match bytes [sign] with
          | Raise e => (Raise e, bus1)
          | Ok sign_buf =>
              (Ok tt, I2C.writeto_mem (i2c_addr self) 0x42 sign_buf bus1)
          end
      end
  end.

(** [get_calibration_status]: the dict it returns, as an association
    list in the order of the literal; [None] stands for the IndexError of
    [calibration_byte[0]] on an empty read and for a failed unpacking of
    the four values.  The shifts are those of [range(6, -1, -2)]. *)
Definition get_calibration_status (self : t) (bus : I2C.t)
    : option (list (string * Z)) :=
  let calibration_byte := I2C.readfrom_mem (i2c_addr self) 0x35 1 bus in
  match calibration_byte with
  | [] => None
  | b0 :: _ =>
      match map (fun i => Z.land (Z.shiftr (int_of_byte b0) i) 0x03) [6; 4; 2; 0] with
      | [sys; gyro; accel; mag] =>
          Some [("system", sys); ("gyroscope", gyro);
                ("accelerometer", accel); ("magnetometer", mag)]
      | _ => None
      end
  end.

(** One [h] of [struct.unpack] in little-endian order: two bytes, the
    low one first, read as a signed 16-bit integer. *)
Definition int16_of_bytes (lo hi : byte) : Z :=
  let u := int_of_byte lo + 256 * int_of_byte hi in
  if u <? 32768 then u else u - 65536.

(** [struct.unpack("<3h", buffer)]. *)
Definition unpack_3h (buffer : list byte) : res (Z * Z * Z) :=
  match buffer with
  | [a0; a1; b0; b1; c0; c1] =>
      Ok (int16_of_bytes a0 a1, int16_of_bytes b0 b1, int16_of_bytes c0 c1)
  | _ => Raise StructError
  end.

Section Angles.

(** The float format of the interpreter, as in [PyNum]. *)
Variables prec emax : Z.

(** The literal [16.0]. *)
Definition sixteen : PyNum.t := PyNum.PyFloat (PyNum.float_of_int prec emax 16).

(** [read_euler_angles]: the three halfwords from register 0x1A are
    unpacked into yaw, roll, pitch, in that order. *)
Definition read_euler_angles (self : t) (bus : I2C.t)
    : res (list (string * PyNum.t)) :=
  let euler_data := I2C.readfrom_mem (i2c_addr self) 0x1A 6 bus in
  match unpack_3h euler_data with
  | Raise e => Raise e
  | Ok (yaw, roll, pitch) =>
      Ok [("roll", PyNum.py_truediv prec emax (PyNum.PyInt roll) sixteen);
          ("pitch", PyNum.py_truediv prec emax (PyNum.PyInt pitch) sixteen);
          ("yaw", PyNum.py_truediv prec emax (PyNum.PyInt yaw) sixteen)]
  end.

(** [read_angular_velocity]: the three halfwords from register 0x14 are
    unpacked into roll_rate, pitch_rate, yaw_rate, in that order. *)
Definition read_angular_velocity (self : t) (bus : I2C.t)
    : res (list (string * PyNum.t)) :=
  let angular_data := I2C.readfrom_mem (i2c_addr self) 0x14 6 bus in
  match unpack_3h angular_data with
  | Raise e => Raise e
  | Ok (roll_rate, pitch_rate, yaw_rate) =>
      Ok [("roll_rate", PyNum.py_truediv prec emax (PyNum.PyInt roll_rate) sixteen);
          ("pitch_rate", PyNum.py_truediv prec emax (PyNum.PyInt pitch_rate) sixteen);
          ("yaw_rate", PyNum.py_truediv prec emax (PyNum.PyInt yaw_rate) sixteen)]
  end.

End Angles.

End BNO055.

(** ** The calibration file of BNO055.py *)

(** The string methods [save_coefficients] and [load_coefficients] call.
    The module imports [machine], so it runs under MicroPython: a text
    file is read as it is stored, with no translation of line ends, and
    white space is the six characters of the C locale. *)
Module PyStr.

(** [sep.join(l)]. *)
Fixpoint join (sep : string) (l : list string) : string :=
  match l with
  | [] => ""
  | x :: rest =>
      match rest with
      | [] => x
      | _ :: _ => x ++ sep ++ join sep rest
      end
  end.

(** [s.split(sep)] for a separator of one character, as the "," of the
    source: the pieces between the separators, the empty ones too, so
    at least one piece. *)
Fixpoint split (sep : ascii) (s : string) : list string :=
  match s with
  | EmptyString => [""]
  | String c rest =>
      if Ascii.eqb c sep then "" :: split sep rest
      else match split sep rest with
           | [] => [String c ""]
           | piece :: pieces => String c piece :: pieces
           end
  end.

(** The line feed. *)
Definition LF : ascii := Ascii.ascii_of_nat 10.

(** Tab, line feed, vertical tab, form feed, carriage return, space. *)
Definition isspace (c : ascii) : bool :=
  let n := Ascii.nat_of_ascii c in
  ((9 <=? n)%nat && (n <=? 13)%nat) || (n =? 32)%nat.

(** [file.readline()] on what is left of a file: up to the first line
    feed and with it, or all of it when there is none. *)
Fixpoint readline (s : string) : string :=
  match s with
  | EmptyString => ""
  | String c rest =>
      if Ascii.eqb c LF then String c "" else String c (readline rest)
  end.

Fixpoint lstrip (s : string) : string :=
  match s with
  | EmptyString => ""
  | String c rest => if isspace c then lstrip rest else s
  end.

Fixpoint rstrip (s : string) : string :=
  match s with
  | EmptyString => ""
  | String c rest =>
      match rstrip rest with
      | EmptyString => if isspace c then "" else String c ""
      | kept => String c kept
      end
  end.

(** [s.strip()]. *)
Definition strip (s : string) : string := rstrip (lstrip s).

(** [hex(x)]: a sign when negative, "0x", and the digits in lower case
    with no leading zero. *)
Definition hex (x : Z) : string := HexString.of_Z x.

End PyStr.

Module Files.

(** Modelled from the spec: the calibration file is text kept under a
    name by a file system outside the program.  [content] is what a name
    holds, [None] when opening it for reading raises OSError; [writable]
    tells whether opening it for writing succeeds. *)
Record t := mk {
  content : string -> option string;
  writable : string -> bool
}.

(** [open(filename, "r")] and what the file holds. *)
Definition read (filename : string) (fs : t) : option string :=
  content fs filename.

(** [open(filename, "w")] and one [write(s)]: the file then holds [s] and
    nothing else; [None] is the OSError of [open]. *)
Definition write (filename s : string) (fs : t) : option t :=
  if writable fs filename then
    Some {| content := fun f => if String.eqb f filename then Some s
                                else content fs f;
            writable := writable fs |}
  else None.

End Files.

Module Calibration.

(** What a [print] call shows: its text, or its text and a list of
    strings. *)
Inductive line :=
| Text (s : string)
| TextAndList (s : string) (l : list string).

(** Modelled from the spec: a transaction of the register bus completes,
    or the transport fails it and the failure propagates as a bus error,
    which [machine.I2C] raises as OSError.  [link] tells which, for the
    transaction a call below makes.  The rest of a machine is the bus
    itself, the file system and the console. *)
Record machine := mk {
  bus : I2C.t;
  link : bool;
  disk : Files.t;
  console : list line
}.

Definition with_bus (b : I2C.t) (m : machine) : machine :=
  {| bus := b; link := link m; disk := disk m; console := console m |}.

Definition with_disk (d : Files.t) (m : machine) : machine :=
  {| bus := bus m; link := link m; disk := d; console := console m |}.

Definition say (l : line) (m : machine) : machine :=
  {| bus := bus m; link := link m; disk := disk m; console := console m ++ [l] |}.

(** OSError, and the exceptions of the driver. *)
Inductive exn :=
| OSError
| Driver (e : BNO055.exn).

Inductive res (A : Type) :=
| Ok (a : A)
| Raise (e : exn).
Arguments Ok {A} a.
Arguments Raise {A} e.

(** [save_coefficients]: the read of the 22 registers comes first, and
    its OSError leaves the method; the 22 values in hexadecimal, joined
    by commas, are then all the file holds; the message follows the
    [with] block. *)
Definition save_coefficients (self : BNO055.t) (filename : string) (m : machine)
    : res unit * machine :=
  if link m then
    match BNO055.read_calibration_coefficients self (bus m) with
    | BNO055.Raise e => (Raise (Driver e), m)
    | BNO055.Ok coeff_data =>
        let coeff_data_str := PyStr.join "," (map PyStr.hex coeff_data) in
        match Files.write filename coeff_data_str (disk m) with
        | None => (Raise OSError, m)
        | Some disk' =>
            (Ok tt, say (Text "Calibration data saved to file.") (with_disk disk' m))
        end
    end
  else (Raise OSError, m).

Section Load.

(** The builtin [int(x, 0)].  Which literals it reads (underscores,
    leading zeros, blanks) depends on the interpreter and its version,
    so it is left open here; a property says what it needs of it. *)
Variable int : string -> BNO055.res Z.

(** [[int(x, 0) for x in coeff_data]]: from the left, the first failure
    ends it. *)
Fixpoint ints (coeff_data : list string) : BNO055.res (list Z) :=
  match coeff_data with
  | [] => BNO055.Ok []
  | x :: rest =>
      match int x with
      | BNO055.Raise e => BNO055.Raise e
      | BNO055.Ok v =>
          match ints rest with
          | BNO055.Raise e => BNO055.Raise e
          | BNO055.Ok vs => BNO055.Ok (v :: vs)
          end
      end
  end.

(** [load_coefficients].  The whole [with] block is inside the [try]:
    [except OSError] takes the failure of [open] and also the OSError of
    the bus write in [write_calibration_coefficients], and prints the
    same message for both.  The exceptions of [int] and of [struct.pack],
    which is called before the bus is touched, are no OSError and leave
    the method. *)
Definition load_coefficients (self : BNO055.t) (filename : string) (m : machine)
    : res unit * machine :=
  match Files.read filename (disk m) with
  | None => (Ok tt, say (Text "No calibration file found.") m)
  | Some file =>
      let coeff_data := PyStr.split "," (PyStr.strip (PyStr.readline file)) in
      let m1 := say (TextAndList "Calibration Coefficients:" coeff_data) m in
      match ints coeff_data with
      | BNO055.Raise e => (Raise (Driver e), m1)
      | BNO055.Ok coeff_data_int =>
          match BNO055.write_calibration_coefficients self coeff_data_int (bus m1) with
          | (BNO055.Raise e, _) => (Raise (Driver e), m1)
          | (BNO055.Ok _, bus') =>
              if link m1 then (Ok tt, with_bus bus' m1)
              else (Ok tt, say (Text "No calibration file found.") m1)
          end
      end
  end.

End Load.

End Calibration.

(** * Part II: the vocabulary of the specification *)

(** ** Odometer *)

Section EncoderVocabulary.
Import Encoder.

(** The constants the constructor computes from [auto_r]; no method
    changes them. *)
Definition calibrated (auto_r : Z) (e : Encoder.t) : Prop :=
  auto_reload e = auto_r /\
  limit e = (inject_Z (auto_r + 1) / 2)%Q /\
  neg_limit e = (inject_Z (-1 * (auto_r + 1)) / 2)%Q /\
  AR1 e = auto_r + 1.

(** The same, the two limits being known by their values: what the
    constructor computes when its floats hold the half-period exactly. *)
Definition tuned (auto_r : Z) (e : Encoder.t) : Prop :=
  auto_reload e = auto_r /\
  (limit e == inject_Z (auto_r + 1) / 2)%Q /\
  (neg_limit e == inject_Z (-1 * (auto_r + 1)) / 2)%Q /\
  AR1 e = auto_r + 1.

(** The correction as section 4.1 of the specification words it, on a raw
    jump: above +limit subtract [auto_r + 1], below -limit add it, with
    limit = (auto_r + 1)/2 and both comparisons cleared of the 2. *)
Definition corrected (auto_r : Z) (jump : Z) : Z :=
  if Z.ltb (auto_r + 1) (2 * jump) then jump - (auto_r + 1)
  else if Z.ltb (2 * jump) (- (auto_r + 1)) then jump + (auto_r + 1)
  else jump.

(** Differences of consecutive samples, the first one taken from [prev]. *)
Fixpoint jumps (prev : Z) (samples : list Z) : list Z :=
  match samples with
  | [] => []
  | c :: rest => (c - prev) :: jumps c rest
  end.

(** The bound of section 3 on a stored delta: (-auto_r/2, +auto_r/2]. *)
Definition in_spec_interval (auto_r : Z) (d : Z) : Prop :=
  (- (inject_Z auto_r / 2) < inject_Z d)%Q /\ (inject_Z d <= inject_Z auto_r / 2)%Q.

(** The bound the two comparisons of [update] give:
    [-(auto_r+1)/2, +(auto_r+1)/2], both ends included. *)
Definition in_code_interval (auto_r : Z) (d : Z) : Prop :=
  (- (inject_Z (auto_r + 1) / 2) <= inject_Z d)%Q /\
  (inject_Z d <= inject_Z (auto_r + 1) / 2)%Q.

(** Every [update()] of a call saw a counter value in [0, auto_r]. *)
Definition counter_in_range (auto_r : Z) (c : call) : Prop :=
  match c with
  | Update counter => 0 <= counter <= auto_r
  | Zero => True
  end.

End EncoderVocabulary.

(** ** Drive state machine *)

Section MotorVocabulary.
Import Motor.

(** The duty commands among the events of a pass, in order. *)
Definition duties (ev : list event) : list Z :=
  flat_map (fun e => match e with set_duty d => [d] | _ => [] end) ev.

(** The calls on the odometer among the events of a pass, in order. *)
Definition odometer_calls (ev : list event) : list event :=
  filter (fun e => match e with
                   | enc_update | enc_zero | enc_get_delta | enc_get_position => true
                   | _ => false
                   end) ev.

(** The three branches of state 13. *)
Inductive phase := First | Reversing | Done.

Definition phase_of (m : Motor.t) : phase :=
  if (back m =? 0) && (turn m =? 0) && (forw m =? 0) then First
  else if back m =? 1 then Reversing
  else Done.

(** A maneuver code waits in the queue this wheel polls. *)
Definition pending (m : Motor.t) (w : world) : bool :=
  if String.eqb (set m) "R" then Queue.any (queue_r w)
  else if String.eqb (set m) "L" then Queue.any (queue_l w)
  else false.

(** The queue a wheel's task polls. *)
Definition own_queue (m : Motor.t) (w : world) : Queue.t :=
  if String.eqb (set m) "R" then queue_r w else queue_l w.

(** The position a state-13 pass reads after its own [zero()] and
    [update()]. *)
Definition turn_position (i : inputs) (m : Motor.t) : Z :=
  Encoder.get_position (Encoder.update (counter' i) (Encoder.zero (enc m))).

(** The motor object once the statements that open every pass have run
    without raising. *)
Definition measured (i : inputs) (m : Motor.t) : Motor.t :=
  let m1 := with_end (now i) (with_enc (Encoder.update (counter i) (enc m)) m) in
  with_start (now i)
    (with_v_meas
       (inject_Z (Encoder.get_delta (enc m1)) / inject_Z (now i - start m)
        * (1000 / 1440))%Q m1).

Definition measure_events : list event := [enc_update; ticks_ms; enc_get_delta].

(** The two motor tasks as main.py builds them. *)
Definition right_motor : Motor.t :=
  Motor.init (L6206.enable L6206.init) (Encoder.init 62354) "R".

Definition left_motor : Motor.t :=
  Motor.init (L6206.enable L6206.init) (Encoder.init 62354) "L".

(** A world with the given queue contents and nothing recorded yet. *)
Definition world_with (right left : list Z) : world :=
  {| queue_r := {| Queue.items := right; Queue.size := 1000 |};
     queue_l := {| Queue.items := left; Queue.size := 1000 |};
     trace := [] |}.

(** The events of one pass, when it starts from an empty trace. *)
Definition pass_events (i : inputs) (m : Motor.t) (w : world) : list event :=
  trace (snd (snd (mot_gen i (m, w)))).

(** Section 4.5 on side effects, for one pass: exactly one duty command,
    and no odometer access in states 1 to 12. *)
Definition one_duty_and_odometer_only_in_0_and_13
    (i : inputs) (m : Motor.t) (w : world) : Prop :=
  List.length (duties (pass_events i m w)) = 1%nat /\
  (1 <= state m <= 12 -> odometer_calls (pass_events i m w) = []).

End MotorVocabulary.

(** ** Line classifier *)

Section SensorVocabulary.
Import Sensor.

(** The world after [q.put(v)]. *)
Definition after_put (q : qname) (v : Z) (w : world) : world :=
  log (q_put q v (negb (Queue.full (queue q w))))
      (set_queue q (snd (Queue.put v (queue q w))) w).

(** The codes of the LEFT 1 to 5 rules and of the RIGHT 1 to 5 rules. *)
Definition left_codes : list Z := [1; 4; 5; 6; 7].

Definition right_codes : list Z := [2; 8; 9; 10; 11].

(** The fullness check of a rule: the query, and the message when the
    queue is at capacity. *)
Definition full_check (checked : qname) (msg : string) (w : world) : list event :=
  q_full checked :: (if Queue.full (queue checked w) then [print msg] else []).

(** The codes handed to [put] on queue [q], in order. *)
Definition puts_to (q : qname) (ev : list event) : list Z :=
  flat_map (fun e =>
              match e, q with
              | q_put turn_q_l v _, turn_q_l => [v]
              | q_put turn_q_r v _, turn_q_r => [v]
              | _, _ => []
              end) ev.


(** The events of one classifier pass, when it starts from an empty trace. *)
Definition classifier_events (r : readings) (w : world) : list event :=
  trace (snd (snd (sen_gen r (Sensor.init, w)))).

(** One pass hands [code], once, to each queue. *)
Definition enqueues_once (code : Z) (r : readings) (w : world) : Prop :=
  puts_to turn_q_l (classifier_events r w) = [code] /\
  puts_to turn_q_r (classifier_events r w) = [code].




End SensorVocabulary.

(** ** Orientation driver *)

(** A device whose register [k] holds the low byte of [k]. *)
Definition sample_bus : I2C.t :=
  {| I2C.regs := fun _ k =>
       match Byte.of_N (Z.to_N (k mod 256)) with Some b => b | None => "000"%byte end;
     I2C.writes := [] |}.

(** The documented tables, indexed by placement. *)
Definition remap_table (self : BNO055.t) : list Z :=
  [BNO055.AXIS_REMAP_P0 self; BNO055.AXIS_REMAP_P1 self; BNO055.AXIS_REMAP_P2 self;
   BNO055.AXIS_REMAP_P3 self; BNO055.AXIS_REMAP_P4 self; BNO055.AXIS_REMAP_P5 self;
   BNO055.AXIS_REMAP_P6 self; BNO055.AXIS_REMAP_P7 self].

Definition sign_table (self : BNO055.t) : list Z :=
  [BNO055.AXIS_REMAP_SIGN_P0 self; BNO055.AXIS_REMAP_SIGN_P1 self;
   BNO055.AXIS_REMAP_SIGN_P2 self; BNO055.AXIS_REMAP_SIGN_P3 self;
   BNO055.AXIS_REMAP_SIGN_P4 self; BNO055.AXIS_REMAP_SIGN_P5 self;
   BNO055.AXIS_REMAP_SIGN_P6 self; BNO055.AXIS_REMAP_SIGN_P7 self].

(** ** PI controller *)

(** The product section 8 gives for the integral, computed in the
    arithmetic of the controller. *)
Definition integral_product {num : Type} {arith : Number num}
    (Ki e period : num) (n : Z) : num :=
  mul (mul (mul Ki e) period) (of_int n).

(** A float that is a zero or a finite number. *)
Definition is_finite (f : spec_float) : bool :=
  match f with
  | S754_zero _ | S754_finite _ _ _ => true
  | _ => false
  end.

(** The integer 0 or a float zero of either sign. *)
Definition is_zero (x : PyNum.t) : bool :=
  match x with
  | PyNum.PyInt 0 => true
  | PyNum.PyFloat (S754_zero _) => true
  | _ => false
  end.

(** A number that [==] can find equal to the float it converts to: a
    float other than NaN, or an integer the format holds exactly. *)
(** An argument that the format takes without overflow and that [/]
    divides as it is: any float, or an integer of at most [prec] bits. *)
Definition fits (prec : Z) (x : PyNum.t) : Prop :=
  match x with
  | PyNum.PyInt z => Z.abs z <= 2 ^ prec
  | PyNum.PyFloat _ => True
  end.

(** A format in which the differences and products [update()] forms of
    such integers are converted without overflow. *)
Definition roomy (prec emax : Z) : Prop := 0 < prec /\ 2 * prec + 2 <= emax.

Definition survives_conversion (prec emax : Z) (x : PyNum.t) : Prop :=
  match x with
  | PyNum.PyFloat f => f <> S754_nan
  | PyNum.PyInt z =>
      match PyNum.float_value (PyNum.float_of_int prec emax z) with
      | Some q => (q == inject_Z z)%Q
      | None => False
      end
  end.

(** The float literal [a/b] of two small integers, as Python reads it. *)
Definition py_float (prec emax : Z) (a b : Z) : PyNum.t :=
  PyNum.py_truediv prec emax (PyNum.PyInt a) (PyNum.PyInt b).

(** [ClosedLoop(100, 0, 1, 1, 0)] after ten calls of [update()], in the
    float format [fmt]. *)
Definition ten_updates (fmt : Number PyNum.t) : ClosedLoop.t PyNum.t :=
  @ClosedLoop.updates PyNum.t fmt 10
    (@ClosedLoop.init PyNum.t fmt
       (PyNum.PyInt 100) (PyNum.PyInt 0) (PyNum.PyInt 1) (PyNum.PyInt 1) (PyNum.PyInt 0)).

(** ** Odometer: the timer behind the samples *)

Section EncoderTracking.
Import Encoder.

(** What the timer shows once the wheel has turned [p] ticks from the
    place where the counter was 0: it counts modulo [auto_r + 1]. *)
Definition counter_at (auto_r p : Z) : Z := p mod (auto_r + 1).

(** Between consecutive samples, the first taken from [prev], the wheel
    turns by less than half a counter period. *)
Fixpoint small_steps (auto_r prev : Z) (places : list Z) : Prop :=
  match places with
  | [] => True
  | p :: rest => 2 * Z.abs (p - prev) < auto_r + 1 /\ small_steps auto_r p rest
  end.

End EncoderTracking.

(** ** Drive state machine: the constants and the queues *)

Section MotorTables.
Import Motor.

(** The constants [__init__] gives every motor task; no statement of
    [mot_gen] assigns them. *)
Definition as_built (m : Motor.t) : Prop :=
  v_ref m = 15 /\ adjust1 m = 10 /\ adjust2 m = 40 /\ adjust3 m = 85 /\
  adjust4 m = 25 /\ adjust5 m = 30 /\ offset m = 3.

(** The attributes no statement of [mot_gen] assigns. *)
Definition same_constants (m m' : Motor.t) : Prop :=
  set m' = set m /\ v_ref m' = v_ref m /\ adjust1 m' = adjust1 m /\
  adjust2 m' = adjust2 m /\ adjust3 m' = adjust3 m /\ adjust4 m' = adjust4 m /\
  adjust5 m' = adjust5 m /\ offset m' = offset m /\ forw m' = forw m.

(** The wheel's task polls queue [q] in state 0. *)
Definition polls (m : Motor.t) (q : qname) : bool :=
  String.eqb (set m) (match q with turn_q_r => "R" | turn_q_l => "L" end).

(** The pass is one that takes a code from queue [q]: the tick is new,
    the state is 0, the wheel polls [q] and something waits there. *)
Definition takes (i : inputs) (m : Motor.t) (w : world) (q : qname) : bool :=
  negb (now i =? start m) && (state m =? 0) && polls m q && Queue.any (queue q w).

(** [q'] is [q] without its oldest element [v]. *)
Definition without_head (v : Z) (q q' : Queue.t) : Prop :=
  Queue.items q = v :: Queue.items q' /\ Queue.size q' = Queue.size q.

(** The driver object after the duty commands [ds], in order. *)
Definition driven (ds : list Z) (mot : L6206.t) : L6206.t :=
  fold_left (fun acc d => L6206.set_duty d acc) ds mot.

(** The duty each wheel commands for a maneuver code from 1 to 12 with
    the constants of [__init__], as a table. *)
Definition right_duty (code : Z) : Z :=
  match code with
  | 1 => 25 | 2 => 5 | 3 => 15 | 4 => 55 | 5 => 100 | 6 => 40 | 7 => 40
  | 8 => -22 | 9 => -67 | 10 => -7 | 11 => -12 | 12 => 0 | _ => 0
  end.

Definition left_duty (code : Z) : Z :=
  match code with
  | 1 => 5 | 2 => 25 | 3 => 15 | 4 => -25 | 5 => -70 | 6 => -10 | 7 => -10
  | 8 => 55 | 9 => 100 | 10 => 40 | 11 => 45 | 12 => 0 | _ => 0
  end.

Definition wheel_duty (m : Motor.t) (code : Z) : Z :=
  if String.eqb (set m) "R" then right_duty code else left_duty code.

(** The scripted turn has been through its reversing branch. *)
Definition turned (m : Motor.t) : Prop := turn m = 1 /\ back m = 0.

(** A task with the constants of [__init__] whose driver holds a pulse
    width within 0 to 100 percent. *)
Definition within_limits (m : Motor.t) : Prop :=
  as_built m /\ 0 <= L6206.PWM_1 (mot m) <= 100.

End MotorTables.

(** ** Line classifier and switch monitor: what a run publishes *)

Section ProducerVocabulary.

(** The codes [sen_gen] can hand to the queues. *)
Definition live_codes : list Z := [1; 2; 3; 4; 5; 6; 8; 9].

(** Readings with the named channels at 3000 and the others at 100. *)
Definition lit (s11 s9 s7 s5 s3 s1 : bool) : Sensor.readings :=
  let level (b : bool) := if b then 3000 else 100 in
  {| Sensor.S11 := level s11; Sensor.S9 := level s9; Sensor.S7 := level s7;
     Sensor.S5 := level s5; Sensor.S3 := level s3; Sensor.S1 := level s1 |}.

(** Readings that make [sen_gen] publish each of the live codes. *)
Definition readings_for (code : Z) : Sensor.readings :=
  match code with
  | 1 => lit false false false true true false
  | 2 => lit false true true false false false
  | 4 => lit false false false false true true
  | 5 => lit false false false false false true
  | 6 => lit false true true true false false
  | 8 => lit true true false false false false
  | 9 => lit true false false false false false
  | _ => lit false false true true false false
  end.

(** The place of a rule in the chain. *)
Definition rule_index (k : Sensor.rule) : nat :=
  match k with
  | Sensor.GO_STRAIGHT => 0
  | Sensor.LEFT_1 => 1 | Sensor.LEFT_2 => 2 | Sensor.LEFT_3 => 3
  | Sensor.LEFT_4 => 4 | Sensor.LEFT_5 => 5
  | Sensor.RIGHT_1 => 6 | Sensor.RIGHT_2 => 7 | Sensor.RIGHT_3 => 8
  | Sensor.RIGHT_4 => 9 | Sensor.RIGHT_5 => 10
  end.

(** Every channel returns the same value at every rule of the pass. *)
Definition steady (seen : Sensor.rule -> Sensor.readings) : Prop :=
  forall k, seen k = seen Sensor.GO_STRAIGHT.

(** Readings that are [early] until rule [k] is reached and [late] when
    its condition is evaluated. *)
Definition turning (k : Sensor.rule) (early late : Sensor.readings)
    : Sensor.rule -> Sensor.readings :=
  fun k' => if (rule_index k' <? rule_index k)%nat then early else late.

(** What a pass of the classifier that publishes [code] from the world
    [w] comes to: the task as constructed, 0 yielded, the two puts at the
    end of the events and no duty command. *)
Definition publishes (code : Z) (w : world) (out : res Z * (Sensor.t * world)) : Prop :=
  exists checks w',
    out = (Ok 0, (Sensor.init, w')) /\
    trace w' = trace w ++ checks
                 ++ [q_put turn_q_l code (negb (Queue.full (queue_l w)));
                     q_put turn_q_r code (negb (Queue.full (queue_r w)))] /\
    queue_l w' = snd (Queue.put code (queue_l w)) /\
    queue_r w' = snd (Queue.put code (queue_r w)) /\
    (forall q, puts_to q checks = []) /\
    duties checks = [].

(** The [yield(self.state)] that ends a pass. *)
Definition yield_state : unit -> M Sensor.t Z :=
  fun _ => bind self (fun s => ret (Sensor.state s)).

(** The code a pass with fresh reads hands to the left and to the right
    queue, starting from empty queues. *)
Definition published (seen : Sensor.rule -> Sensor.readings) : list Z * list Z :=
  let ev := trace (snd (snd (Sensor.sen_gen_reads seen (Sensor.init, world_with [] [])))) in
  (puts_to turn_q_l ev, puts_to turn_q_r ev).

(** Successive passes of a generator task, one per input; the run stops
    at the first pass that raises. *)
Fixpoint passes {O I : Type} (gen : I -> M O Z) (inputs : list I) (s : O * world)
    : res unit * (O * world) :=
  match inputs with
  | [] => (Ok tt, s)
  | i :: rest =>
      match gen i s with
      | (Ok _, s') => passes gen rest s'
      | (Raise e, s') => (Raise e, s')
      end
  end.

(** One of the two switches reads 1. *)
Definition pressed (p : Switch.pins) : bool :=
  (Switch.left p =? 1) || (Switch.right p =? 1).

(** The world once the switch monitor has published: the put on the
    left queue, the message, the put on the right queue. *)
Definition triggered (w : world) : world :=
  after_put turn_q_r 13 (log (print "triggered") (after_put turn_q_l 13 w)).

End ProducerVocabulary.

(** ** Motor driver and user button *)

(** The duty of the last [set_duty] among the calls, [d] when there is
    none. *)
Definition last_duty (cs : list L6206.call) (d : Z) : Z :=
  fold_left (fun acc c => match c with L6206.SetDuty v => v | _ => acc end) cs d.

(** What the last [enable] or [disable] among the calls leaves on the
    enable pin, [en] when there is none. *)
Definition last_enable (cs : list L6206.call) (en : bool) : bool :=
  fold_left (fun acc c =>
               match c with
               | L6206.Enable => true
               | L6206.Disable => false
               | L6206.SetDuty _ => acc
               end) cs en.

(** A value of a dict held as an association list. *)
Fixpoint lookup {A : Type} (key : string) (d : list (string * A)) : option A :=
  match d with
  | [] => None
  | (k, v) :: rest => if String.eqb k key then Some v else lookup key rest
  end.

(** ** Orientation driver: the calls that write *)

(** The calls of the driver that write to the device. *)
Inductive command :=
| SetOperationMode (mode : Z)
| RemapAxes (placement : Z)
| WriteCalibrationCoefficients (coefficients : list Z).

(** The bus after a call, whether it returned or raised. *)
Definition perform (self : BNO055.t) (bus : I2C.t) (c : command) : I2C.t :=
  match c with
  | SetOperationMode mode => snd (BNO055.set_operation_mode self mode bus)
  | RemapAxes placement => snd (BNO055.remap_axes self placement bus)
  | WriteCalibrationCoefficients cs =>
      snd (BNO055.write_calibration_coefficients self cs bus)
  end.

(** The registers the driver writes: the mode register, the two axis
    registers and the 22 calibration registers. *)
Definition written (k : Z) : Prop :=
  k = 0x3D \/ k = 0x41 \/ k = 0x42 \/ 0x55 <= k <= 0x6A.

(** A write transaction of the driver: to device 0x28, one byte to the
    mode register or to an axis register, or 22 bytes from register 0x55. *)
Definition driver_write (wr : I2C.write) : Prop :=
  let '(a, k, buf) := wr in
  a = 0x28 /\
  ((k = 0x3D \/ k = 0x41 \/ k = 0x42) /\ List.length buf = 1%nat
   \/ k = 0x55 /\ List.length buf = 22%nat).

(** The number [x] is the float that stands for [raw / 16], exactly. *)
Definition is_sixteenth (x : PyNum.t) (raw : Z) : Prop :=
  exists q, PyNum.value x = Some q /\ (q == inject_Z raw / 16)%Q.

(** The halfword the device holds in registers [k] and [k + 1], as
    [struct.unpack] reads it with code [h]. *)
Definition halfword (bus : I2C.t) (k : Z) : Z :=
  BNO055.int16_of_bytes (I2C.regs bus 0x28 k) (I2C.regs bus 0x28 (k + 1)).

(** ** Calibration file *)

(** Every character of [s] passes [p]. *)
Fixpoint every (p : ascii -> bool) (s : string) : bool :=
  match s with
  | EmptyString => true
  | String c rest => p c && every p rest
  end.

(** Neither white space nor a comma. *)
Definition plain (c : ascii) : bool :=
  negb (PyStr.isspace c) && negb (Ascii.eqb c ",").


(** A value that fits one byte. *)
Definition one_byte (c : Z) : Prop := 0 <= c <= 255.

(** A machine with every register at zero, a bus whose transactions
    complete, an empty disk that takes any file, and nothing on the
    console. *)
Definition blank_machine : Calibration.machine :=
  {| Calibration.bus := {| I2C.regs := fun _ _ => x00; I2C.writes := [] |};
     Calibration.link := true;
     Calibration.disk := {| Files.content := fun _ => None;
                            Files.writable := fun _ => true |};
     Calibration.console := [] |}.

(** A reader of hexadecimal literals, for an [int] that reads what [hex]
    writes. *)
Definition int_of_hex (s : string) : BNO055.res Z := BNO055.Ok (HexString.to_Z s).

(** ** Proof steps used more than once *)

Ltac task_cbn :=
  cbn -[Encoder.update Encoder.zero Encoder.get_position Encoder.get_delta
        L6206.set_duty Z.add Z.sub Z.mul Z.abs Qdiv Qmult inject_Z].

Ltac string_facts :=
  repeat match goal with
         | H : String.eqb _ _ = false |- _ => apply String.eqb_neq in H
         | H : String.eqb _ _ = true |- _ => apply String.eqb_eq in H
         end.

(** Closes [exists m' w' ev, run = (Ok tt, (m', w')) /\ trace w' = trace w ++ ev /\ ...]
    once the run has been computed. *)
Ltac effects_done :=
  eexists _, _, _; split; [reflexivity|]; split;
  [cbn [trace log set_queue]; rewrite <- ?app_assoc;
   first [reflexivity | symmetry; apply app_nil_r]|];
  cbn; repeat split; intros; try lia; try reflexivity;
  try solve [exfalso; string_facts; intuition (try lia; try congruence)].

(** Settles every comparison of a reading with a threshold that the
    hypotheses decide. *)
Ltac decide_readings :=
  rewrite ?Z.gtb_ltb;
  repeat match goal with
         | |- context [?a <? ?b] =>
             first [ replace (a <? b) with true by (symmetry; apply Z.ltb_lt; lia)
                   | replace (a <? b) with false by (symmetry; apply Z.ltb_ge; lia) ]
         end;
  cbn [andb].

(** ** Proof steps of the drive state machine *)

Ltac bool_facts :=
  repeat match goal with
         | H : andb _ _ = true |- _ => apply andb_true_iff in H; destruct H
         | H : Z.eqb _ _ = true |- _ => apply Z.eqb_eq in H
         | H : Z.eqb _ _ = false |- _ => apply Z.eqb_neq in H
         | H : Z.ltb _ _ = true |- _ => apply Z.ltb_lt in H
         | H : Z.ltb _ _ = false |- _ => apply Z.ltb_ge in H
         end.

(** Settles which wheel the task drives from the comparisons of [set]
    already decided. *)
Ltac settle_wheel :=
  repeat match goal with
         | H : String.eqb ?a ?b = false |- context [String.eqb ?a ?b] => rewrite H
         | H : String.eqb ?a ?b = true |- context [String.eqb ?a ?b] => rewrite H
         | H : String.eqb ?a ?b = true |- context [String.eqb ?a _] =>
             let E := fresh "E" in
             pose proof H as E; apply String.eqb_eq in E; rewrite E
         end;
  cbn [String.eqb Ascii.eqb Bool.eqb andb].

(** Closes the summary of one dispatch once the run has been computed. *)
Ltac frame_done :=
  cbv beta; eexists _, _, _; split; [reflexivity|]; split;
  [cbn [trace log set_queue]; rewrite <- ?app_assoc;
   first [reflexivity | symmetry; apply app_nil_r]|];
  split; [repeat split|]; split; [reflexivity|]; split;
  [intros q; destruct q; reflexivity|]; split;
  [intros q; unfold polls, Queue.any;
   destruct q; cbn [queue log set_queue queue_r queue_l Z.eqb andb];
   settle_wheel;
   repeat match goal with
          | H : Queue.items _ = _ |- _ => rewrite H
          end;
   first [ reflexivity
         | split; [split; [assumption | reflexivity] | reflexivity] ]
  |]; split;
  [intros (H1 & H2 & H3 & H4 & H5 & H6 & H7);
   cbn [duties flat_map app]; repeat constructor; lia
  |]; split;
  [intros Hr Hw (H1 & H2 & H3 & H4 & H5 & H6 & H7);
   first [ lia
         | destruct Hw as [Hw|Hw]; unfold wheel_duty; rewrite Hw in *;
           cbn [String.eqb Ascii.eqb Bool.eqb] in *;
           first [ discriminate
                 | split; [cbn; f_equal; lia | reflexivity] ] ]
  |]; split;
  [intros (Ht & Hb); bool_facts;
   first [ lia
         | split; [split; assumption|]; intros H13;
           first [ discriminate H13 | lia | split; reflexivity ] ]
  |intros H13 Hb;
   first [ discriminate H13
         | bool_facts;
           first [ lia
                 | split; [reflexivity|]; split; [reflexivity|];
                   split; intros Hp;
                   first [ lia | repeat split; first [reflexivity | assumption] ] ] ] ].

(** * Part III: the properties *)

(** ** Odometer *)

(** ** Rounding of Python's floats *)

Section FloatRounding.

Variables prec emax : Z.

Lemma digits2_bounds (p : positive) :
  2 ^ (Z.pos (digits2_pos p) - 1) <= Z.pos p < 2 ^ Z.pos (digits2_pos p).
Proof.
  induction p as [p IH|p IH|]; cbn [digits2_pos].
  - rewrite Pos2Z.inj_succ. change (Z.pos p~1) with (2 * Z.pos p + 1).
    replace (Z.succ (Z.pos (digits2_pos p)) - 1) with (Z.succ (Z.pos (digits2_pos p) - 1)) by lia.
    rewrite !Z.pow_succ_r by lia. lia.
  - rewrite Pos2Z.inj_succ. change (Z.pos p~0) with (2 * Z.pos p).
    replace (Z.succ (Z.pos (digits2_pos p)) - 1) with (Z.succ (Z.pos (digits2_pos p) - 1)) by lia.
    rewrite !Z.pow_succ_r by lia. lia.
  - cbn. lia.
Qed.

Lemma digits2_iter_xO (p k : positive) :
  digits2_pos (Pos.iter xO p k) = (digits2_pos p + k)%positive.
Proof.
  induction k as [|k IH] using Pos.peano_ind.
  - cbn. rewrite Pos.add_1_r. reflexivity.
  - rewrite Pos.iter_succ. cbn [digits2_pos]. rewrite IH, Pos.add_succ_r. reflexivity.
Qed.

Lemma iter_xO_value (p k : positive) :
  Z.pos (Pos.iter xO p k) = Z.pos p * 2 ^ Z.pos k.
Proof.
  induction k as [|k IH] using Pos.peano_ind.
  - cbn. lia.
  - rewrite Pos.iter_succ.
    change (Z.pos (Pos.iter xO p k)~0) with (2 * Z.pos (Pos.iter xO p k)).
    rewrite IH, Pos2Z.inj_succ, Z.pow_succ_r by lia. lia.
Qed.

(** A mantissa of full width at an exponent in range is kept as it is. *)
Lemma binary_round_aux_canonical s m e :
  Z.pos (digits2_pos m) = prec ->
  3 - emax - prec <= e <= emax - prec ->
  binary_round_aux prec emax s (Z.pos m) e loc_Exact = S754_finite s m e.
Proof.
  intros Hd He. unfold binary_round_aux, shr_fexp.
  cbn [Zdigits2 shr_record_of_loc]. rewrite Hd.
  replace (fexp prec emax (prec + e) - e) with 0 by (unfold fexp, emin; lia).
  cbn [shr shr_m loc_of_shr_record round_nearest_even Zdigits2 shr_record_of_loc].
  rewrite Hd.
  replace (fexp prec emax (prec + e) - e) with 0 by (unfold fexp, emin; lia).
  cbn [shr shr_m].
  destruct (Z.leb_spec e (emax - prec)); [reflexivity | lia].
Qed.

(** Twice such a mantissa is shifted back by one place, exactly. *)
Lemma binary_round_aux_doubled s m e :
  Z.pos (digits2_pos m) = prec ->
  3 - emax - prec <= e + 1 <= emax - prec ->
  binary_round_aux prec emax s (Z.pos m~0) e loc_Exact = S754_finite s m (e + 1).
Proof.
  intros Hd He. unfold binary_round_aux, shr_fexp.
  cbn [Zdigits2 digits2_pos shr_record_of_loc]. rewrite Pos2Z.inj_succ, Hd.
  replace (fexp prec emax (Z.succ prec + e) - e) with 1 by (unfold fexp, emin; lia).
  cbn [shr iter_pos shr_1 shr_m orb loc_of_shr_record round_nearest_even
       Zdigits2 shr_record_of_loc].
  rewrite Hd.
  replace (fexp prec emax (prec + (e + 1)) - (e + 1)) with 0 by (unfold fexp, emin; lia).
  cbn [shr shr_m].
  destruct (Z.leb_spec (e + 1) (emax - prec)); [reflexivity | lia].
Qed.

Lemma div_eucl_exact (a b : Z) : 0 < b -> Z.div_eucl (a * b) b = (a, 0).
Proof.
  intros Hb.
  pose proof (Z.div_mul a b ltac:(lia)) as Hq.
  pose proof (Z.mod_mul a b ltac:(lia)) as Hr.
  unfold Z.div, Z.modulo in Hq, Hr.
  destruct (Z.div_eucl (a * b) b) as [q r]. cbn in Hq, Hr. subst. reflexivity.
Qed.

End FloatRounding.

Section HalfQuotient.

Variables prec emax : Z.
Hypothesis Hprec : 2 < prec.
Hypothesis Hemax : prec < emax.

Lemma digits2_below (p : positive) : Z.pos p < 2 ^ prec -> Z.pos (digits2_pos p) <= prec.
Proof.
  intros Hp. pose proof (digits2_bounds p) as [Hlo _].
  destruct (Z.le_gt_cases (Z.pos (digits2_pos p)) prec) as [H|H]; [exact H|].
  exfalso.
  assert (2 ^ prec <= 2 ^ (Z.pos (digits2_pos p) - 1)) by (apply Z.pow_le_mono_r; lia).
  lia.
Qed.

(** A mantissa shifted up to the full width. *)
Lemma widened (p : positive) :
  Z.pos (digits2_pos p) <= prec ->
  exists m, Z.pos m = Z.pos p * 2 ^ (prec - Z.pos (digits2_pos p)) /\
            Z.pos (digits2_pos m) = prec.
Proof.
  intros Hd. destruct (prec - Z.pos (digits2_pos p)) as [|k|k] eqn:Ek; try lia.
  - exists p. split; lia.
  - exists (Pos.iter xO p k). rewrite iter_xO_value, digits2_iter_xO, Pos2Z.inj_add.
    split; lia.
Qed.

(** An integer of fewer than [prec] bits, halved: the quotient is a
    float, and it is exact. *)
Lemma half_quotient (s : bool) (p : positive) :
  Z.pos p < 2 ^ prec ->
  exists m e,
    SFdiv prec emax (S754_finite s p 0) (S754_finite false 2 0) = S754_finite s m e /\
    e < 0 /\ Z.pos m = Z.pos p * 2 ^ (- e - 1).
Proof.
  intros Hp. pose proof (digits2_below p Hp) as Hd.
  destruct (widened p Hd) as (m & Hm & Hdm).
  exists m, (Z.pos (digits2_pos p) - 1 - prec).
  split; [|split; [lia | rewrite Hm; f_equal; f_equal; lia]].
  unfold SFdiv, SFdiv_core_binary. cbn [Zdigits2 digits2_pos Pos.succ].
  replace (Z.min (fexp prec emax (Z.pos (digits2_pos p) + 0 - (2 + 0))) (0 - 0))
    with (Z.pos (digits2_pos p) - 2 - prec) by (unfold fexp, emin; lia).
  replace (0 - 0 - (Z.pos (digits2_pos p) - 2 - prec))
    with (prec + 2 - Z.pos (digits2_pos p)) by lia.
  destruct (prec + 2 - Z.pos (digits2_pos p)) as [|k|k] eqn:Ek; try lia.
  rewrite Z.shiftl_mul_pow2 by lia.
  replace (Z.pos p * 2 ^ Z.pos k) with (Z.pos m~0 * 2).
  2: { change (Z.pos m~0) with (2 * Z.pos m). rewrite Hm.
       replace (Z.pos k) with (Z.succ (Z.succ (prec - Z.pos (digits2_pos p)))) by lia.
       rewrite !Z.pow_succ_r by lia. lia. }
  rewrite div_eucl_exact by lia.
  change (new_location 2 0) with loc_Exact.
  rewrite binary_round_aux_doubled by (try assumption; lia).
  rewrite Bool.xorb_false_r. f_equal. lia.
Qed.

Lemma half_value (s : bool) (m : positive) (e : Z) (n : Z) :
  e < 0 ->
  cond_Zopp s (Z.pos m) = n * 2 ^ (- e - 1) ->
  (inject_Z (cond_Zopp s (Z.pos m)) * Qpower 2 e == inject_Z n / 2)%Q.
Proof.
  intros He Hv. rewrite Hv, inject_Z_mult, Zpower_Qpower by lia.
  change (inject_Z 2) with 2%Q.
  rewrite <- Qmult_assoc, <- Qpower_plus by discriminate.
  replace (- e - 1 + e) with (-1) by lia.
  reflexivity.
Qed.

(** The float limits of a period of fewer than [prec] bits are the exact
    halves. *)
Lemma float_limits_exact (auto_r : Z) :
  0 <= auto_r -> auto_r + 1 < 2 ^ prec ->
  exists l nl,
    PyNum.float_value (FloatEncoder.limit prec emax auto_r) = Some l /\
    PyNum.float_value (FloatEncoder.neg_limit prec emax auto_r) = Some nl /\
    (l == inject_Z (auto_r + 1) / 2)%Q /\
    (nl == inject_Z (-1 * (auto_r + 1)) / 2)%Q.
Proof.
  intros Hr Hb. unfold FloatEncoder.limit, FloatEncoder.neg_limit, PyNum.quotient.
  destruct (auto_r + 1) as [|p|p] eqn:Ep; try lia.
  change (-1 * Z.pos p) with (Z.neg p). cbn [PyNum.whole].
  destruct (half_quotient false p Hb) as (m & e & Hq & He & Hm).
  destruct (half_quotient true p Hb) as (m' & e' & Hq' & He' & Hm').
  rewrite Hq, Hq'. cbn [PyNum.float_value].
  eexists _, _. split; [reflexivity|]. split; [reflexivity|]. split.
  - apply half_value; [exact He | cbn [cond_Zopp]; exact Hm].
  - apply half_value; [exact He'|].
    unfold cond_Zopp. change (Z.neg p) with (- Z.pos p). rewrite Hm'. ring.
Qed.

End HalfQuotient.

Section EncoderFacts.
Import Encoder.

Lemma Qlt_bool_iff x y : Qlt_bool x y = true <-> (x < y)%Q.
Proof.
  unfold Qlt_bool. rewrite negb_true_iff.
  split.
  - intros H. apply Qnot_le_lt. intros Hle. apply Qle_bool_iff in Hle. congruence.
  - intros H. destruct (Qle_bool y x) eqn:E; [|reflexivity].
    apply Qle_bool_iff in E. exfalso. eapply Qlt_not_le; eauto.
Qed.

Lemma Qlt_bool_false_iff x y : Qlt_bool x y = false <-> (y <= x)%Q.
Proof.
  unfold Qlt_bool. rewrite negb_false_iff. apply Qle_bool_iff.
Qed.

(** Comparisons with a half, cleared of the denominator. *)
Lemma half_lt_iff (a d : Z) : (inject_Z a / 2 < inject_Z d)%Q <-> a < 2 * d.
Proof.
  unfold Qlt, Qdiv, Qmult, Qinv, inject_Z. cbn -[Z.mul Z.add Z.sub Z.opp]. lia.
Qed.

Lemma lt_half_iff (a d : Z) : (inject_Z d < inject_Z a / 2)%Q <-> 2 * d < a.
Proof.
  unfold Qlt, Qdiv, Qmult, Qinv, inject_Z. cbn -[Z.mul Z.add Z.sub Z.opp]. lia.
Qed.


Lemma calibrated_init auto_r : calibrated auto_r (init auto_r).
Proof. repeat split. Qed.

Lemma calibrated_update auto_r c e :
  calibrated auto_r e -> calibrated auto_r (update c e).
Proof. intros (H1 & H2 & H3 & H4). repeat split; assumption. Qed.

Lemma calibrated_zero auto_r e :
  calibrated auto_r e -> calibrated auto_r (zero e).
Proof. intros (H1 & H2 & H3 & H4). repeat split; assumption. Qed.

Lemma calibrated_run auto_r cs : forall e,
  calibrated auto_r e -> calibrated auto_r (run e cs).
Proof.
  induction cs as [|c cs IH]; intros e He; [exact He|].
  apply IH. destruct c; [apply calibrated_update | apply calibrated_zero]; exact He.
Qed.

(** The stored delta is the corrected raw jump. *)
Lemma update_delta auto_r c e :
  calibrated auto_r e ->
  get_delta (update c e) = corrected auto_r (c - old_count e).
Proof.
  intros (_ & Hl & Hn & Ha). unfold get_delta, update, corrected. cbn [delta].
  rewrite Hl, Hn, Ha.
  destruct (Qlt_bool _ (inject_Z (c - old_count e))) eqn:E1.
  - apply Qlt_bool_iff, half_lt_iff in E1.
    destruct (Z.ltb_spec (auto_r + 1) (2 * (c - old_count e))); [reflexivity | lia].
  - apply Qlt_bool_false_iff in E1.
    destruct (Z.ltb_spec (auto_r + 1) (2 * (c - old_count e))) as [Hlt|Hge].
    + apply half_lt_iff in Hlt. exfalso. eapply Qlt_not_le; eauto.
    + destruct (Qlt_bool (inject_Z (c - old_count e)) _) eqn:E2.
      * apply Qlt_bool_iff, lt_half_iff in E2.
        destruct (Z.ltb_spec (2 * (c - old_count e)) (- (auto_r + 1))); [reflexivity | lia].
      * apply Qlt_bool_false_iff in E2.
        destruct (Z.ltb_spec (2 * (c - old_count e)) (- (auto_r + 1))) as [Hlt|Hge'];
          [|reflexivity].
        exfalso. eapply Qlt_not_le; [|exact E2]. apply lt_half_iff. lia.
Qed.

Lemma update_position c e :
  get_position (update c e) = get_position e + get_delta (update c e).
Proof. reflexivity. Qed.


Lemma deltas_corrected auto_r samples : forall e,
  calibrated auto_r e ->
  deltas e samples = map (corrected auto_r) (jumps (old_count e) samples).
Proof.
  induction samples as [|c rest IH]; intros e He; [reflexivity|].
  cbn [deltas jumps map].
  rewrite (update_delta auto_r) by exact He.
  rewrite (IH (update c e)) by (apply calibrated_update; exact He).
  reflexivity.
Qed.

Lemma calibrated_tuned auto_r e : calibrated auto_r e -> tuned auto_r e.
Proof.
  intros (H1 & H2 & H3 & H4). repeat split; try assumption.
  - rewrite H2. reflexivity.
  - rewrite H3. reflexivity.
Qed.

Lemma tuned_update auto_r c e : tuned auto_r e -> tuned auto_r (update c e).
Proof. intros (H1 & H2 & H3 & H4). repeat split; assumption. Qed.

Lemma tuned_zero auto_r e : tuned auto_r e -> tuned auto_r (zero e).
Proof. intros (H1 & H2 & H3 & H4). repeat split; assumption. Qed.

Lemma tuned_run auto_r cs : forall e, tuned auto_r e -> tuned auto_r (run e cs).
Proof.
  induction cs as [|c cs IH]; intros e He; [exact He|].
  apply IH. destruct c; [apply tuned_update | apply tuned_zero]; exact He.
Qed.

Lemma Qlt_bool_proper x x' y y' :
  (x == x')%Q -> (y == y')%Q -> Qlt_bool x y = Qlt_bool x' y'.
Proof. intros Hx Hy. unfold Qlt_bool. rewrite Hx, Hy. reflexivity. Qed.

(** The stored delta is the corrected raw jump, the limits being known
    by their values. *)
Lemma update_delta_tuned auto_r c e :
  tuned auto_r e ->
  get_delta (update c e) = corrected auto_r (c - old_count e).
Proof.
  intros (_ & Hl & Hn & Ha). unfold get_delta, update, corrected. cbn [delta].
  rewrite (Qlt_bool_proper _ _ _ _ Hl (Qeq_refl _)),
          (Qlt_bool_proper _ _ _ _ (Qeq_refl _) Hn), Ha.
  destruct (Qlt_bool _ (inject_Z (c - old_count e))) eqn:E1.
  - apply Qlt_bool_iff, half_lt_iff in E1.
    destruct (Z.ltb_spec (auto_r + 1) (2 * (c - old_count e))); [reflexivity | lia].
  - apply Qlt_bool_false_iff in E1.
    destruct (Z.ltb_spec (auto_r + 1) (2 * (c - old_count e))) as [Hlt|Hge].
    + apply half_lt_iff in Hlt. exfalso. eapply Qlt_not_le; eauto.
    + destruct (Qlt_bool (inject_Z (c - old_count e)) _) eqn:E2.
      * apply Qlt_bool_iff, lt_half_iff in E2.
        destruct (Z.ltb_spec (2 * (c - old_count e)) (- (auto_r + 1))); [reflexivity | lia].
      * apply Qlt_bool_false_iff in E2.
        destruct (Z.ltb_spec (2 * (c - old_count e)) (- (auto_r + 1))) as [Hlt|Hge'];
          [|reflexivity].
        exfalso. eapply Qlt_not_le; [|exact E2]. apply lt_half_iff. lia.
Qed.


(** The constructor, run with floats that hold the half-period exactly,
    builds an encoder with the limits of the specification. *)
Lemma float_init_tuned prec emax auto_r :
  2 < prec < emax -> 0 <= auto_r -> auto_r + 1 < 2 ^ prec ->
  exists e0,
    FloatEncoder.init prec emax auto_r = Some e0 /\
    tuned auto_r e0 /\ old_count e0 = 0 /\ get_position e0 = 0.
Proof.
  intros [Hp He] Hr Hb.
  destruct (float_limits_exact prec emax Hp He auto_r Hr Hb)
    as (l & nl & Hl & Hn & Hlv & Hnv).
  unfold FloatEncoder.init. rewrite Hl, Hn.
  eexists. split; [reflexivity|]. repeat split; assumption.
Qed.





Lemma in_code_interval_iff auto_r d :
  in_code_interval auto_r d <-> - (auto_r + 1) <= 2 * d <= auto_r + 1.
Proof.
  unfold in_code_interval, Qle, Qdiv, Qmult, Qinv, Qopp, inject_Z. cbn -[Z.mul Z.add Z.sub Z.opp]. lia.
Qed.

Lemma corrected_bound auto_r jump :
  0 <= auto_r -> - auto_r <= jump <= auto_r ->
  - (auto_r + 1) <= 2 * corrected auto_r jump <= auto_r + 1.
Proof.
  intros Hr Hj. unfold corrected.
  destruct (Z.ltb_spec (auto_r + 1) (2 * jump)); [lia|].
  destruct (Z.ltb_spec (2 * jump) (- (auto_r + 1))); lia.
Qed.

Lemma corrected_congruent auto_r jump :
  (corrected auto_r jump - jump) mod (auto_r + 1) = 0.
Proof.
  unfold corrected.
  destruct (Z.ltb_spec (auto_r + 1) (2 * jump)).
  - replace (jump - (auto_r + 1) - jump) with (-1 * (auto_r + 1)) by lia.
    apply Z_mod_mult.
  - destruct (Z.ltb_spec (2 * jump) (- (auto_r + 1))).
    + replace (jump + (auto_r + 1) - jump) with (1 * (auto_r + 1)) by lia.
      apply Z_mod_mult.
    + rewrite Z.sub_diag. apply Zmod_0_l.
Qed.

Lemma old_count_in_range auto_r cs : forall e,
  0 <= auto_r -> 0 <= old_count e <= auto_r ->
  Forall (counter_in_range auto_r) cs ->
  0 <= old_count (run e cs) <= auto_r.
Proof.
  induction cs as [|c cs IH]; intros e Hr He Hcs; [exact He|].
  inversion Hcs as [|? ? Hc Hrest]; subst.
  apply IH; [exact Hr | | exact Hrest].
  destruct c as [counter|]; simpl in *; lia.
Qed.

(** C2, counterexample.  The period 62354 of main.py, a fresh encoder, the
    counter read as 31177 and then as 0: the second update stores
    -31177 = -auto_r/2, which the interval (-auto_r/2, +auto_r/2] leaves
    out.  And with the odd period 65535 a first sample of 32768 = limit is
    stored as it is, above auto_r/2. *)
Lemma encoder_delta_outside_spec_interval :
  get_delta (updates (init 62354) [31177]) = 31177 /\
  get_delta (updates (init 62354) [31177; 0]) = -31177 /\
  ~ in_spec_interval 62354 (get_delta (updates (init 62354) [31177; 0])) /\
  get_delta (updates (init 65535) [32768]) = 32768 /\
  ~ in_spec_interval 65535 (get_delta (updates (init 65535) [32768])).
Proof.
  split; [reflexivity|]. split; [reflexivity|]. split.
  - intros [Hlo _]. revert Hlo. vm_compute. discriminate.
  - split; [reflexivity|].
    intros [_ Hhi]. revert Hhi. vm_compute. intros H. apply H. reflexivity.
Qed.

(** C2, amended.  For a float format of [prec] bits, a period [auto_r]
    with [auto_r + 1] below 2^prec and every state reached from the
    constructor by [update()] and [zero()] with counter values in
    [0, auto_r], the delta an [update()] stores lies in the closed interval
    [-(auto_r+1)/2, +(auto_r+1)/2], which for an even period is
    [-auto_r/2, +auto_r/2]; and it differs from the raw difference of the
    two samples by a multiple of [auto_r + 1]. *)
Theorem encoder_delta_bounded
    (prec emax auto_r : Z) (history : list call) (c : Z) :
  2 < prec < emax ->
  0 <= auto_r -> auto_r + 1 < 2 ^ prec ->
  Forall (counter_in_range auto_r) history ->
  0 <= c <= auto_r ->
  exists e0,
    FloatEncoder.init prec emax auto_r = Some e0 /\
    let e := run e0 history in
    in_code_interval auto_r (get_delta (update c e)) /\
    (Z.even auto_r = true -> - auto_r <= 2 * get_delta (update c e) <= auto_r) /\
    (get_delta (update c e) - (c - old_count e)) mod (auto_r + 1) = 0.
Proof.
  intros Hfmt Hr Hb Hh Hc.
  destruct (float_init_tuned prec emax auto_r Hfmt Hr Hb) as (e0 & Hinit & H0 & Hold & _).
  exists e0. split; [exact Hinit|]. intros e.
  assert (He : tuned auto_r e) by (apply tuned_run, H0).
  assert (Ho : 0 <= old_count e <= auto_r).
  { apply old_count_in_range; [exact Hr | rewrite Hold; lia | exact Hh]. }
  rewrite (update_delta_tuned auto_r) by exact He.
  pose proof (corrected_bound auto_r (c - old_count e) Hr) as Hcb.
  split; [|split].
  - apply in_code_interval_iff, Hcb. lia.
  - intros Hev. apply Z.even_spec in Hev. destruct Hev as [k Hk]. lia.
  - apply corrected_congruent.
Qed.

(** C2, amended, in 64-bit floats at the period of main.py: after an
    update, a [zero()] and a sample of 31177, a sample of 0 stores
    -31177 = -auto_r/2. *)
Lemma encoder_delta_bounded_witness :
  exists e0,
    FloatEncoder.init 53 1024 62354 = Some e0 /\
    in_code_interval 62354
      (get_delta (update 0 (run e0 [Update 40; Zero; Update 31177]))) /\
    - 62354 <= 2 * get_delta (update 0 (run e0 [Update 40; Zero; Update 31177]))
      <= 62354.
Proof.
  destruct (encoder_delta_bounded 53 1024 62354 [Update 40; Zero; Update 31177] 0)
    as (e0 & Hinit & Hin & Hev & _).
  - lia.
  - lia.
  - vm_compute. reflexivity.
  - repeat constructor; simpl; lia.
  - lia.
  - exists e0. split; [exact Hinit|]. split; [exact Hin | apply Hev; reflexivity].
Defined.

End EncoderFacts.

(** ** Drive state machine *)

Section MotorFacts.
Import Motor.

(** The statements that open a pass: they raise on a zero elapsed time,
    after the encoder update and the clock reading. *)
Lemma measure_spec i m w :
  Motor.measure i (m, w) =
  let m1 := Motor.with_end (Motor.now i)
              (Motor.with_enc (Encoder.update (Motor.counter i) (Motor.enc m)) m) in
  let w1 := log enc_get_delta (log ticks_ms (log enc_update w)) in
  if Motor.now i - Motor.start m =? 0 then (Raise ZeroDivisionError, (m1, w1))
  else (Ok tt,
        (Motor.with_start (Motor.now i)
           (Motor.with_v_meas
              (inject_Z (Encoder.get_delta (Motor.enc m1))
                 / inject_Z (Motor.now i - Motor.start m) * (1000 / 1440))%Q m1),
         w1)).
Proof.
  unfold Motor.measure, Motor.enc_update_call, Motor.ticks_ms_call,
    Motor.enc_get_delta_call, Motor.truediv, bind, assign, emit, self, ret, raise.
  cbn.
  destruct (Motor.now i - Motor.start m =? 0); reflexivity.
Qed.

(** A pass is the preamble, the dispatch on the state, and the yield. *)
Lemma mot_gen_unfold i s :
  Motor.mot_gen i s =
  match Motor.measure i s with
  | (Ok _, s1) =>
      match Motor.dispatch i s1 with
      | (Ok _, s2) => (Ok (Motor.state (fst s2)), s2)
      | (Raise e, s2) => (Raise e, s2)
      end
  | (Raise e, s1) => (Raise e, s1)
  end.
Proof.
  unfold Motor.mot_gen, bind, self, ret.
  destruct (Motor.measure i s) as [[u|e] s1]; [|reflexivity].
  destruct (Motor.dispatch i s1) as [[u2|e2] s2]; reflexivity.
Qed.

(** The dispatch, state by state. *)
Lemma dispatch_eq i m w :
  dispatch i (m, w) =
  if state m =? 0 then state0 (m, w)
  else if state m =? 1 then
    graded (fun m => v_ref m + adjust1 m) (fun m => v_ref m - adjust1 m + 0) (m, w)
  else if state m =? 2 then
    graded (fun m => v_ref m - adjust1 m) (fun m => v_ref m + adjust1 m + 0) (m, w)
  else if state m =? 3 then
    (Ok tt, (with_state 0 (with_mot (L6206.set_duty (v_ref m) (mot m)) m),
             log (set_duty (v_ref m)) w))
  else if state m =? 4 then
    graded (fun m => v_ref m + adjust2 m) (fun m => v_ref m - adjust2 m + 0) (m, w)
  else if state m =? 5 then
    graded (fun m => v_ref m + adjust3 m) (fun m => v_ref m - adjust3 m + 0) (m, w)
  else if state m =? 6 then
    graded (fun m => v_ref m + adjust4 m) (fun m => v_ref m - adjust4 m + 0) (m, w)
  else if state m =? 7 then
    graded (fun m => v_ref m + adjust4 m) (fun m => v_ref m - adjust4 m + 0) (m, w)
  else if state m =? 8 then
    graded (fun m => v_ref m - adjust2 m + offset m)
           (fun m => v_ref m + adjust2 m + 0) (m, w)
  else if state m =? 9 then
    graded (fun m => v_ref m - adjust3 m + offset m)
           (fun m => v_ref m + adjust3 m + 0) (m, w)
  else if state m =? 10 then
    graded (fun m => v_ref m - adjust4 m + offset m)
           (fun m => v_ref m + adjust4 m + 0) (m, w)
  else if state m =? 11 then
    graded (fun m => v_ref m - adjust5 m + offset m)
           (fun m => v_ref m + adjust5 m + 0) (m, w)
  else if state m =? 12 then
    (Ok tt, (with_state 0 (with_mot (L6206.set_duty 0 (mot m)) m),
             log (set_duty 0) w))
  else if state m =? 13 then state13 i (m, w)
  else (Raise (ValueError "Invalid State"), (m, w)).
Proof.
  unfold dispatch, bind at 1, self at 1. cbn [fst snd].
  repeat (destruct (state m =? _); [reflexivity|]). reflexivity.
Qed.

Lemma graded_eq duty_R duty_L m w :
  graded duty_R duty_L (m, w) =
  if String.eqb (set m) "R" then
    (Ok tt, (with_state 0 (with_mot (L6206.set_duty (duty_R m) (mot m)) m),
             log (set_duty (duty_R m)) w))
  else if String.eqb (set m) "L" then
    (Ok tt, (with_state 0 (with_mot (L6206.set_duty (duty_L m) (mot m)) m),
             log (set_duty (duty_L m)) w))
  else (Ok tt, (with_state 0 m, w)).
Proof.
  unfold graded, bind at 1, self at 1. cbn [fst snd].
  destruct (String.eqb (set m) "R"); [reflexivity|].
  destruct (String.eqb (set m) "L"); reflexivity.
Qed.

Lemma poll_eq q idle m w :
  poll q idle (m, w) =
  match Queue.items (queue q w) with
  | [] => (Ok tt, (with_mot (L6206.set_duty idle (mot m)) m,
                   log (set_duty idle) (log (q_any q) w)))
  | v :: rest =>
      (Ok tt, (with_state v m,
               log (q_get q v)
                 (set_queue q {| Queue.items := rest;
                                 Queue.size := Queue.size (queue q w) |}
                    (log (q_any q) w))))
  end.
Proof.
  unfold poll, q_any_call, q_get_call, set_duty_call, bind, assign, emit, ret.
  unfold Queue.any, Queue.get.
  destruct w as [[itr szr] [itl szl] tr].
  destruct q; cbn; [destruct itr | destruct itl]; reflexivity.
Qed.

Lemma state0_eq m w :
  state0 (m, w) =
  if String.eqb (set m) "R" then poll turn_q_r (v_ref m) (m, w)
  else if String.eqb (set m) "L" then poll turn_q_l (v_ref m + 0) (m, w)
  else (Ok tt, (with_mot (L6206.set_duty (v_ref m) (mot m)) m,
                log (set_duty (v_ref m)) w)).
Proof.
  unfold state0, bind at 1, self at 1. cbn [fst snd].
  destruct (String.eqb (set m) "R"); [reflexivity|].
  destruct (String.eqb (set m) "L"); reflexivity.
Qed.

(** State 13, branch by branch: the duty commands, the odometer calls
    and the next state. *)
Lemma state13_effects i m w :
  exists m' w' ev,
    state13 i (m, w) = (Ok tt, (m', w')) /\
    trace w' = trace w ++ ev /\
    start m' = start m /\
    match phase_of m with
    | First =>
        duties ev = [] /\ odometer_calls ev = [enc_zero; enc_update] /\
        state m' = state m
    | Reversing =>
        if Z.abs (turn_position i m) <? 1440 then
          duties ev = [-3] /\
          odometer_calls ev =
            [enc_zero; enc_update; enc_get_position; enc_get_position] /\
          state m' = state m
        else
          duties ev = [0] /\
          odometer_calls ev = [enc_zero; enc_update; enc_get_position] /\
          state m' = (if count m <? 1000 then 13 else 0)
    | Done =>
        duties ev = [] /\ odometer_calls ev = [] /\ state m' = 0
    end.
Proof.
  unfold phase_of, state13, turn_position.
  unfold set_duty_call, enc_zero_call, enc_update_call, enc_get_position_call,
    bind, assign, emit, self, ret.
  task_cbn.
  destruct ((back m =? 0) && (turn m =? 0) && (forw m =? 0)) eqn:E1; task_cbn.
  - effects_done.
  - destruct (back m =? 1) eqn:E2; task_cbn.
    + destruct (Z.abs _ <? 1440) eqn:E3; task_cbn.
      * effects_done.
      * destruct (count m <? 1000) eqn:E4; task_cbn; effects_done.
    + effects_done.
Qed.

(** The dispatch never raises in states 0 to 13; its duty commands and
    odometer calls, state by state. *)
Lemma dispatch_effects i m w :
  0 <= state m <= 13 ->
  exists m' w' ev,
    dispatch i (m, w) = (Ok tt, (m', w')) /\
    trace w' = trace w ++ ev /\
    start m' = start m /\
    (List.length (duties ev) <= 1)%nat /\
    (state m = 0 ->
     List.length (duties ev) = (if pending m w then 0%nat else 1%nat)) /\
    (1 <= state m <= 12 ->
     state m = 3 \/ state m = 12 \/ set m = "R" \/ set m = "L" ->
     List.length (duties ev) = 1%nat /\ state m' = 0) /\
    (state m = 13 ->
     List.length (duties ev) =
       match phase_of m with Reversing => 1%nat | _ => 0%nat end) /\
    (state m <> 13 -> odometer_calls ev = []) /\
    (state m = 13 ->
     odometer_calls ev =
       match phase_of m with
       | First => [enc_zero; enc_update]
       | Reversing =>
           [enc_zero; enc_update; enc_get_position]
             ++ (if Z.abs (turn_position i m) <? 1440
                 then [enc_get_position] else [])
       | Done => []
       end).
Proof.
  intros Hst.
  assert (Hcases : state m = 0 \/ state m = 1 \/ state m = 2 \/ state m = 3 \/
                   state m = 4 \/ state m = 5 \/ state m = 6 \/ state m = 7 \/
                   state m = 8 \/ state m = 9 \/ state m = 10 \/ state m = 11 \/
                   state m = 12 \/ state m = 13) by lia.
  rewrite dispatch_eq.
  repeat (destruct Hcases as [Hk | Hcases]); try rename Hcases into Hk;
    rewrite Hk; cbn [Z.eqb Pos.eqb].
  1: { rewrite state0_eq. unfold pending, Queue.any.
       destruct (String.eqb (set m) "R") eqn:ER;
         [|destruct (String.eqb (set m) "L") eqn:EL]; rewrite ?poll_eq;
         cbn [queue];
         try (destruct (Queue.items (queue_r w)) eqn:Eq);
         try (destruct (Queue.items (queue_l w)) eqn:Eq');
         effects_done. }
  13: { destruct (state13_effects i m w) as (m' & w' & ev & Hrun & Htr & Hs & Hph).
        exists m', w', ev. split; [exact Hrun|]. split; [exact Htr|].
        split; [exact Hs|].
        destruct (phase_of m).
        - destruct Hph as (Hd & Ho & _). rewrite Hd, Ho.
          cbn; repeat split; intros; try lia; reflexivity.
        - destruct (Z.abs (turn_position i m) <? 1440);
            destruct Hph as (Hd & Ho & _); rewrite Hd, Ho;
            cbn; repeat split; intros; try lia; reflexivity.
        - destruct Hph as (Hd & Ho & _). rewrite Hd, Ho.
          cbn; repeat split; intros; try lia; reflexivity. }
  all: rewrite ?graded_eq;
    try (destruct (String.eqb (set m) "R") eqn:ER;
         [|destruct (String.eqb (set m) "L") eqn:EL]);
    effects_done.
Qed.

(** Any other state is refused. *)
Lemma dispatch_invalid i m w :
  ~ 0 <= state m <= 13 ->
  dispatch i (m, w) = (Raise (ValueError "Invalid State"), (m, w)).
Proof.
  intros Hst. rewrite dispatch_eq.
  repeat match goal with
         | |- context [state m =? ?k] =>
             destruct (Z.eqb_spec (state m) k); [lia|]
         end.
  reflexivity.
Qed.

Lemma measure_ok i m w :
  now i <> start m ->
  measure i (m, w) =
  (Ok tt, (measured i m, log enc_get_delta (log ticks_ms (log enc_update w)))).
Proof.
  intros Hne. rewrite measure_spec. cbv zeta.
  destruct (Z.eqb_spec (now i - start m) 0); [lia | reflexivity].
Qed.

Lemma measure_raises i m w :
  now i = start m ->
  measure i (m, w) =
  (Raise ZeroDivisionError,
   (with_end (now i) (with_enc (Encoder.update (counter i) (enc m)) m),
    log enc_get_delta (log ticks_ms (log enc_update w)))).
Proof.
  intros He. rewrite measure_spec. cbv zeta.
  destruct (Z.eqb_spec (now i - start m) 0); [reflexivity | lia].
Qed.

(** C6, counterexample.  The right motor of main.py at tick 5: in state
    0 with code 1 waiting, the pass takes the code and commands no duty;
    in state 1 the pass begins, as every pass does, with [enc.update()]
    and [enc.get_delta()]. *)
Lemma mot_gen_no_duty_and_odometer_in_state_1 :
  let i := {| now := 5; counter := 0; counter' := 0 |} in
  pass_events i right_motor (world_with [1] [1])
    = [enc_update; ticks_ms; enc_get_delta; q_any turn_q_r; q_get turn_q_r 1]
  /\ ~ one_duty_and_odometer_only_in_0_and_13 i right_motor (world_with [1] [1])
  /\ pass_events i (with_state 1 right_motor) (world_with [] [1])
    = [enc_update; ticks_ms; enc_get_delta; set_duty 25]
  /\ ~ one_duty_and_odometer_only_in_0_and_13 i (with_state 1 right_motor)
         (world_with [] [1]).
Proof.
  cbv zeta. split; [reflexivity|]. split.
  - intros [H _]. vm_compute in H. discriminate.
  - split; [reflexivity|].
    intros [_ H]. assert (Hs : 1 <= 1 <= 12) by lia.
    specialize (H Hs). vm_compute in H. discriminate.
Qed.

(** One whole pass at a fresh tick: it yields, the tick becomes [start],
    and its duty commands and odometer calls are those of the dispatch
    after the two odometer calls of the preamble. *)
Lemma mot_gen_effects (i : inputs) (m : Motor.t) (w : world) :
  now i <> start m ->
  0 <= state m <= 13 ->
  exists st m' w' ev,
    mot_gen i (m, w) = (Ok st, (m', w')) /\
    trace w' = trace w ++ ev /\
    start m' = now i /\
    (List.length (duties ev) <= 1)%nat /\
    (state m = 0 ->
     List.length (duties ev) = (if pending m w then 0%nat else 1%nat)) /\
    (1 <= state m <= 12 ->
     state m = 3 \/ state m = 12 \/ set m = "R" \/ set m = "L" ->
     List.length (duties ev) = 1%nat /\ st = 0) /\
    (state m = 13 ->
     List.length (duties ev) =
       match phase_of m with Reversing => 1%nat | _ => 0%nat end) /\
    (state m <> 13 -> odometer_calls ev = [enc_update; enc_get_delta]) /\
    (state m = 13 ->
     odometer_calls ev =
       [enc_update; enc_get_delta] ++
       match phase_of m with
       | First => [enc_zero; enc_update]
       | Reversing =>
           [enc_zero; enc_update; enc_get_position]
             ++ (if Z.abs (turn_position i m) <? 1440
                 then [enc_get_position] else [])
       | Done => []
       end).
Proof.
  intros Hne Hst.
  rewrite mot_gen_unfold, (measure_ok i m w Hne).
  destruct (dispatch_effects i (measured i m)
              (log enc_get_delta (log ticks_ms (log enc_update w))))
    as (m' & w' & ev & Hrun & Htr & Hs & Hle & H0 & H12 & H13 & Ho & Ho13);
    [exact Hst|].
  rewrite Hrun. cbn [fst snd].
  exists (state m'), m', w', (measure_events ++ ev).
  split; [reflexivity|]. split.
  { rewrite Htr. cbn [trace log]. rewrite <- !app_assoc. reflexivity. }
  change (duties (measure_events ++ ev)) with (duties ev).
  change (odometer_calls (measure_events ++ ev))
    with ([enc_update; enc_get_delta] ++ odometer_calls ev).
  change (state (measured i m)) with (state m) in *.
  change (set (measured i m)) with (set m) in *.
  change (phase_of (measured i m)) with (phase_of m) in *.
  change (turn_position i (measured i m)) with (turn_position i m) in *.
  change (pending (measured i m) _) with (pending m w) in *.
  split; [exact Hs|].
  split; [exact Hle|]. split; [exact H0|]. split.
  { intros Ha Hb. apply (H12 Ha Hb). }
  split; [exact H13|]. split.
  - intros Hn. rewrite (Ho Hn). reflexivity.
  - intros He. rewrite (Ho13 He). reflexivity.
Qed.

(** C6, amended.  A pass in a state from 0 to 13 whose tick differs from
    the previous one yields, and it issues at most one duty command:
    exactly one in states 1 to 12 (wheel "R" or "L"; states 3 and 12 for
    any wheel), in state 0 when no code waits in the wheel's queue, and in
    the reversing branch of state 13; none in state 0 when a code is taken
    from the queue, nor in the first and last branches of state 13.
    Every pass, in every state, begins with one [update()] and one
    [get_delta()] of the odometer; states 0 to 12 make no other odometer
    call, and state 13 adds [zero()], [update()] in its first branch and
    [zero()], [update()], [get_position()] (twice below 1440 ticks) in
    its reversing branch. *)
Theorem mot_gen_duty_and_odometer (i : inputs) (m : Motor.t) (w : world) :
  now i <> start m ->
  0 <= state m <= 13 ->
  exists st m' w' ev,
    mot_gen i (m, w) = (Ok st, (m', w')) /\
    trace w' = trace w ++ ev /\
    (List.length (duties ev) <= 1)%nat /\
    (state m = 0 ->
     List.length (duties ev) = (if pending m w then 0%nat else 1%nat)) /\
    (1 <= state m <= 12 ->
     state m = 3 \/ state m = 12 \/ set m = "R" \/ set m = "L" ->
     List.length (duties ev) = 1%nat) /\
    (state m = 13 ->
     List.length (duties ev) =
       match phase_of m with Reversing => 1%nat | _ => 0%nat end) /\
    (state m <> 13 -> odometer_calls ev = [enc_update; enc_get_delta]) /\
    (state m = 13 ->
     odometer_calls ev =
       [enc_update; enc_get_delta] ++
       match phase_of m with
       | First => [enc_zero; enc_update]
       | Reversing =>
           [enc_zero; enc_update; enc_get_position]
             ++ (if Z.abs (turn_position i m) <? 1440
                 then [enc_get_position] else [])
       | Done => []
       end).
Proof.
  intros Hne Hst.
  destruct (mot_gen_effects i m w Hne Hst)
    as (st & m' & w' & ev & Hrun & Htr & _ & Hle & H0 & H12 & H13 & Ho & Ho13).
  exists st, m', w', ev.
  repeat (split; [assumption|]).
  split; [|split; [exact H13 | split; assumption]].
  intros Ha Hb. apply (H12 Ha Hb).
Qed.

(** C6, amended, for the right motor of main.py entering state 13. *)
Lemma mot_gen_duty_and_odometer_witness :
  exists st m' w' ev,
    mot_gen {| now := 5; counter := 12; counter' := 40 |}
      (with_state 13 right_motor, world_with [] []) = (Ok st, (m', w')) /\
    trace w' = [] ++ ev /\
    duties ev = [] /\
    odometer_calls ev = [enc_update; enc_get_delta; enc_zero; enc_update].
Proof.
  destruct (mot_gen_duty_and_odometer
              {| now := 5; counter := 12; counter' := 40 |}
              (with_state 13 right_motor) (world_with [] []))
    as (st & m' & w' & ev & Hrun & Htr & _ & _ & _ & H13 & _ & Ho13).
  - cbn. lia.
  - cbn. lia.
  - exists st, m', w', ev. split; [exact Hrun|]. split; [exact Htr|]. split.
    + specialize (H13 eq_refl). cbn in H13.
      destruct (duties ev); [reflexivity | discriminate].
    + exact (Ho13 eq_refl).
Defined.

Lemma mot_gen_raises_on_same_tick i m w :
  now i = start m ->
  exists m' w',
    mot_gen i (m, w) = (Raise ZeroDivisionError, (m', w')) /\
    trace w' = trace w ++ [enc_update; ticks_ms; enc_get_delta] /\
    state m' = state m /\ mot m' = mot m /\ start m' = start m /\
    queue_r w' = queue_r w /\ queue_l w' = queue_l w.
Proof.
  intros He. rewrite mot_gen_unfold, (measure_raises i m w He).
  eexists _, _. split; [reflexivity|]. split.
  - cbn [trace log]. rewrite <- !app_assoc. reflexivity.
  - repeat split.
Qed.

Lemma mot_gen_other_tick i m w :
  now i <> start m ->
  fst (mot_gen i (m, w)) <> Raise ZeroDivisionError.
Proof.
  intros Hne Hr.
  assert (Hdec : 0 <= state m <= 13 \/ ~ 0 <= state m <= 13) by lia.
  destruct Hdec as [Hst|Hst].
  - destruct (mot_gen_effects i m w Hne Hst) as (st & m' & w' & ev & Hrun & _).
    rewrite Hrun in Hr. discriminate.
  - rewrite mot_gen_unfold, (measure_ok i m w Hne) in Hr.
    rewrite dispatch_invalid in Hr by exact Hst. discriminate.
Qed.

Lemma mot_gen_sets_start i m w st m' w' :
  mot_gen i (m, w) = (Ok st, (m', w')) -> start m' = now i.
Proof.
  intros Hrun.
  destruct (Z.eq_dec (now i) (start m)) as [He|Hne].
  - destruct (mot_gen_raises_on_same_tick i m w He) as (m2 & w2 & Hr & _).
    rewrite Hr in Hrun. discriminate.
  - assert (Hdec : 0 <= state m <= 13 \/ ~ 0 <= state m <= 13) by lia.
    destruct Hdec as [Hst|Hst].
    + destruct (mot_gen_effects i m w Hne Hst)
        as (st2 & m2 & w2 & ev & Hr & _ & Hs & _).
      rewrite Hr in Hrun. inversion Hrun; subst. exact Hs.
    + rewrite mot_gen_unfold, (measure_ok i m w Hne) in Hrun.
      rewrite dispatch_invalid in Hrun by exact Hst. discriminate.
Qed.

(** C7.  A pass raises ZeroDivisionError exactly when its tick equals the
    tick of the previous pass ([start]); it then has made only the three
    calls of the preamble: no duty command, and state, driver and queues
    are as before.  With a different tick and a state from 0 to 13 the pass
    yields.  And any pass that yields, followed by a pass within the same
    millisecond, makes that second pass raise ZeroDivisionError. *)
Theorem mot_gen_division_by_elapsed_time (i : inputs) (m : Motor.t) (w : world) :
  (fst (mot_gen i (m, w)) = Raise ZeroDivisionError <-> now i = start m)
  /\ (now i = start m ->
      exists m' w',
        mot_gen i (m, w) = (Raise ZeroDivisionError, (m', w')) /\
        trace w' = trace w ++ [enc_update; ticks_ms; enc_get_delta] /\
        state m' = state m /\ mot m' = mot m /\ start m' = start m /\
        queue_r w' = queue_r w /\ queue_l w' = queue_l w)
  /\ (now i <> start m -> 0 <= state m <= 13 ->
      exists st m' w', mot_gen i (m, w) = (Ok st, (m', w')))
  /\ (forall st m' w' (i' : inputs),
        mot_gen i (m, w) = (Ok st, (m', w')) ->
        now i' = now i ->
        fst (mot_gen i' (m', w')) = Raise ZeroDivisionError).
Proof.
  split; [split|split; [apply mot_gen_raises_on_same_tick|split]].
  - intros Hr. destruct (Z.eq_dec (now i) (start m)) as [He|Hne]; [exact He|].
    exfalso. exact (mot_gen_other_tick i m w Hne Hr).
  - intros He.
    destruct (mot_gen_raises_on_same_tick i m w He) as (m' & w' & Hr & _).
    rewrite Hr. reflexivity.
  - intros Hne Hst.
    destruct (mot_gen_effects i m w Hne Hst) as (st & m' & w' & ev & Hr & _).
    exists st, m', w'. exact Hr.
  - intros st m' w' i' Hrun Hi'.
    pose proof (mot_gen_sets_start i m w st m' w' Hrun) as Hs.
    assert (He : now i' = start m') by congruence.
    destruct (mot_gen_raises_on_same_tick i' m' w' He) as (m2 & w2 & Hr & _).
    rewrite Hr. reflexivity.
Qed.

(** C7 for two passes of the right motor of main.py within millisecond 5. *)
Lemma mot_gen_division_by_elapsed_time_witness :
  let i := {| now := 5; counter := 3; counter' := 0 |} in
  exists st m' w',
    mot_gen i (right_motor, world_with [] []) = (Ok st, (m', w')) /\
    fst (mot_gen i (m', w')) = Raise ZeroDivisionError.
Proof.
  intros i.
  destruct (mot_gen_division_by_elapsed_time i right_motor (world_with [] []))
    as (_ & _ & Hok & Hagain).
  destruct Hok as (st & m' & w' & Hrun).
  - cbn. lia.
  - cbn. lia.
  - exists st, m', w'. split; [exact Hrun|].
    apply (Hagain st m' w' i Hrun). reflexivity.
Defined.

(** C4, counterexample.  The right motor of main.py, its previous pass
    run at tick 5, in state 0 with code 1 waiting in its queue: a pass in
    that same millisecond raises ZeroDivisionError after the three calls
    that open every pass.  No duty command is issued, the code stays in
    the queue, and the pass does not yield, whatever would follow. *)
Lemma mot_gen_code_1_same_tick_no_duty :
  let i := {| now := 5; counter := 2; counter' := 0 |} in
  let m := with_start 5 right_motor in
  let w := world_with [1] [1] in
  state m = 0
  /\ Queue.items (own_queue m w) = [1]
  /\ fst (mot_gen i (m, w)) = Raise ZeroDivisionError
  /\ pass_events i m w = [enc_update; ticks_ms; enc_get_delta]
  /\ duties (pass_events i m w) = []
  /\ Queue.items (own_queue m (snd (snd (mot_gen i (m, w))))) = [1]
  /\ ~ (exists m1 w1, mot_gen i (m, w) = (Ok 1, (m1, w1))).
Proof.
  cbv zeta. repeat (split; [reflexivity|]).
  intros (m1 & w1 & H).
  assert (Hr : fst (mot_gen {| now := 5; counter := 2; counter' := 0 |}
                      (with_start 5 right_motor, world_with [1] [1]))
               = Raise ZeroDivisionError) by reflexivity.
  rewrite H in Hr. discriminate Hr.
Qed.

(** C4, amended.  A wheel's task in state 0 with code 1 at the head of its queue,
    run for two passes at ticks that differ from each other and from the
    previous one: the first pass takes the code and yields state 1, the
    second yields state 0, and over both passes exactly one duty command
    is issued, [v_ref + adjust1] for the right wheel and [v_ref - adjust1]
    for the left. *)
Theorem mot_gen_code_1_one_duty_then_idle
    (i1 i2 : inputs) (m : Motor.t) (w : world) (rest : list Z) :
  state m = 0 ->
  set m = "R" \/ set m = "L" ->
  Queue.items (own_queue m w) = 1 :: rest ->
  now i1 <> start m ->
  now i2 <> now i1 ->
  exists m1 w1 m2 w2 ev1 ev2,
    mot_gen i1 (m, w) = (Ok 1, (m1, w1)) /\
    trace w1 = trace w ++ ev1 /\
    Queue.items (own_queue m w1) = rest /\
    mot_gen i2 (m1, w1) = (Ok 0, (m2, w2)) /\
    trace w2 = trace w1 ++ ev2 /\
    duties (ev1 ++ ev2) =
      [if String.eqb (set m) "R" then v_ref m + adjust1 m
       else v_ref m - adjust1 m] /\
    state m1 = 1 /\ state m2 = 0.
Proof.
  intros Hst Hset Hq Hne1 Hne2.
  assert (Hrun1 : exists m1 w1 ev1,
             mot_gen i1 (m, w) = (Ok 1, (m1, w1)) /\
             trace w1 = trace w ++ ev1 /\ duties ev1 = [] /\
             Queue.items (own_queue m w1) = rest /\
             state m1 = 1 /\ set m1 = set m /\ start m1 = now i1 /\
             v_ref m1 = v_ref m /\ adjust1 m1 = adjust1 m).
  { rewrite mot_gen_unfold, (measure_ok i1 m w Hne1), dispatch_eq.
    change (state (measured i1 m)) with (state m). rewrite Hst.
    cbn [Z.eqb]. rewrite state0_eq.
    change (set (measured i1 m)) with (set m).
    unfold own_queue in *.
    destruct Hset as [Hs|Hs]; rewrite Hs in *; cbn [String.eqb Ascii.eqb Bool.eqb] in *;
      rewrite poll_eq; cbn [queue log queue_r queue_l]; rewrite Hq;
      (eexists _, _, _; split; [reflexivity|]; split;
       [cbn [trace log set_queue]; rewrite <- ?app_assoc; reflexivity
       | cbn; repeat split; assumption]). }
  destruct Hrun1 as (m1 & w1 & ev1 & Hr1 & Ht1 & Hd1 & Hq1 & Hs1 & Hset1 & Hst1 & Hv & Ha).
  assert (Hne2' : now i2 <> start m1) by congruence.
  assert (Hrun2 : exists m2 w2 ev2,
             mot_gen i2 (m1, w1) = (Ok 0, (m2, w2)) /\
             trace w2 = trace w1 ++ ev2 /\
             duties ev2 = [if String.eqb (set m) "R" then v_ref m + adjust1 m
                           else v_ref m - adjust1 m] /\
             state m2 = 0).
  { rewrite mot_gen_unfold, (measure_ok i2 m1 w1 Hne2'), dispatch_eq.
    change (state (measured i2 m1)) with (state m1). rewrite Hs1.
    cbn [Z.eqb Pos.eqb]. rewrite graded_eq.
    change (set (measured i2 m1)) with (set m1).
    change (v_ref (measured i2 m1)) with (v_ref m1).
    change (adjust1 (measured i2 m1)) with (adjust1 m1).
    rewrite Hset1, Hv, Ha.
    destruct Hset as [Hs|Hs]; rewrite Hs; cbn [String.eqb Ascii.eqb Bool.eqb];
      (eexists _, _, _; split; [reflexivity|]; split;
       [cbn [trace log]; rewrite <- ?app_assoc; reflexivity
       | cbn; split; [f_equal; lia | reflexivity]]). }
  destruct Hrun2 as (m2 & w2 & ev2 & Hr2 & Ht2 & Hd2 & Hs2).
  exists m1, w1, m2, w2, ev1, ev2.
  repeat (split; [assumption|]).
  split; [|split; assumption].
  unfold duties in *. rewrite flat_map_app. rewrite Hd1, Hd2. reflexivity.
Qed.

(** C4 for the two motors of main.py: duty 25 on the right, 5 on the left. *)
Lemma mot_gen_code_1_one_duty_then_idle_witness :
  (exists m1 w1 m2 w2 ev1 ev2,
     mot_gen {| now := 5; counter := 2; counter' := 0 |}
       (right_motor, world_with [1; 3] [1; 3]) = (Ok 1, (m1, w1)) /\
     mot_gen {| now := 10; counter := 9; counter' := 0 |} (m1, w1)
       = (Ok 0, (m2, w2)) /\
     duties (ev1 ++ ev2) = [25] /\ state m2 = 0)
  /\
  (exists m1 w1 m2 w2 ev1 ev2,
     mot_gen {| now := 5; counter := 2; counter' := 0 |}
       (left_motor, world_with [1; 3] [1; 3]) = (Ok 1, (m1, w1)) /\
     mot_gen {| now := 10; counter := 9; counter' := 0 |} (m1, w1)
       = (Ok 0, (m2, w2)) /\
     duties (ev1 ++ ev2) = [5] /\ state m2 = 0).
Proof.
  split.
  - destruct (mot_gen_code_1_one_duty_then_idle
                {| now := 5; counter := 2; counter' := 0 |}
                {| now := 10; counter := 9; counter' := 0 |}
                right_motor (world_with [1; 3] [1; 3]) [3])
      as (m1 & w1 & m2 & w2 & ev1 & ev2 & H1 & _ & _ & H2 & _ & Hd & _ & Hs);
      [reflexivity | left; reflexivity | reflexivity | cbn; lia | cbn; lia |].
    exists m1, w1, m2, w2, ev1, ev2. repeat split; assumption.
  - destruct (mot_gen_code_1_one_duty_then_idle
                {| now := 5; counter := 2; counter' := 0 |}
                {| now := 10; counter := 9; counter' := 0 |}
                left_motor (world_with [1; 3] [1; 3]) [3])
      as (m1 & w1 & m2 & w2 & ev1 & ev2 & H1 & _ & _ & H2 & _ & Hd & _ & Hs);
      [reflexivity | right; reflexivity | reflexivity | cbn; lia | cbn; lia |].
    exists m1, w1, m2, w2, ev1, ev2. repeat split; assumption.
Defined.

End MotorFacts.

(** ** Line classifier *)

Section SensorFacts.
Import Sensor.

Lemma q_put_call_eq {O} q v (s : O) w :
  q_put_call q v (s, w) = (Ok tt, (s, after_put q v w)).
Proof.
  unfold q_put_call, after_put, Queue.put. cbn [fst snd].
  destruct (Queue.full (queue q w)); reflexivity.
Qed.

Lemma publish_eq code s w :
  publish code (s, w) =
  (Ok tt, (Sensor.with_state 0 s, after_put turn_q_r code (after_put turn_q_l code w))).
Proof.
  unfold publish, bind. rewrite q_put_call_eq, q_put_call_eq. reflexivity.
Qed.

Lemma report_and_publish_eq checked msg code s w :
  report_and_publish checked msg code (s, w) =
  (Ok tt,
   (Sensor.with_state 0 s,
    after_put turn_q_r code
      (after_put turn_q_l code
         (if Queue.full (queue checked w)
          then log (print msg) (log (q_full checked) w)
          else log (q_full checked) w)))).
Proof.
  unfold report_and_publish, bind at 1 2, q_full_call, when. cbn [fst snd].
  destruct (Queue.full (queue checked w)); cbn [emit ret fst snd];
    rewrite publish_eq; reflexivity.
Qed.

(** The puts a pass ends with, seen from the world [w0] the pass started
    in, when what ran before them (the events [checks]) left the queues alone. *)
Lemma after_puts code w0 w checks :
  queue_l w = queue_l w0 -> queue_r w = queue_r w0 ->
  trace w = trace w0 ++ checks ->
  let w' := after_put turn_q_r code (after_put turn_q_l code w) in
  trace w' = trace w0 ++ checks
               ++ [q_put turn_q_l code (negb (Queue.full (queue_l w0)));
                   q_put turn_q_r code (negb (Queue.full (queue_r w0)))]
  /\ queue_l w' = snd (Queue.put code (queue_l w0))
  /\ queue_r w' = snd (Queue.put code (queue_r w0)).
Proof.
  intros Hl Hr Ht. unfold after_put. cbn [queue set_queue log trace queue_l queue_r].
  rewrite Hl, Hr, Ht. rewrite <- !app_assoc. repeat split.
Qed.


Lemma put_with_room v q :
  Queue.full q = false ->
  Queue.items (snd (Queue.put v q)) = Queue.items q ++ [v].
Proof. intros H. unfold Queue.put. rewrite H. reflexivity. Qed.

(** C3, counterexample.  S11 and S9 at 3000, the other four at 100, the
    queues empty: rule RIGHT 2 fires and hands 8, not 6, to both queues. *)
Lemma sen_gen_outer_left_pair_is_not_code_6 :
  let r := {| S11 := 3000; S9 := 3000; S7 := 100; S5 := 100; S3 := 100; S1 := 100 |} in
  classifier_events r initial_world
    = [q_full turn_q_l; q_put turn_q_l 8 true; q_put turn_q_r 8 true]
  /\ ~ enqueues_once 6 r initial_world.
Proof.
  cbv zeta. split; [reflexivity|].
  intros [H _]. vm_compute in H. discriminate.
Qed.

(** C3, amended.  With room in both queues: when S11 and S9 read above
    the black threshold and the other four below the white one, the pass
    appends code 8 to the left and to the right queue, once each (rule
    RIGHT 2, after its check of the left queue); when all six read below
    the white threshold, it appends code 3 to both, once each, by the
    final [else]. *)
Theorem sen_gen_outer_left_pair_and_all_low (r : readings) (w : world) :
  Queue.full (queue_l w) = false ->
  Queue.full (queue_r w) = false ->
  (S11 r > black Sensor.init -> S9 r > black Sensor.init ->
   S7 r < white Sensor.init -> S5 r < white Sensor.init ->
   S3 r < white Sensor.init -> S1 r < white Sensor.init ->
   exists w',
     sen_gen r (Sensor.init, w) = (Ok 0, (Sensor.init, w')) /\
     trace w' = trace w
                  ++ [q_full turn_q_l; q_put turn_q_l 8 true; q_put turn_q_r 8 true] /\
     Queue.items (queue_l w') = Queue.items (queue_l w) ++ [8] /\
     Queue.items (queue_r w') = Queue.items (queue_r w) ++ [8])
  /\
  (S11 r < white Sensor.init -> S9 r < white Sensor.init ->
   S7 r < white Sensor.init -> S5 r < white Sensor.init ->
   S3 r < white Sensor.init -> S1 r < white Sensor.init ->
   exists w',
     sen_gen r (Sensor.init, w) = (Ok 0, (Sensor.init, w')) /\
     trace w' = trace w ++ [q_put turn_q_l 3 true; q_put turn_q_r 3 true] /\
     Queue.items (queue_l w') = Queue.items (queue_l w) ++ [3] /\
     Queue.items (queue_r w') = Queue.items (queue_r w) ++ [3]).
Proof.
  intros Hl Hr. cbn [black white Sensor.init]. split.
  - intros H11 H9 H7 H5 H3 H1.
    unfold sen_gen, bind at 1, self at 1.
    cbn [fst snd Sensor.state Sensor.init Z.eqb black white].
    decide_readings. unfold right_rule, bind, self, ret.
    rewrite report_and_publish_eq. cbn [queue]. rewrite Hl.
    cbn [fst snd Sensor.state Sensor.with_state].
    eexists. split; [reflexivity|].
    unfold after_put. cbn [queue set_queue log trace queue_l queue_r].
    rewrite Hl, Hr, !put_with_room by assumption.
    rewrite <- !app_assoc. repeat split.
  - intros H11 H9 H7 H5 H3 H1.
    unfold sen_gen, bind at 1, self at 1.
    cbn [fst snd Sensor.state Sensor.init Z.eqb black white].
    decide_readings. unfold bind, self, ret.
    rewrite publish_eq.
    cbn [fst snd Sensor.state Sensor.with_state].
    eexists. split; [reflexivity|].
    unfold after_put. cbn [queue set_queue log trace queue_l queue_r].
    rewrite Hl, Hr, !put_with_room by assumption.
    rewrite <- !app_assoc. repeat split.
Qed.

(** C3, amended, on two sets of readings and the queues as main.py
    creates them. *)
Lemma sen_gen_outer_left_pair_and_all_low_witness :
  (exists w',
     sen_gen {| S11 := 3000; S9 := 2500; S7 := 100; S5 := 90; S3 := 80; S1 := 70 |}
       (Sensor.init, initial_world) = (Ok 0, (Sensor.init, w')) /\
     Queue.items (queue_l w') = [8] /\ Queue.items (queue_r w') = [8])
  /\
  (exists w',
     sen_gen {| S11 := 30; S9 := 25; S7 := 100; S5 := 90; S3 := 80; S1 := 70 |}
       (Sensor.init, initial_world) = (Ok 0, (Sensor.init, w')) /\
     Queue.items (queue_l w') = [3] /\ Queue.items (queue_r w') = [3]).
Proof.
  split.
  - destruct (sen_gen_outer_left_pair_and_all_low
                {| S11 := 3000; S9 := 2500; S7 := 100; S5 := 90; S3 := 80; S1 := 70 |}
                initial_world eq_refl eq_refl) as [Hpair _].
    destruct Hpair as (w' & Hrun & _ & Hql & Hqr); cbn; try lia.
    exists w'. repeat split; assumption.
  - destruct (sen_gen_outer_left_pair_and_all_low
                {| S11 := 30; S9 := 25; S7 := 100; S5 := 90; S3 := 80; S1 := 70 |}
                initial_world eq_refl eq_refl) as [_ Hlow].
    destruct Hlow as (w' & Hrun & _ & Hql & Hqr); cbn; try lia.
    exists w'. repeat split; assumption.
Defined.




End SensorFacts.

(** ** Orientation driver *)

Lemma byte_of_int_of_byte (b : byte) :
  BNO055.byte_of_int (BNO055.int_of_byte b) = Some b.
Proof.
  unfold BNO055.byte_of_int, BNO055.int_of_byte.
  pose proof (Byte.to_N_bounded b) as Hb.
  assert (H0 : (0 <=? Z.of_N (Byte.to_N b)) = true) by (apply Z.leb_le; lia).
  assert (H1 : (Z.of_N (Byte.to_N b) <=? 255) = true) by (apply Z.leb_le; lia).
  rewrite H0, H1, N2Z.id. apply Byte.of_to_N.
Qed.

Lemma bytes_of_ints_of_bytes (l : list byte) :
  BNO055.bytes_of_ints (map BNO055.int_of_byte l) = Some l.
Proof.
  induction l as [|b l IH]; [reflexivity|].
  cbn [map BNO055.bytes_of_ints]. rewrite byte_of_int_of_byte, IH. reflexivity.
Qed.

(** [pack] undoes [unpack]. *)
Lemma pack_unpack_22B (buffer : list byte) (values : list Z) :
  BNO055.unpack_22B buffer = BNO055.Ok values ->
  BNO055.pack_22B values = BNO055.Ok buffer.
Proof.
  unfold BNO055.unpack_22B, BNO055.pack_22B.
  destruct (List.length buffer =? 22)%nat eqn:Hlen; [|discriminate].
  intros H. inversion H; subst. rewrite length_map, Hlen.
  rewrite bytes_of_ints_of_bytes. reflexivity.
Qed.

Lemma store_ext addr data : forall base r1 r2,
  (forall a k, r1 a k = r2 a k) ->
  forall a k, I2C.store addr base data r1 a k = I2C.store addr base data r2 a k.
Proof.
  induction data as [|b rest IH]; intros base r1 r2 Hr a k; [apply Hr|].
  cbn [I2C.store]. apply IH. intros a' k'.
  destruct ((a' =? addr) && (k' =? base)); [reflexivity | apply Hr].
Qed.

(** Writing back the block just read leaves every register as it was. *)
Lemma store_block_read addr r : forall n base a k,
  I2C.store addr base
    (map (fun j => r addr (base + Z.of_nat j)) (seq 0 n)) r a k = r a k.
Proof.
  induction n as [|n IH]; intros base a k; [reflexivity|].
  cbn [seq map I2C.store].
  rewrite <- seq_shift, map_map.
  erewrite map_ext by (intros j; rewrite Nat2Z.inj_succ;
                       replace (base + Z.succ (Z.of_nat j))
                         with (base + 1 + Z.of_nat j) by lia; reflexivity).
  rewrite (store_ext addr _ (base + 1) _ r); [apply IH|].
  intros a' k'.
  destruct (Z.eqb_spec a' addr) as [->|]; [|reflexivity].
  destruct (Z.eqb_spec k' base) as [->|]; [|reflexivity].
  cbn [andb]. f_equal. lia.
Qed.

Lemma readfrom_mem_ext addr base n bus bus' :
  (forall a k, I2C.regs bus' a k = I2C.regs bus a k) ->
  I2C.readfrom_mem addr base n bus' = I2C.readfrom_mem addr base n bus.
Proof.
  intros H. unfold I2C.readfrom_mem. apply map_ext. intros j. apply H.
Qed.

Lemma readfrom_mem_length addr base n bus :
  List.length (I2C.readfrom_mem addr base n bus) = n.
Proof. unfold I2C.readfrom_mem. rewrite length_map, length_seq. reflexivity. Qed.

(** C9.  [pack] is a left inverse of [unpack] for the format "<22B"; and
    for every device state, reading the coefficients gives 22 values, and
    writing them back writes to register 0x55 exactly the 22 bytes that
    were read, after which every register, the 22-byte block and the
    coefficients read from it are what they were. *)
Theorem calibration_coefficients_round_trip (bus : I2C.t) :
  let self := BNO055.attributes in
  let block := I2C.readfrom_mem 0x28 0x55 22 bus in
  (forall buffer values,
     BNO055.unpack_22B buffer = BNO055.Ok values ->
     BNO055.pack_22B values = BNO055.Ok buffer)
  /\ exists coefficients bus',
       BNO055.read_calibration_coefficients self bus = BNO055.Ok coefficients /\
       List.length coefficients = 22%nat /\
       BNO055.write_calibration_coefficients self coefficients bus
         = (BNO055.Ok tt, bus') /\
       I2C.writes bus' = I2C.writes bus ++ [(0x28, 0x55, block)] /\
       I2C.readfrom_mem 0x28 0x55 22 bus' = block /\
       (forall a k, I2C.regs bus' a k = I2C.regs bus a k) /\
       BNO055.read_calibration_coefficients self bus' = BNO055.Ok coefficients.
Proof.
  intros self block. split; [exact pack_unpack_22B|].
  assert (Hlen : List.length block = 22%nat) by apply readfrom_mem_length.
  assert (Hun : BNO055.unpack_22B block = BNO055.Ok (map BNO055.int_of_byte block)).
  { unfold BNO055.unpack_22B. rewrite Hlen. reflexivity. }
  exists (map BNO055.int_of_byte block),
         (I2C.writeto_mem 0x28 0x55 block bus).
  assert (Hregs : forall a k,
             I2C.regs (I2C.writeto_mem 0x28 0x55 block bus) a k = I2C.regs bus a k).
  { intros a k. unfold I2C.writeto_mem, block, I2C.readfrom_mem. cbn [I2C.regs].
    apply store_block_read. }
  assert (Hback : I2C.readfrom_mem 0x28 0x55 22 (I2C.writeto_mem 0x28 0x55 block bus)
                  = block).
  { apply readfrom_mem_ext. exact Hregs. }
  split; [exact Hun|]. split; [rewrite length_map; exact Hlen|]. split.
  { unfold BNO055.write_calibration_coefficients.
    rewrite (pack_unpack_22B block _ Hun). reflexivity. }
  split; [reflexivity|]. split; [exact Hback|]. split; [exact Hregs|].
  unfold BNO055.read_calibration_coefficients.
  change (BNO055.i2c_addr self) with 0x28. rewrite Hback. exact Hun.
Qed.

(** C9 on a device whose registers 0x55 to 0x6A hold 85 to 106. *)
Lemma calibration_coefficients_round_trip_witness :
  BNO055.pack_22B (map Z.of_nat (seq 85 22))
  = BNO055.Ok (I2C.readfrom_mem 0x28 0x55 22 sample_bus).
Proof.
  destruct (calibration_coefficients_round_trip sample_bus) as [Hinv _].
  apply Hinv. reflexivity.
Defined.

(** C10.  On the object the constructor builds: for a placement from 0
    to 7, [remap_axes] writes the byte of
    AXIS_REMAP_P<placement> to register 0x41 and then the byte of
    AXIS_REMAP_SIGN_P<placement> to register 0x42 of device 0x28, and
    nothing else; for any other placement it raises ValueError and the
    bus is untouched. *)
Theorem remap_axes_writes_table_or_raises (placement : Z) (bus : I2C.t) :
  let self := BNO055.attributes in
  fst (BNO055.init bus) = BNO055.Ok self /\
  if (0 <=? placement) && (placement <=? 7) then
    exists remap sign remap_byte sign_byte bus',
      nth_error (remap_table self) (Z.to_nat placement) = Some remap /\
      nth_error (sign_table self) (Z.to_nat placement) = Some sign /\
      BNO055.byte_of_int remap = Some remap_byte /\
      BNO055.byte_of_int sign = Some sign_byte /\
      BNO055.remap_axes self placement bus = (BNO055.Ok tt, bus') /\
      I2C.writes bus' =
        I2C.writes bus ++ [(0x28, 0x41, [remap_byte]); (0x28, 0x42, [sign_byte])] /\
      I2C.regs bus' 0x28 0x41 = remap_byte /\
      I2C.regs bus' 0x28 0x42 = sign_byte
  else
    BNO055.remap_axes self placement bus
    = (BNO055.Raise (BNO055.ValueError "Invalid placement value"), bus).
Proof.
  intros self. split; [reflexivity|].
  destruct (Z.leb_spec 0 placement) as [H0|H0]; cbn [andb].
  - destruct (Z.leb_spec placement 7) as [H7|H7].
    + assert (Hp : placement = 0 \/ placement = 1 \/ placement = 2 \/ placement = 3 \/
                   placement = 4 \/ placement = 5 \/ placement = 6 \/ placement = 7)
        by lia.
      repeat (destruct Hp as [Hp|Hp]); subst placement;
        (eexists _, _, _, _, _;
         split; [reflexivity|]; split; [reflexivity|];
         split; [reflexivity|]; split; [reflexivity|];
         split; [reflexivity|]; split;
         [cbn [I2C.writes I2C.writeto_mem]; rewrite <- app_assoc; reflexivity
         |split; reflexivity]).
    + unfold BNO055.remap_axes, BNO055.placement_bytes.
      repeat match goal with
             | |- context [placement =? ?k] =>
                 destruct (Z.eqb_spec placement k); [lia|]
             end.
      reflexivity.
  - unfold BNO055.remap_axes, BNO055.placement_bytes.
    repeat match goal with
           | |- context [placement =? ?k] =>
               destruct (Z.eqb_spec placement k); [lia|]
           end.
    reflexivity.
Qed.

(** ** PI controller *)

Section AnyArithmetic.

Context {num : Type} {arith : Number num}.

Lemma updates_fields (n : nat) : forall c : ClosedLoop.t num,
  ClosedLoop.Kp (ClosedLoop.updates n c) = ClosedLoop.Kp c /\
  ClosedLoop.Ki (ClosedLoop.updates n c) = ClosedLoop.Ki c /\
  ClosedLoop.ref (ClosedLoop.updates n c) = ClosedLoop.ref c /\
  ClosedLoop.meas (ClosedLoop.updates n c) = ClosedLoop.meas c /\
  ClosedLoop.period (ClosedLoop.updates n c) = ClosedLoop.period c.
Proof.
  induction n as [|n IH]; intros c; [repeat split|].
  cbn [ClosedLoop.updates].
  destruct (IH (snd (ClosedLoop.update c))) as (H1 & H2 & H3 & H4 & H5).
  repeat split; assumption.
Qed.

(** The integral after [n] updates is a running sum: [n] additions of the
    same increment, each rounded as the arithmetic rounds. *)
Lemma updates_running_sum (n : nat) : forall c : ClosedLoop.t num,
  ClosedLoop.integral (ClosedLoop.updates n c)
  = Nat.iter n
      (fun acc => add acc (mul (mul (ClosedLoop.Ki c)
                                    (sub (ClosedLoop.ref c) (ClosedLoop.meas c)))
                               (ClosedLoop.period c)))
      (ClosedLoop.integral c).
Proof.
  induction n as [|n IH]; intros c; [reflexivity|].
  cbn [ClosedLoop.updates]. rewrite IH, Nat.iter_succ_r. reflexivity.
Qed.

End AnyArithmetic.

Section ExactClosedLoop.

Local Open Scope Q_scope.

Lemma exact_update_integral (c : ClosedLoop.t Q) :
  ClosedLoop.integral (snd (ClosedLoop.update c))
  == ClosedLoop.integral c
     + ClosedLoop.Ki c * (ClosedLoop.ref c - ClosedLoop.meas c) * ClosedLoop.period c.
Proof. reflexivity. Qed.

Lemma exact_updates_integral (n : nat) : forall c : ClosedLoop.t Q,
  ClosedLoop.integral (ClosedLoop.updates n c)
  == ClosedLoop.integral c
     + ClosedLoop.Ki c * (ClosedLoop.ref c - ClosedLoop.meas c)
       * ClosedLoop.period c * inject_Z (Z.of_nat n).
Proof.
  induction n as [|n IH]; intros c.
  - cbn. ring.
  - cbn [ClosedLoop.updates]. rewrite IH.
    cbn [ClosedLoop.update snd ClosedLoop.integral ClosedLoop.Ki ClosedLoop.ref
         ClosedLoop.meas ClosedLoop.period add sub mul exact_number].
    rewrite Nat2Z.inj_succ. unfold Z.succ. rewrite inject_Z_plus.
    change (inject_Z 1) with 1. ring.
Qed.

(** No call but [set_Ki] changes the integral gain; while it is zero the
    integral stays zero. *)
Lemma exact_run_zero_gain (cs : list (ClosedLoop.call Q)) :
  forall c : ClosedLoop.t Q,
  ClosedLoop.Ki c == 0 -> ClosedLoop.integral c == 0 ->
  ClosedLoop.Ki (ClosedLoop.run c cs) == 0 /\
  ClosedLoop.integral (ClosedLoop.run c cs) == 0 /\
  ClosedLoop.meas (ClosedLoop.run c cs) = ClosedLoop.meas c.
Proof.
  induction cs as [|call cs IH]; intros c Hk Hi; [repeat split; assumption|].
  cbn [ClosedLoop.run fold_left]. fold (ClosedLoop.run (ClosedLoop.do_call c call) cs).
  destruct call as [|k|r].
  - destruct (IH (ClosedLoop.do_call c ClosedLoop.Update)) as (H1 & H2 & H3).
    + exact Hk.
    + cbn [ClosedLoop.do_call]. rewrite exact_update_integral, Hk, Hi. ring.
    + repeat split; assumption.
  - destruct (IH (ClosedLoop.do_call c (ClosedLoop.SetKp k)) Hk Hi) as (H1 & H2 & H3).
    repeat split; assumption.
  - destruct (IH (ClosedLoop.do_call c (ClosedLoop.Setpoint r)) Hk Hi) as (H1 & H2 & H3).
    repeat split; assumption.
Qed.

Lemma exact_update_output (c : ClosedLoop.t Q) :
  fst (ClosedLoop.update c)
  == ClosedLoop.Kp c * (ClosedLoop.ref c - ClosedLoop.meas c)
     + ClosedLoop.integral (snd (ClosedLoop.update c)).
Proof. reflexivity. Qed.

(** The claims of section 8 on the controller, in exact arithmetic. *)
Lemma exact_closed_loop
    (period Kp Ki ref meas : Q) (calls : list (ClosedLoop.call Q)) (n : nat) :
  (let c := ClosedLoop.run (ClosedLoop.init period Kp 0 ref meas) calls in
   fst (ClosedLoop.update c) == ClosedLoop.Kp c * (ClosedLoop.ref c - meas))
  /\ fst (ClosedLoop.update
            (ClosedLoop.updates n (ClosedLoop.init period Kp 0 ref meas)))
     == Kp * (ref - meas)
  /\ ClosedLoop.integral
       (ClosedLoop.updates n (ClosedLoop.init period Kp Ki ref meas))
     == Ki * (ref - meas) * (period / 1000) * inject_Z (Z.of_nat n)
  /\ fst (ClosedLoop.update
            (ClosedLoop.updates n (ClosedLoop.init period 0 Ki ref meas)))
     == Ki * (ref - meas) * (period / 1000) * inject_Z (Z.of_nat (S n)).
Proof.
  split; [|split; [|split]].
  - cbv zeta.
    destruct (exact_run_zero_gain calls (ClosedLoop.init period Kp 0 ref meas))
      as (Hk & Hi & Hm); [reflexivity | reflexivity |].
    rewrite exact_update_output, exact_update_integral, Hk, Hi, Hm.
    cbn [ClosedLoop.init ClosedLoop.meas]. ring.
  - destruct (updates_fields n (ClosedLoop.init period Kp 0 ref meas))
      as (H1 & H2 & H3 & H4 & H5).
    rewrite exact_update_output, exact_update_integral, exact_updates_integral.
    rewrite H1, H2, H3, H4, H5.
    cbn [ClosedLoop.init ClosedLoop.Kp ClosedLoop.Ki ClosedLoop.ref ClosedLoop.meas
         ClosedLoop.period ClosedLoop.integral of_int exact_number].
    change (inject_Z 0) with 0. ring.
  - rewrite exact_updates_integral.
    cbn [ClosedLoop.init ClosedLoop.Kp ClosedLoop.Ki ClosedLoop.ref ClosedLoop.meas
         ClosedLoop.period ClosedLoop.integral of_int truediv exact_number].
    change (inject_Z 0) with 0. change (inject_Z 1000) with 1000. ring.
  - destruct (updates_fields n (ClosedLoop.init period 0 Ki ref meas))
      as (H1 & H2 & H3 & H4 & H5).
    rewrite exact_update_output, exact_update_integral, exact_updates_integral.
    rewrite H1, H2, H3, H4, H5.
    cbn [ClosedLoop.init ClosedLoop.Kp ClosedLoop.Ki ClosedLoop.ref ClosedLoop.meas
         ClosedLoop.period ClosedLoop.integral of_int truediv exact_number].
    rewrite Nat2Z.inj_succ. unfold Z.succ. rewrite inject_Z_plus.
    change (inject_Z 0) with 0. change (inject_Z 1000) with 1000.
    change (inject_Z 1) with 1. ring.
Qed.

End ExactClosedLoop.

Section FloatClosedLoop.

Variables prec emax : Z.

Lemma to_float_zero x :
  is_zero x = true -> exists s, PyNum.to_float prec emax x = S754_zero s.
Proof.
  destruct x as [z|f]; cbn.
  - destruct z; try discriminate. intros _. exists false. reflexivity.
  - destruct f; try discriminate. intros _. eexists. reflexivity.
Qed.

Lemma SFmul_zero_l s f :
  is_finite f = true -> exists s', SFmul prec emax (S754_zero s) f = S754_zero s'.
Proof. destruct f; cbn; try discriminate; intros _; eexists; reflexivity. Qed.

Lemma SFadd_zero_zero s1 s2 :
  exists s, SFadd prec emax (S754_zero s1) (S754_zero s2) = S754_zero s.
Proof. destruct s1, s2; cbn; eexists; reflexivity. Qed.

Lemma SFeqb_refl f : f <> S754_nan -> SFeqb f f = true.
Proof.
  unfold SFeqb, SFcompare. destruct f as [s|s| |s m e]; intros H.
  - reflexivity.
  - destruct s; reflexivity.
  - congruence.
  - destruct s; rewrite Z.compare_refl; fold (Pos.compare m m);
      rewrite Pos.compare_refl; reflexivity.
Qed.

Lemma py_mul_zero_l x y :
  is_zero x = true -> is_finite (PyNum.to_float prec emax y) = true ->
  is_zero (PyNum.py_mul prec emax x y) = true.
Proof.
  intros Hx Hy.
  destruct (to_float_zero x Hx) as [s Hs].
  destruct (SFmul_zero_l s _ Hy) as [s' Hs'].
  destruct x as [zx|fx], y as [zy|fy].
  - cbn in Hx. destruct zx; try discriminate. reflexivity.
  - change (is_zero (PyNum.PyFloat
              (SFmul prec emax (PyNum.to_float prec emax (PyNum.PyInt zx))
                 (PyNum.to_float prec emax (PyNum.PyFloat fy)))) = true).
    rewrite Hs, Hs'. reflexivity.
  - change (is_zero (PyNum.PyFloat
              (SFmul prec emax (PyNum.to_float prec emax (PyNum.PyFloat fx))
                 (PyNum.to_float prec emax (PyNum.PyInt zy)))) = true).
    rewrite Hs, Hs'. reflexivity.
  - change (is_zero (PyNum.PyFloat
              (SFmul prec emax (PyNum.to_float prec emax (PyNum.PyFloat fx))
                 (PyNum.to_float prec emax (PyNum.PyFloat fy)))) = true).
    rewrite Hs, Hs'. reflexivity.
Qed.

(** The increment of one [update()] when the integral gain is zero: a
    float zero. *)
Lemma zero_gain_increment Ki e p :
  is_zero Ki = true -> is_finite (PyNum.to_float prec emax e) = true ->
  is_finite p = true ->
  exists s,
    PyNum.py_mul prec emax (PyNum.py_mul prec emax Ki e) (PyNum.PyFloat p)
    = PyNum.PyFloat (S754_zero s).
Proof.
  intros HK He Hp.
  pose proof (py_mul_zero_l Ki e HK He) as Hz.
  destruct (to_float_zero _ Hz) as [s Hs].
  destruct (SFmul_zero_l s p Hp) as [s' Hs'].
  exists s'.
  destruct (PyNum.py_mul prec emax Ki e) as [z|f];
    cbn [PyNum.py_mul PyNum.binop PyNum.to_float] in *; rewrite Hs, Hs'; reflexivity.
Qed.

Lemma py_add_zero_zero x s :
  is_zero x = true ->
  exists s', PyNum.py_add prec emax x (PyNum.PyFloat (S754_zero s))
             = PyNum.PyFloat (S754_zero s').
Proof.
  intros Hx. destruct (to_float_zero x Hx) as [sx Hsx].
  destruct (SFadd_zero_zero sx s) as [s' Hs'].
  exists s'.
  destruct x as [z|f]; cbn [PyNum.py_add PyNum.binop PyNum.to_float] in *;
    rewrite Hsx, Hs'; reflexivity.
Qed.

(** Adding a float zero leaves a number equal, under [==], to what it was. *)
Lemma py_add_zero_r x s :
  survives_conversion prec emax x ->
  PyNum.py_eq (PyNum.py_add prec emax x (PyNum.PyFloat (S754_zero s))) x.
Proof.
  intros Hx. destruct x as [z|f]; cbn [PyNum.py_add PyNum.binop PyNum.to_float].
  - cbn [survives_conversion] in Hx. unfold PyNum.py_eq. cbn [PyNum.value].
    destruct (PyNum.float_of_int prec emax z) as [s0|s0| |s0 m e] eqn:E;
      cbn [PyNum.float_value] in Hx; try contradiction.
    + destruct (SFadd_zero_zero s0 s) as [s' Hs']. rewrite Hs'.
      cbn [PyNum.float_value]. exact Hx.
    + cbn [SFadd PyNum.float_value]. exact Hx.
  - cbn [survives_conversion] in Hx. unfold PyNum.py_eq.
    destruct f as [s0|s0| |s0 m e]; try congruence.
    + destruct (SFadd_zero_zero s0 s) as [s' Hs']. rewrite Hs'. reflexivity.
    + cbn [SFadd]. destruct s0; reflexivity.
    + cbn [SFadd]. apply SFeqb_refl. discriminate.
Qed.

Lemma float_update_keeps_zero (c : ClosedLoop.t PyNum.t) (p : spec_float) :
  is_zero (ClosedLoop.Ki c) = true ->
  is_zero (ClosedLoop.integral c) = true ->
  ClosedLoop.period c = PyNum.PyFloat p -> is_finite p = true ->
  is_finite (PyNum.to_float prec emax
               (PyNum.py_sub prec emax (ClosedLoop.ref c) (ClosedLoop.meas c))) = true ->
  exists s,
    ClosedLoop.integral (snd (@ClosedLoop.update _ (PyNum.number prec emax) c))
    = PyNum.PyFloat (S754_zero s).
Proof.
  intros HK HI Hp Hfin He.
  cbn [ClosedLoop.update snd ClosedLoop.integral add sub mul PyNum.number].
  rewrite Hp.
  destruct (zero_gain_increment _ _ p HK He Hfin) as [s Hs]. rewrite Hs.
  apply py_add_zero_zero. exact HI.
Qed.

Lemma float_updates_keep_zero (n : nat) : forall (c : ClosedLoop.t PyNum.t) p,
  is_zero (ClosedLoop.Ki c) = true ->
  is_zero (ClosedLoop.integral c) = true ->
  ClosedLoop.period c = PyNum.PyFloat p -> is_finite p = true ->
  is_finite (PyNum.to_float prec emax
               (PyNum.py_sub prec emax (ClosedLoop.ref c) (ClosedLoop.meas c))) = true ->
  is_zero (ClosedLoop.integral
             (@ClosedLoop.updates _ (PyNum.number prec emax) n c)) = true.
Proof.
  induction n as [|n IH]; intros c p HK HI Hp Hfin He; [exact HI|].
  cbn [ClosedLoop.updates].
  destruct (float_update_keeps_zero c p HK HI Hp Hfin He) as [s Hs].
  apply (IH _ p); try assumption.
  rewrite Hs. reflexivity.
Qed.

(** With a zero integral gain and finite error and period, every
    [update()] returns, in floats too, a value [==] to Kp*(ref - meas). *)
Lemma float_zero_gain_output (period Kp Ki ref meas : PyNum.t) (n : nat) :
  is_zero Ki = true ->
  is_finite (PyNum.to_float prec emax (PyNum.py_sub prec emax ref meas)) = true ->
  is_finite (PyNum.to_float prec emax
               (PyNum.py_truediv prec emax period (PyNum.PyInt 1000))) = true ->
  survives_conversion prec emax
    (PyNum.py_mul prec emax Kp (PyNum.py_sub prec emax ref meas)) ->
  PyNum.py_eq
    (fst (@ClosedLoop.update _ (PyNum.number prec emax)
            (@ClosedLoop.updates _ (PyNum.number prec emax) n
               (@ClosedLoop.init _ (PyNum.number prec emax) period Kp Ki ref meas))))
    (PyNum.py_mul prec emax Kp (PyNum.py_sub prec emax ref meas)).
Proof.
  intros HK He Hp Hs.
  set (c0 := @ClosedLoop.init _ (PyNum.number prec emax) period Kp Ki ref meas).
  set (c := @ClosedLoop.updates _ (PyNum.number prec emax) n c0).
  destruct (@updates_fields _ (PyNum.number prec emax) n c0)
    as (H1 & H2 & H3 & H4 & H5).
  fold c in H1, H2, H3, H4, H5.
  assert (HI : is_zero (ClosedLoop.integral c) = true).
  { apply (float_updates_keep_zero n c0
             (PyNum.quotient prec emax period (PyNum.PyInt 1000)));
      try assumption; reflexivity. }
  destruct (float_update_keeps_zero c
              (PyNum.quotient prec emax period (PyNum.PyInt 1000)))
    as [s Hz].
  - rewrite H2. exact HK.
  - exact HI.
  - rewrite H5. reflexivity.
  - exact Hp.
  - rewrite H3, H4. exact He.
  - change (fst (@ClosedLoop.update _ (PyNum.number prec emax) c))
      with (PyNum.py_add prec emax
              (PyNum.py_mul prec emax (ClosedLoop.Kp c)
                 (PyNum.py_sub prec emax (ClosedLoop.ref c) (ClosedLoop.meas c)))
              (ClosedLoop.integral
                 (snd (@ClosedLoop.update _ (PyNum.number prec emax) c)))).
    rewrite Hz, H1, H3, H4. apply py_add_zero_r. exact Hs.
Qed.

End FloatClosedLoop.

(** C8, counterexample.  [ClosedLoop(100, 0, 1, 1, 0)]: period 0.1 s,
    Kp = 0, Ki = 1, error 1.  After ten updates the integral is
    0.9999999999999999 in the 64-bit floats of CPython and 1.0000001 in
    the 32-bit floats of MicroPython, while Ki*e*period*n is 1.0 in both. *)
Lemma closed_loop_float_integral_is_not_the_product :
  ClosedLoop.integral (ten_updates PyNum.binary64)
    = PyNum.PyFloat (S754_finite false 9007199254740991 (-53))
  /\ @integral_product _ PyNum.binary64
       (PyNum.PyInt 1) (PyNum.PyInt 1) (ClosedLoop.period (ten_updates PyNum.binary64)) 10
     = PyNum.PyFloat (S754_finite false 4503599627370496 (-52))
  /\ ~ @num_eq _ PyNum.binary64
         (ClosedLoop.integral (ten_updates PyNum.binary64))
         (@integral_product _ PyNum.binary64
            (PyNum.PyInt 1) (PyNum.PyInt 1)
            (ClosedLoop.period (ten_updates PyNum.binary64)) 10)
  /\ ClosedLoop.integral (ten_updates PyNum.binary32)
     = PyNum.PyFloat (S754_finite false 8388609 (-23))
  /\ ~ @num_eq _ PyNum.binary32
         (ClosedLoop.integral (ten_updates PyNum.binary32))
         (@integral_product _ PyNum.binary32
            (PyNum.PyInt 1) (PyNum.PyInt 1)
            (ClosedLoop.period (ten_updates PyNum.binary32)) 10).
Proof.
  split; [vm_compute; reflexivity|].
  split; [vm_compute; reflexivity|].
  split; [vm_compute; discriminate|].
  split; [vm_compute; reflexivity|].
  vm_compute; discriminate.
Qed.

(** With integer arguments past 2^53 the float addition of [update]
    rounds the proportional term as well. *)
Example closed_loop_float_output_rounds :
  let c := @ClosedLoop.init PyNum.t PyNum.binary64
             (PyNum.PyInt 1) (PyNum.PyInt 1) (PyNum.PyInt 0)
             (PyNum.PyInt 9007199254740993) (PyNum.PyInt 0) in
  fst (@ClosedLoop.update _ PyNum.binary64 c)
    = PyNum.PyFloat (S754_finite false 4503599627370496 1)
  /\ ~ @num_eq _ PyNum.binary64 (fst (@ClosedLoop.update _ PyNum.binary64 c))
         (PyNum.PyInt (1 * (9007199254740993 - 0))).
Proof.
  cbv zeta. split; [vm_compute; reflexivity|].
  vm_compute. discriminate.
Qed.

(** C8, amended.  In exact arithmetic: a controller constructed with
    Ki = 0 returns Kp*(ref - meas) from every [update()], with the gain
    and reference then current if [set_Kp] or [setpoint] were called; and
    for a constant error e = ref - meas the integral after n updates is
    Ki*e*(period/1000)*n, whatever Kp is, which for Kp = 0 is also what
    the updates return.  In Python's floats of either format, for
    arguments that are floats or integers of at most [prec] bits: the
    integral after n updates is the running sum of n rounded additions of
    Ki*e*(period/1000); and with Ki = 0, a finite error and period, and
    Kp*e a float other than NaN or an integer the format holds exactly,
    every [update()] returns a value [==] to Kp*e. *)
Theorem closed_loop_update_arithmetic
    (period Kp Ki ref meas : Q) (calls : list (ClosedLoop.call Q)) (n : nat)
    (prec emax : Z) (fperiod fKp fKi fref fmeas : PyNum.t) :
  ((let c := ClosedLoop.run (ClosedLoop.init period Kp 0%Q ref meas) calls in
    fst (ClosedLoop.update c) == ClosedLoop.Kp c * (ClosedLoop.ref c - meas))
   /\ fst (ClosedLoop.update
             (ClosedLoop.updates n (ClosedLoop.init period Kp 0%Q ref meas)))
      == Kp * (ref - meas)
   /\ ClosedLoop.integral
        (ClosedLoop.updates n (ClosedLoop.init period Kp Ki ref meas))
      == Ki * (ref - meas) * (period / 1000) * inject_Z (Z.of_nat n)
   /\ fst (ClosedLoop.update
             (ClosedLoop.updates n (ClosedLoop.init period 0%Q Ki ref meas)))
      == Ki * (ref - meas) * (period / 1000) * inject_Z (Z.of_nat (S n)))%Q
  /\ (roomy prec emax ->
      Forall (fits prec) [fperiod; fKp; fKi; fref; fmeas] ->
      ClosedLoop.integral
        (@ClosedLoop.updates _ (PyNum.number prec emax) n
           (@ClosedLoop.init _ (PyNum.number prec emax) fperiod fKp fKi fref fmeas))
      = Nat.iter n
          (fun acc =>
             PyNum.py_add prec emax acc
               (PyNum.py_mul prec emax
                  (PyNum.py_mul prec emax fKi (PyNum.py_sub prec emax fref fmeas))
                  (PyNum.py_truediv prec emax fperiod (PyNum.PyInt 1000))))
          (PyNum.PyInt 0)
      /\ (is_zero fKi = true ->
          is_finite (PyNum.to_float prec emax (PyNum.py_sub prec emax fref fmeas)) = true ->
          is_finite (PyNum.to_float prec emax
                       (PyNum.py_truediv prec emax fperiod (PyNum.PyInt 1000))) = true ->
          survives_conversion prec emax
            (PyNum.py_mul prec emax fKp (PyNum.py_sub prec emax fref fmeas)) ->
          PyNum.py_eq
            (fst (@ClosedLoop.update _ (PyNum.number prec emax)
                    (@ClosedLoop.updates _ (PyNum.number prec emax) n
                       (@ClosedLoop.init _ (PyNum.number prec emax)
                          fperiod fKp fKi fref fmeas))))
            (PyNum.py_mul prec emax fKp (PyNum.py_sub prec emax fref fmeas)))).
Proof.
  split; [apply exact_closed_loop|]. intros _ _. split.
  - rewrite (@updates_running_sum _ (PyNum.number prec emax)). reflexivity.
  - apply float_zero_gain_output.
Qed.

(** C8, amended, for [ClosedLoop(5, 1.6, 0, 25, 12.5)] in 64-bit floats:
    the fourth [update()] returns a value [==] to 1.6*(25 - 12.5). *)
Lemma closed_loop_update_arithmetic_witness :
  PyNum.py_eq
    (fst (@ClosedLoop.update _ PyNum.binary64
            (@ClosedLoop.updates _ PyNum.binary64 3
               (@ClosedLoop.init _ PyNum.binary64
                  (PyNum.PyInt 5) (py_float 53 1024 16 10) (PyNum.PyInt 0)
                  (PyNum.PyInt 25) (py_float 53 1024 25 2)))))
    (PyNum.py_mul 53 1024 (py_float 53 1024 16 10)
       (PyNum.py_sub 53 1024 (PyNum.PyInt 25) (py_float 53 1024 25 2))).
Proof.
  destruct (closed_loop_update_arithmetic 5 (16 # 10) 0 25 (25 # 2) [] 3 53 1024
              (PyNum.PyInt 5) (py_float 53 1024 16 10) (PyNum.PyInt 0)
              (PyNum.PyInt 25) (py_float 53 1024 25 2)) as (_ & Hfloat).
  destruct Hfloat as (_ & Hfloat).
  - unfold roomy. lia.
  - repeat constructor; vm_compute; first [exact I | discriminate].
  - apply Hfloat.
    + reflexivity.
    + reflexivity.
    + reflexivity.
    + vm_compute. discriminate.
Defined.

(** * Part IV: further properties of the sources *)

Section EncoderTrackingFacts.
Import Encoder.

(** One update moves the position by the raw jump up to a whole number of
    counter periods. *)
Lemma update_keeps_congruence auto_r c e k :
  calibrated auto_r e ->
  position e = old_count e + k * (auto_r + 1) ->
  exists k', position (update c e) = old_count (update c e) + k' * (auto_r + 1).
Proof.
  intros He Hk.
  pose proof (update_delta auto_r c e He) as Hd.
  change (position (update c e)) with (position e + get_delta (update c e)).
  change (old_count (update c e)) with c.
  rewrite Hd, Hk. unfold corrected.
  destruct (Z.ltb_spec (auto_r + 1) (2 * (c - old_count e))).
  - exists (k - 1). lia.
  - destruct (Z.ltb_spec (2 * (c - old_count e)) (- (auto_r + 1))).
    + exists (k + 1). lia.
    + exists k. lia.
Qed.

Lemma run_keeps_congruence auto_r cs : forall e k,
  calibrated auto_r e ->
  position e = old_count e + k * (auto_r + 1) ->
  exists k', position (run e cs) = old_count (run e cs) + k' * (auto_r + 1).
Proof.
  induction cs as [|c cs IH]; intros e k He Hk; [exists k; exact Hk|].
  cbn [run fold_left]. fold (run (do_call e c) cs).
  destruct c as [counter|].
  - destruct (update_keeps_congruence auto_r counter e k He Hk) as (k' & Hk').
    apply (IH _ k'); [apply calibrated_update; exact He | exact Hk'].
  - apply (IH _ 0); [apply calibrated_zero; exact He | reflexivity].
Qed.

(** X1.  Whatever the timer shows and however [update()] and [zero()]
    are interleaved, the position and the last counter value agree up to
    a whole number of counter periods, and [count] is [old_count]: the
    correction of a wrap never loses or invents a tick.  In particular
    the first [update()] after a [zero()] leaves a position congruent to
    the counter itself. *)
Theorem encoder_position_congruent_to_counter
    (auto_r : Z) (history : list call) (c : Z) :
  let e := run (init auto_r) history in
  (exists k, get_position e = old_count e + k * (auto_r + 1))
  /\ count e = old_count e
  /\ (exists k, get_position (update c e) = c + k * (auto_r + 1))
  /\ (exists k, get_position (update c (zero e)) = c + k * (auto_r + 1)).
Proof.
  intros e.
  assert (He : calibrated auto_r e) by (apply calibrated_run, calibrated_init).
  assert (Hk : exists k, position e = old_count e + k * (auto_r + 1)).
  { apply (run_keeps_congruence auto_r history (init auto_r) 0);
      [apply calibrated_init | reflexivity]. }
  split; [exact Hk|]. split.
  - unfold e. clear.
    induction history as [|c cs _] using rev_ind; [reflexivity|].
    unfold run. rewrite fold_left_app. cbn [fold_left].
    destruct c; reflexivity.
  - split.
    + destruct Hk as (k & Hk).
      apply (update_keeps_congruence auto_r c e k He Hk).
    + apply (update_keeps_congruence auto_r c (zero e) 0);
        [apply calibrated_zero; exact He | reflexivity].
Qed.

(** The correction undoes the wrap of the timer when the wheel has moved
    by less than half a period. *)
Lemma corrected_small_step auto_r prev p :
  0 <= auto_r ->
  2 * Z.abs (p - prev) < auto_r + 1 ->
  corrected auto_r (counter_at auto_r p - counter_at auto_r prev) = p - prev.
Proof.
  intros Hr Hs. unfold counter_at.
  set (N := auto_r + 1) in *.
  assert (HN : 0 < N) by lia.
  pose proof (Z.mod_pos_bound p N HN) as Hp.
  pose proof (Z.mod_pos_bound prev N HN) as Hq.
  pose proof (Z.div_mod p N ltac:(lia)) as Ep.
  pose proof (Z.div_mod prev N ltac:(lia)) as Eq.
  set (a := p / N) in *. set (b := prev / N) in *.
  set (x := p mod N) in *. set (y := prev mod N) in *.
  assert (Hk : a - b = -1 \/ a - b = 0 \/ a - b = 1) by nia.
  unfold corrected. fold N.
  destruct (Z.ltb_spec N (2 * (x - y))); destruct (Z.ltb_spec (2 * (x - y)) (- N)); nia.
Qed.

Lemma last_of_nonempty (l : list Z) : forall a d d',
  last (a :: l) d = last (a :: l) d'.
Proof.
  induction l as [|b l IH]; intros a d d'; [reflexivity|].
  change (last (a :: b :: l) d) with (last (b :: l) d).
  change (last (a :: b :: l) d') with (last (b :: l) d').
  apply IH.
Qed.

Lemma tracking auto_r places : forall e prev,
  0 <= auto_r ->
  tuned auto_r e ->
  old_count e = counter_at auto_r prev ->
  small_steps auto_r prev places ->
  deltas e (map (counter_at auto_r) places) = jumps prev places /\
  get_position (updates e (map (counter_at auto_r) places))
  = get_position e + (last places prev - prev).
Proof.
  induction places as [|p rest IH]; intros e prev Hr He Ho Hs.
  - cbn. split; [reflexivity | lia].
  - destruct Hs as [Hstep Hrest].
    cbn [map deltas jumps].
    change (updates e (counter_at auto_r p :: map (counter_at auto_r) rest))
      with (updates (update (counter_at auto_r p) e) (map (counter_at auto_r) rest)).
    assert (Hd : get_delta (update (counter_at auto_r p) e) = p - prev).
    { rewrite (update_delta_tuned auto_r) by exact He. rewrite Ho.
      apply corrected_small_step; assumption. }
    destruct (IH (update (counter_at auto_r p) e) p Hr
                (tuned_update auto_r _ e He) eq_refl Hrest) as [Hds Hpos].
    split.
    + rewrite Hd, Hds. reflexivity.
    + rewrite Hpos, update_position, Hd.
      destruct rest as [|r rest']; [cbn [last]; lia|].
      change (last (p :: r :: rest') prev) with (last (r :: rest') prev).
      rewrite (last_of_nonempty rest' r prev p). lia.
Qed.

(** X2.  A float format of [prec] bits, a timer of period [auto_r] with
    [auto_r + 1] below 2^prec that starts at 0, and a wheel that turns by
    less than half a period between samples: the constructor succeeds,
    every [update()] stores the true movement since the previous sample,
    and the position is the true place of the wheel, however often the
    counter has wrapped in either direction. *)
Theorem encoder_tracks_small_steps (prec emax auto_r : Z) (places : list Z) :
  2 < prec < emax ->
  0 <= auto_r -> auto_r + 1 < 2 ^ prec ->
  small_steps auto_r 0 places ->
  exists e0,
    FloatEncoder.init prec emax auto_r = Some e0 /\
    let samples := map (counter_at auto_r) places in
    deltas e0 samples = jumps 0 places /\
    get_position (updates e0 samples) = last places 0.
Proof.
  intros Hfmt Hr Hb Hs.
  destruct (float_init_tuned prec emax auto_r Hfmt Hr Hb)
    as (e0 & Hinit & H0 & Hold & Hpos0).
  exists e0. split; [exact Hinit|]. intros samples.
  destruct (tracking auto_r places e0 0 Hr H0) as [Hd Hp].
  - rewrite Hold. unfold counter_at. rewrite Z.mod_0_l; lia.
  - exact Hs.
  - split; [exact Hd|]. unfold samples. rewrite Hp, Hpos0. lia.
Qed.

(** X2 in 64-bit floats at the period of main.py: the wheel runs forward
    through two wraps of the counter and then back below zero. *)
Lemma encoder_tracks_small_steps_witness :
  map (counter_at 62354)
    [30000; 60000; 90000; 120000; 150000; 125000; 95000; 65000; 35000; 5000; -25000]
  = [30000; 60000; 27645; 57645; 25290; 290; 32645; 2645; 35000; 5000; 37355] /\
  exists e0,
    FloatEncoder.init 53 1024 62354 = Some e0 /\
    get_position
      (updates e0
         (map (counter_at 62354)
            [30000; 60000; 90000; 120000; 150000; 125000; 95000; 65000; 35000;
             5000; -25000]))
    = -25000.
Proof.
  split; [reflexivity|].
  destruct (encoder_tracks_small_steps 53 1024 62354
              [30000; 60000; 90000; 120000; 150000; 125000; 95000; 65000; 35000;
               5000; -25000])
    as (e0 & Hinit & _ & Hp).
  - lia.
  - lia.
  - vm_compute. reflexivity.
  - cbn [small_steps]. repeat (split; [lia|]). exact I.
  - exists e0. split; [exact Hinit | exact Hp].
Defined.

End EncoderTrackingFacts.

Section MotorFrame.
Import Motor.

(** The dispatch in a state from 0 to 13: it never raises, and this is
    what it does to the task, the driver and the queues. *)
Lemma dispatch_frame i m w :
  0 <= state m <= 13 ->
  exists m' w' ev,
    dispatch i (m, w) = (Ok tt, (m', w')) /\
    trace w' = trace w ++ ev /\
    same_constants m m' /\
    mot m' = driven (duties ev) (mot m) /\
    (forall q, puts_to q ev = []) /\
    (forall q,
       if (state m =? 0) && polls m q && Queue.any (queue q w)
       then without_head (state m') (queue q w) (queue q w') /\ duties ev = []
       else queue q w' = queue q w) /\
    (as_built m -> Forall (fun d => -70 <= d <= 100) (duties ev)) /\
    (1 <= state m <= 12 -> set m = "R" \/ set m = "L" -> as_built m ->
     duties ev = [wheel_duty m (state m)] /\ state m' = 0) /\
    (turned m -> turned m' /\ (state m = 13 -> ev = [print "DONE"] /\ state m' = 0)) /\
    (state m = 13 -> back m = 1 ->
     enc m' = Encoder.update (counter' i) (Encoder.zero (enc m)) /\
     duties ev = [if Z.abs (turn_position i m) <? 1440 then -3 else 0] /\
     (1440 <= Z.abs (turn_position i m) ->
      turned m' /\ state m' = (if count m <? 1000 then 13 else 0)) /\
     (Z.abs (turn_position i m) < 1440 -> state m' = 13 /\ back m' = 1)).
Proof.
  intros Hst.
  assert (Hcases : state m = 0 \/ state m = 1 \/ state m = 2 \/ state m = 3 \/
                   state m = 4 \/ state m = 5 \/ state m = 6 \/ state m = 7 \/
                   state m = 8 \/ state m = 9 \/ state m = 10 \/ state m = 11 \/
                   state m = 12 \/ state m = 13) by lia.
  rewrite dispatch_eq.
  repeat (destruct Hcases as [Hk | Hcases]); try rename Hcases into Hk;
    rewrite Hk; cbn [Z.eqb Pos.eqb].
  1: { rewrite state0_eq.
       destruct (String.eqb (set m) "R") eqn:ER;
         [|destruct (String.eqb (set m) "L") eqn:EL]; rewrite ?poll_eq;
         cbn [queue];
         try (destruct (Queue.items (queue_r w)) eqn:Eq);
         try (destruct (Queue.items (queue_l w)) eqn:Eq');
         frame_done. }
  13: { unfold turn_position, state13, set_duty_call, enc_zero_call, enc_update_call,
          enc_get_position_call, bind, assign, emit, self, ret.
        task_cbn.
        destruct ((back m =? 0) && (turn m =? 0) && (forw m =? 0)) eqn:E1; task_cbn.
        - frame_done.
        - destruct (back m =? 1) eqn:E2; task_cbn.
          + destruct (Z.abs _ <? 1440) eqn:E3; task_cbn.
            * frame_done.
            * destruct (count m <? 1000) eqn:E4; task_cbn; frame_done.
          + frame_done. }
  all: rewrite ?graded_eq;
    try (destruct (String.eqb (set m) "R") eqn:ER;
         [|destruct (String.eqb (set m) "L") eqn:EL]);
    frame_done.
Qed.

(** One pass, however it ends: what it leaves alone, what it takes from
    the queues, what it commands. *)
Lemma mot_gen_frame i m w :
  exists r m' w' ev,
    mot_gen i (m, w) = (r, (m', w')) /\
    trace w' = trace w ++ measure_events ++ ev /\
    same_constants m m' /\
    mot m' = driven (duties ev) (mot m) /\
    (forall q, puts_to q ev = []) /\
    (forall q,
       if takes i m w q
       then without_head (state m') (queue q w) (queue q w') /\
            r = Ok (state m') /\ duties ev = []
       else queue q w' = queue q w) /\
    (as_built m -> Forall (fun d => -70 <= d <= 100) (duties ev)) /\
    (now i <> start m -> 1 <= state m <= 12 ->
     set m = "R" \/ set m = "L" -> as_built m ->
     r = Ok 0 /\ duties ev = [wheel_duty m (state m)] /\ state m' = 0) /\
    (turned m ->
     turned m' /\
     (state m = 13 -> now i <> start m -> r = Ok 0 /\ ev = [print "DONE"])) /\
    (state m = 13 -> back m = 1 -> now i <> start m ->
     r = Ok (state m') /\
     enc m' = Encoder.update (counter' i) (Encoder.zero (enc m)) /\
     duties ev = [if Z.abs (turn_position i m) <? 1440 then -3 else 0] /\
     (1440 <= Z.abs (turn_position i m) ->
      turned m' /\ state m' = (if count m <? 1000 then 13 else 0)) /\
     (Z.abs (turn_position i m) < 1440 -> state m' = 13 /\ back m' = 1)).
Proof.
  rewrite mot_gen_unfold. unfold takes.
  destruct (Z.eqb_spec (now i) (start m)) as [He|Hne]; cbn [negb andb].
  - rewrite (measure_raises i m w He).
    eexists _, _, _, []. split; [reflexivity|]. split.
    { cbn [trace log]. rewrite <- !app_assoc. reflexivity. }
    split; [repeat split|]. split; [reflexivity|].
    split; [intros q; destruct q; reflexivity|].
    split; [intros q; destruct q; reflexivity|].
    split; [intros _; constructor|].
    split; [intros Hn; contradiction|]. split.
    + intros Ht. split; [exact Ht|]. intros _ Hn. contradiction.
    + intros _ _ Hn. contradiction.
  - rewrite (measure_ok i m w Hne).
    assert (Hdec : 0 <= state m <= 13 \/ ~ 0 <= state m <= 13) by lia.
    destruct Hdec as [Hst|Hst].
    + destruct (dispatch_frame i (measured i m)
                  (log enc_get_delta (log ticks_ms (log enc_update w))))
        as (m' & w' & ev & Hrun & Htr & Hc & Hm & Hp & Hq & Hd & Hg & Ht & Hr);
        [exact Hst|].
      rewrite Hrun. cbn [fst snd].
      change (state (measured i m)) with (state m) in *.
      change (back (measured i m)) with (back m) in *.
      change (count (measured i m)) with (count m) in *.
      change (mot (measured i m)) with (mot m) in *.
      change (polls (measured i m)) with (polls m) in *.
      change (wheel_duty (measured i m)) with (wheel_duty m) in *.
      change (turn_position i (measured i m)) with (turn_position i m) in *.
      change (enc (measured i m)) with (Encoder.update (counter i) (enc m)) in *.
      exists (Ok (state m')), m', w', ev.
      split; [reflexivity|]. split.
      { rewrite Htr. cbn [trace log]. rewrite <- !app_assoc. reflexivity. }
      split; [exact Hc|]. split; [exact Hm|]. split; [exact Hp|]. split.
      { intros q. specialize (Hq q).
        destruct q; cbn [queue log queue_r queue_l] in Hq |- *;
          destruct ((state m =? 0) && polls m _ && Queue.any _);
          solve [exact Hq
                | destruct Hq as [[Hw Hz] Hn]; repeat split;
                  first [assumption | reflexivity]]. }
      split; [exact Hd|]. split.
      { intros _ Hs Hw Hb. destruct (Hg Hs Hw Hb) as [Hdu Hs'].
        rewrite Hs'. repeat split; assumption. }
      split.
      { intros Htu. destruct (Ht Htu) as [Ht' H13]. split; [exact Ht'|].
        intros Hs _. destruct (H13 Hs) as [Hev Hs']. rewrite Hs'.
        split; [reflexivity | exact Hev]. }
      intros Hs Hb _. destruct (Hr Hs Hb) as (He & Hdu & Hfar & Hnear).
      split; [reflexivity|]. split; [exact He|]. split; [exact Hdu|].
      split; assumption.
    + rewrite dispatch_invalid by exact Hst.
      assert (H0 : (state m =? 0) = false) by (apply Z.eqb_neq; lia).
      rewrite H0. cbn [andb].
      eexists _, _, _, []. split; [reflexivity|]. split.
      { cbn [trace log]. rewrite <- !app_assoc. reflexivity. }
      split; [repeat split|]. split; [reflexivity|].
      split; [intros q; destruct q; reflexivity|].
      split; [intros q; destruct q; reflexivity|].
      split; [intros _; constructor|].
      split; [intros _ Hs; lia|]. split.
      * intros Ht. split; [exact Ht|]. intros Hs. lia.
      * intros Hs. lia.
Qed.

Lemma driven_within_limits ds : forall mot,
  Forall (fun d => -70 <= d <= 100) ds ->
  0 <= L6206.PWM_1 mot <= 100 ->
  0 <= L6206.PWM_1 (driven ds mot) <= 100.
Proof.
  induction ds as [|d ds IH]; intros mot Hds Hm; [exact Hm|].
  inversion Hds as [|? ? Hd Hrest]; subst.
  apply IH; [exact Hrest|].
  unfold L6206.set_duty. destruct (d >=? 0); cbn [L6206.PWM_1]; lia.
Qed.

Lemma as_built_kept m m' : same_constants m m' -> as_built m -> as_built m'.
Proof.
  intros (_ & H1 & H2 & H3 & H4 & H5 & H6 & H7 & _) (B1 & B2 & B3 & B4 & B5 & B6 & B7).
  repeat split; congruence.
Qed.

Lemma polls_wheel m q : polls m q = true -> set m = "R" \/ set m = "L".
Proof.
  unfold polls. destruct q; intros H; apply String.eqb_eq in H; auto.
Qed.

Lemma polls_one_queue m q q' : polls m q = true -> q' <> q -> polls m q' = false.
Proof.
  unfold polls. intros H Hne. apply String.eqb_eq in H.
  destruct q, q'; try congruence; rewrite H; reflexivity.
Qed.

(** The pass that takes a code from the queue. *)
Lemma mot_gen_take i m w q code rest :
  state m = 0 ->
  polls m q = true ->
  Queue.items (queue q w) = code :: rest ->
  now i <> start m ->
  exists m1 w1 ev,
    mot_gen i (m, w) = (Ok code, (m1, w1)) /\
    trace w1 = trace w ++ measure_events ++ ev /\
    duties ev = [] /\
    state m1 = code /\ same_constants m m1 /\ start m1 = now i /\
    Queue.items (queue q w1) = rest /\
    Queue.size (queue q w1) = Queue.size (queue q w) /\
    (forall q', q' <> q -> queue q' w1 = queue q' w).
Proof.
  intros Hst Hpoll Hq Hne.
  destruct (mot_gen_frame i m w)
    as (r1 & m1 & w1 & ev1 & Hrun1 & Htr1 & Hc1 & _ & _ & Hq1 & _).
  assert (Htake : takes i m w q = true).
  { unfold takes, Queue.any. rewrite Hpoll, Hq, Hst.
    destruct (Z.eqb_spec (now i) (start m)); [contradiction | reflexivity]. }
  pose proof (Hq1 q) as Hown. rewrite Htake in Hown.
  destruct Hown as ((Hitems & Hsize) & Hr1 & Hd1).
  rewrite Hq in Hitems. injection Hitems as Hs1 Hrest.
  exists m1, w1, ev1.
  split; [rewrite Hrun1, Hr1, <- Hs1; reflexivity|].
  split; [exact Htr1|]. split; [exact Hd1|]. split; [symmetry; exact Hs1|].
  split; [exact Hc1|]. split.
  { apply (mot_gen_sets_start i m w (state m1) m1 w1). rewrite Hrun1, Hr1. reflexivity. }
  split; [symmetry; exact Hrest|]. split; [exact Hsize|].
  intros q' Hneq. specialize (Hq1 q').
  unfold takes in Hq1. rewrite (polls_one_queue m q q' Hpoll Hneq) in Hq1.
  rewrite Bool.andb_false_r in Hq1. cbn [andb] in Hq1. exact Hq1.
Qed.

(** The pass that acts on a code from 1 to 12. *)
Lemma mot_gen_act i m w :
  1 <= state m <= 12 ->
  set m = "R" \/ set m = "L" ->
  as_built m ->
  now i <> start m ->
  exists m2 w2 ev,
    mot_gen i (m, w) = (Ok 0, (m2, w2)) /\
    trace w2 = trace w ++ measure_events ++ ev /\
    duties ev = [wheel_duty m (state m)] /\
    state m2 = 0 /\ same_constants m m2 /\ start m2 = now i /\
    (forall q, queue q w2 = queue q w).
Proof.
  intros Hst Hset Hb Hne.
  destruct (mot_gen_frame i m w)
    as (r2 & m2 & w2 & ev2 & Hrun2 & Htr2 & Hc2 & _ & _ & Hq2 & _ & Hg2 & _).
  destruct (Hg2 Hne Hst Hset Hb) as (Hr2 & Hd2 & Hs2).
  exists m2, w2, ev2.
  split; [rewrite Hrun2, Hr2; reflexivity|].
  split; [exact Htr2|]. split; [exact Hd2|]. split; [exact Hs2|].
  split; [exact Hc2|]. split.
  { apply (mot_gen_sets_start i m w 0 m2 w2). rewrite Hrun2, Hr2. reflexivity. }
  intros q. specialize (Hq2 q). unfold takes in Hq2.
  assert (H0 : (state m =? 0) = false) by (apply Z.eqb_neq; lia).
  rewrite H0, Bool.andb_false_r in Hq2. exact Hq2.
Qed.

End MotorFrame.

Section MotorMore.
Import Motor.

(** X3.  One pass of [mot_gen], however it ends, never calls [put], and
    it leaves both queues exactly as they were unless the tick is new,
    the task is in state 0 and a code waits in the queue its wheel polls
    ("R": [turn_q_r], "L": [turn_q_l]): then the pass removes the oldest
    code of that queue and nothing else, the code becomes the state and
    the yielded value, and the pass commands no duty. *)
Theorem mot_gen_takes_only_the_head_of_its_queue
    (i : inputs) (m : Motor.t) (w : world) :
  exists r m' w' ev,
    mot_gen i (m, w) = (r, (m', w')) /\
    trace w' = trace w ++ measure_events ++ ev /\
    (forall q, puts_to q ev = []) /\
    (forall q,
       if takes i m w q
       then exists v,
              without_head v (queue q w) (queue q w') /\
              r = Ok v /\ state m' = v /\ duties ev = []
       else queue q w' = queue q w).
Proof.
  destruct (mot_gen_frame i m w)
    as (r & m' & w' & ev & Hrun & Htr & _ & _ & Hp & Hq & _).
  exists r, m', w', ev.
  split; [exact Hrun|]. split; [exact Htr|]. split; [exact Hp|].
  intros q. specialize (Hq q). destruct (takes i m w q); [|exact Hq].
  destruct Hq as (Hw & Hr & Hd). exists (state m'). repeat split; try assumption.
  - apply Hw.
  - apply Hw.
Qed.

(** X3 for the right motor of main.py with the codes 4 and 3 waiting. *)
Lemma mot_gen_takes_only_the_head_of_its_queue_witness :
  exists r m' w' ev,
    mot_gen {| now := 5; counter := 2; counter' := 0 |}
      (right_motor, world_with [4; 3] [4; 3]) = (r, (m', w')) /\
    r = Ok 4 /\ Queue.items (queue_r w') = [3] /\ Queue.items (queue_l w') = [4; 3] /\
    duties ev = [].
Proof.
  destruct (mot_gen_takes_only_the_head_of_its_queue
              {| now := 5; counter := 2; counter' := 0 |}
              right_motor (world_with [4; 3] [4; 3]))
    as (r & m' & w' & ev & Hrun & _ & _ & Hq).
  exists r, m', w', ev. split; [exact Hrun|].
  pose proof (Hq turn_q_r) as Hr. pose proof (Hq turn_q_l) as Hl.
  cbn in Hr, Hl. destruct Hr as (v & (Hi & _) & Hr & _ & Hd).
  injection Hi as Hv Hrest. subst v.
  repeat split; [exact Hr | symmetry; exact Hrest | rewrite Hl; reflexivity | exact Hd].
Defined.

(** X4.  The constructor leaves a task within its limits: the constants
    of [__init__] and a pulse width of 0.  And a pass from such a task,
    in any state, at any tick and with any queue contents, commands only
    duties from -70 to 100, leaves the driver as those commands make it
    and nothing else, and ends within the limits again: no pass hands the
    PWM channel less than 0 or more than 100 percent. *)
Theorem mot_gen_keeps_duty_within_limits
    (i : inputs) (m : Motor.t) (w : world) :
  (forall motor encoder me_set, within_limits (Motor.init motor encoder me_set)) /\
  (within_limits m ->
   exists r m' w' ev,
     mot_gen i (m, w) = (r, (m', w')) /\
     trace w' = trace w ++ ev /\
     Forall (fun d => -70 <= d <= 100) (duties ev) /\
     mot m' = driven (duties ev) (mot m) /\
     within_limits m').
Proof.
  split.
  - intros motor encoder me_set. split; [repeat split|]. cbn. lia.
  - intros (Hb & Hpwm).
    destruct (mot_gen_frame i m w)
      as (r & m' & w' & ev & Hrun & Htr & Hc & Hm & _ & _ & Hd & _).
    exists r, m', w', (measure_events ++ ev).
    change (duties (measure_events ++ ev)) with (duties ev).
    split; [exact Hrun|]. split; [exact Htr|]. split; [exact (Hd Hb)|].
    split; [exact Hm|]. split; [exact (as_built_kept m m' Hc Hb)|].
    rewrite Hm. apply driven_within_limits; [exact (Hd Hb) | exact Hpwm].
Qed.

(** X4 for the left motor of main.py acting on code 5 (LEFT 3): duty -70,
    a pulse width of 70 with the direction pin high. *)
Lemma mot_gen_keeps_duty_within_limits_witness :
  exists r m' w' ev,
    mot_gen {| now := 5; counter := 2; counter' := 0 |}
      (with_state 5 left_motor, world_with [] []) = (r, (m', w')) /\
    trace w' = [] ++ ev /\
    duties ev = [-70] /\
    L6206.PWM_1 (mot m') = 70 /\ L6206.IN2 (mot m') = true /\
    within_limits m'.
Proof.
  destruct (mot_gen_keeps_duty_within_limits
              {| now := 5; counter := 2; counter' := 0 |}
              (with_state 5 left_motor) (world_with [] [])) as [_ H].
  destruct H as (r & m' & w' & ev & Hrun & Htr & _ & Hm & Hl).
  - split; [repeat split|]. cbn. lia.
  - exists r, m', w', ev. split; [exact Hrun|]. split; [exact Htr|].
    assert (Hev : ev = [enc_update; ticks_ms; enc_get_delta; set_duty (-70)]).
    { assert (Ht : trace w' = [enc_update; ticks_ms; enc_get_delta; set_duty (-70)]).
      { change w' with (snd (snd (r, (m', w')))). rewrite <- Hrun. reflexivity. }
      rewrite Htr in Ht. exact Ht. }
    rewrite Hm, Hev. repeat split; try reflexivity; apply Hl.
Defined.

(** X5.  At a new tick, a pass raises ValueError("Invalid State") exactly
    when the state is outside 0 to 13; it has then made the three calls
    that open every pass and nothing else: no duty command, the state,
    the driver and the queues are as before.  So a code outside 0 to 13
    in the wheel's queue is taken by one pass and ends the task at the
    next. *)
Theorem mot_gen_refuses_unknown_state
    (i i2 : inputs) (m : Motor.t) (w : world) :
  now i <> start m ->
  (fst (mot_gen i (m, w)) = Raise (ValueError "Invalid State")
   <-> ~ 0 <= state m <= 13) /\
  (~ 0 <= state m <= 13 ->
   exists m' w',
     mot_gen i (m, w) = (Raise (ValueError "Invalid State"), (m', w')) /\
     trace w' = trace w ++ measure_events /\
     state m' = state m /\ mot m' = mot m /\
     queue_r w' = queue_r w /\ queue_l w' = queue_l w) /\
  (forall q v rest,
     state m = 0 -> polls m q = true ->
     Queue.items (queue q w) = v :: rest ->
     ~ 0 <= v <= 13 -> now i2 <> now i ->
     exists m1 w1,
       mot_gen i (m, w) = (Ok v, (m1, w1)) /\
       fst (mot_gen i2 (m1, w1)) = Raise (ValueError "Invalid State")).
Proof.
  intros Hne.
  assert (Hbad : forall j n x, now j <> start n -> ~ 0 <= state n <= 13 ->
            mot_gen j (n, x) =
            (Raise (ValueError "Invalid State"),
             (measured j n, log enc_get_delta (log ticks_ms (log enc_update x))))).
  { intros j n x Hj Hn.
    rewrite mot_gen_unfold, (measure_ok j n x Hj), dispatch_invalid by exact Hn.
    reflexivity. }
  split; [split|split].
  - intros Hr Hst.
    destruct (mot_gen_effects i m w Hne Hst) as (st & m' & w' & ev & Hrun & _).
    rewrite Hrun in Hr. discriminate.
  - intros Hst. rewrite (Hbad i m w Hne Hst). reflexivity.
  - intros Hst. eexists _, _. split; [apply (Hbad i m w Hne Hst)|].
    split; [cbn [trace log]; rewrite <- !app_assoc; reflexivity|].
    repeat split.
  - intros q v rest Hs Hpoll Hq Hv Hne2.
    destruct (mot_gen_frame i m w)
      as (r & m1 & w1 & ev & Hrun & _ & _ & _ & _ & Hq1 & _).
    assert (Htake : takes i m w q = true).
    { unfold takes, Queue.any. rewrite Hpoll, Hq, Hs.
      destruct (Z.eqb_spec (now i) (start m)); [contradiction | reflexivity]. }
    specialize (Hq1 q). rewrite Htake in Hq1.
    destruct Hq1 as ((Hitems & _) & Hr & _).
    rewrite Hq in Hitems. injection Hitems as Hv1 _.
    exists m1, w1. split; [rewrite Hrun, Hr, <- Hv1; reflexivity|].
    assert (Hstart : start m1 = now i).
    { apply (mot_gen_sets_start i m w (state m1) m1 w1). rewrite Hrun, Hr. reflexivity. }
    rewrite Hbad; [reflexivity | congruence | rewrite <- Hv1; exact Hv].
Qed.

(** X5 for the right motor of main.py and the code 14. *)
Lemma mot_gen_refuses_unknown_state_witness :
  exists m1 w1,
    mot_gen {| now := 5; counter := 2; counter' := 0 |}
      (right_motor, world_with [14] []) = (Ok 14, (m1, w1)) /\
    fst (mot_gen {| now := 10; counter := 4; counter' := 0 |} (m1, w1))
    = Raise (ValueError "Invalid State").
Proof.
  destruct (mot_gen_refuses_unknown_state
              {| now := 5; counter := 2; counter' := 0 |}
              {| now := 10; counter := 4; counter' := 0 |}
              right_motor (world_with [14] [])) as (_ & _ & H).
  - cbn. lia.
  - apply (H turn_q_r 14 []); [reflexivity | reflexivity | reflexivity | lia | cbn; lia].
Defined.

(** X6.  A wheel's task with the constants of [__init__], in state 0,
    with a maneuver code from 1 to 12 at the head of its queue, run for
    two passes at new ticks: the first takes the code, the second commands
    exactly one duty and returns to state 0.  The duties are, for the
    codes 1 to 12, 25, 5, 15, 55, 100, 40, 40, -22, -67, -7, -12, 0 on
    the right wheel and 5, 25, 15, -25, -70, -10, -10, 55, 100, 40, 45, 0
    on the left: every LEFT code (1, 4, 5, 6, 7) drives the right wheel
    harder than the left, every RIGHT code (2, 8, 9, 10, 11) the left
    harder than the right, code 3 drives both alike and code 12 stops
    both. *)
Theorem mot_gen_code_duty_table
    (i1 i2 : inputs) (m : Motor.t) (w : world) (q : qname) (code : Z)
    (rest : list Z) :
  as_built m ->
  state m = 0 ->
  polls m q = true ->
  Queue.items (queue q w) = code :: rest ->
  1 <= code <= 12 ->
  now i1 <> start m ->
  now i2 <> now i1 ->
  (exists m1 w1 m2 w2 ev1 ev2,
     mot_gen i1 (m, w) = (Ok code, (m1, w1)) /\
     trace w1 = trace w ++ ev1 /\
     mot_gen i2 (m1, w1) = (Ok 0, (m2, w2)) /\
     trace w2 = trace w1 ++ ev2 /\
     duties (ev1 ++ ev2) = [wheel_duty m code] /\
     Queue.items (queue q w2) = rest /\
     state m2 = 0 /\ as_built m2)
  /\ Forall (fun c => left_duty c < right_duty c) left_codes
  /\ Forall (fun c => right_duty c < left_duty c) right_codes
  /\ right_duty 3 = left_duty 3
  /\ right_duty 12 = 0 /\ left_duty 12 = 0.
Proof.
  intros Hb Hst Hpoll Hq Hcode Hne1 Hne2.
  split.
  - destruct (mot_gen_take i1 m w q code rest Hst Hpoll Hq Hne1)
      as (m1 & w1 & ev1 & Hr1 & Ht1 & Hd1 & Hs1 & Hc1 & Hstart1 & Hrest & _).
    destruct (mot_gen_act i2 m1 w1)
      as (m2 & w2 & ev2 & Hr2 & Ht2 & Hd2 & Hs2 & Hc2 & _ & Hq2).
    { rewrite Hs1. exact Hcode. }
    { destruct Hc1 as (H & _). rewrite H. exact (polls_wheel m q Hpoll). }
    { exact (as_built_kept m m1 Hc1 Hb). }
    { congruence. }
    exists m1, w1, m2, w2, (measure_events ++ ev1), (measure_events ++ ev2).
    split; [exact Hr1|]. split; [exact Ht1|]. split; [exact Hr2|].
    split; [exact Ht2|]. split.
    { unfold duties in *. rewrite !flat_map_app, Hd1, Hd2.
      unfold wheel_duty. destruct Hc1 as (H & _). rewrite H, Hs1. reflexivity. }
    split; [rewrite Hq2; exact Hrest|]. split; [exact Hs2|].
    exact (as_built_kept m1 m2 Hc2 (as_built_kept m m1 Hc1 Hb)).
  - unfold left_codes, right_codes. repeat split; repeat constructor.
Qed.

(** X6 for the two motors of main.py and code 9 (RIGHT 3): -67 on the
    right wheel, 100 on the left. *)
Lemma mot_gen_code_duty_table_witness :
  (exists m1 w1 m2 w2 ev1 ev2,
     mot_gen {| now := 5; counter := 2; counter' := 0 |}
       (right_motor, world_with [9; 3] [9; 3]) = (Ok 9, (m1, w1)) /\
     mot_gen {| now := 10; counter := 9; counter' := 0 |} (m1, w1)
       = (Ok 0, (m2, w2)) /\
     duties (ev1 ++ ev2) = [-67])
  /\
  (exists m1 w1 m2 w2 ev1 ev2,
     mot_gen {| now := 5; counter := 2; counter' := 0 |}
       (left_motor, world_with [9; 3] [9; 3]) = (Ok 9, (m1, w1)) /\
     mot_gen {| now := 10; counter := 9; counter' := 0 |} (m1, w1)
       = (Ok 0, (m2, w2)) /\
     duties (ev1 ++ ev2) = [100]).
Proof.
  split.
  - destruct (mot_gen_code_duty_table
                {| now := 5; counter := 2; counter' := 0 |}
                {| now := 10; counter := 9; counter' := 0 |}
                right_motor (world_with [9; 3] [9; 3]) turn_q_r 9 [3])
      as ((m1 & w1 & m2 & w2 & ev1 & ev2 & H1 & _ & H2 & _ & Hd & _) & _);
      [repeat split | reflexivity | reflexivity | reflexivity | lia
      | cbn; lia | cbn; lia |].
    exists m1, w1, m2, w2, ev1, ev2. repeat split; assumption.
  - destruct (mot_gen_code_duty_table
                {| now := 5; counter := 2; counter' := 0 |}
                {| now := 10; counter := 9; counter' := 0 |}
                left_motor (world_with [9; 3] [9; 3]) turn_q_l 9 [3])
      as ((m1 & w1 & m2 & w2 & ev1 & ev2 & H1 & _ & H2 & _ & Hd & _) & _);
      [repeat split | reflexivity | reflexivity | reflexivity | lia
      | cbn; lia | cbn; lia |].
    exists m1, w1, m2, w2, ev1, ev2. repeat split; assumption.
Defined.

(** X7.  The scripted turn of state 13 runs once.  A pass of the
    reversing branch ([back] is 1) at a new tick ends, when the position
    it reads is 1440 ticks or more from zero, with duty 0 and with [turn]
    set and [back] cleared; it yields 13 again while [count] is below
    1000.  From then on no pass, at any tick, in any state and however it
    ends, clears [turn] or sets [back]; and a pass in state 13 at a new
    tick only prints "DONE", commands no duty and yields state 0.  (At an
    unchanged tick every pass raises ZeroDivisionError before it looks at
    the state.) *)
Theorem mot_gen_scripted_turn_runs_once
    (i : inputs) (m : Motor.t) (w : world) :
  (state m = 13 -> back m = 1 -> now i <> start m ->
   1440 <= Z.abs (turn_position i m) ->
   exists m' w' ev,
     mot_gen i (m, w) = (Ok (if count m <? 1000 then 13 else 0), (m', w')) /\
     trace w' = trace w ++ measure_events ++ ev /\
     duties ev = [0] /\ turned m') /\
  (turned m ->
   exists r m' w' ev,
     mot_gen i (m, w) = (r, (m', w')) /\
     trace w' = trace w ++ measure_events ++ ev /\
     turned m' /\
     (state m = 13 -> now i <> start m -> r = Ok 0 /\ ev = [print "DONE"])).
Proof.
  destruct (mot_gen_frame i m w)
    as (r & m' & w' & ev & Hrun & Htr & _ & _ & _ & _ & _ & _ & Ht & Hr).
  split.
  - intros Hs Hb Hne Hfar.
    destruct (Hr Hs Hb Hne) as (Hres & _ & Hd & Hturned & _).
    destruct (Hturned Hfar) as [Ht' Hs'].
    exists m', w', ev. split; [rewrite Hrun, Hres, Hs'; reflexivity|].
    split; [exact Htr|]. split; [|exact Ht'].
    rewrite Hd. destruct (Z.ltb_spec (Z.abs (turn_position i m)) 1440); [lia | reflexivity].
  - intros Htu. destruct (Ht Htu) as [Ht' Hdone].
    exists r, m', w', ev. repeat split; try assumption; apply Ht' || apply Hdone; assumption.
Qed.

(** X7 for the right motor of main.py in the reversing branch: the pass
    finds the counter at 2000 and ends the reversing, the next prints
    "DONE"; a later pass in state 13 prints "DONE" again. *)
Lemma mot_gen_scripted_turn_runs_once_witness :
  exists m2 w2 ev2 r3 m3 w3 ev3 r4 m4 w4 ev4,
    mot_gen {| now := 10; counter := 2000; counter' := 2000 |}
      (with_back 1 (with_state 13 right_motor), world_with [] [])
    = (Ok 13, (m2, w2)) /\
    duties ev2 = [0] /\ turned m2 /\
    mot_gen {| now := 15; counter := 2000; counter' := 2000 |} (m2, w2)
    = (r3, (m3, w3)) /\
    r3 = Ok 0 /\ ev3 = [print "DONE"] /\
    mot_gen {| now := 20; counter := 2000; counter' := 2000 |} (with_state 13 m3, w3)
    = (r4, (m4, w4)) /\
    r4 = Ok 0 /\ ev4 = [print "DONE"].
Proof.
  destruct (mot_gen_scripted_turn_runs_once
              {| now := 10; counter := 2000; counter' := 2000 |}
              (with_back 1 (with_state 13 right_motor)) (world_with [] [])) as [H2 _].
  destruct H2 as (m2 & w2 & ev2 & Hrun2 & _ & Hd2 & Ht2);
    [reflexivity | reflexivity | cbn; lia | vm_compute; discriminate |].
  change (if count (with_back 1 (with_state 13 right_motor)) <? 1000 then 13 else 0)
    with 13 in Hrun2.
  assert (Hstart2 : start m2 = 10) by exact (mot_gen_sets_start _ _ _ _ _ _ Hrun2).
  assert (Hs2 : state m2 = 13).
  { pose proof Hrun2 as H. rewrite mot_gen_unfold in H.
    destruct (measure _ _) as [[u|e] s1]; [|discriminate].
    destruct (dispatch _ s1) as [[u2|e2] s2]; [|discriminate].
    injection H as H1 H2. subst s2. exact H1. }
  destruct (mot_gen_scripted_turn_runs_once
              {| now := 15; counter := 2000; counter' := 2000 |} m2 w2) as [_ H3].
  destruct (H3 Ht2) as (r3 & m3 & w3 & ev3 & Hrun3 & _ & Ht3 & Hdone3).
  destruct Hdone3 as [Hr3 He3]; [exact Hs2 | cbn [now]; lia |].
  destruct (mot_gen_scripted_turn_runs_once
              {| now := 20; counter := 2000; counter' := 2000 |}
              (with_state 13 m3) w3) as [_ H4].
  destruct H4 as (r4 & m4 & w4 & ev4 & Hrun4 & _ & _ & Hdone4); [exact Ht3|].
  assert (Hs3 : start m3 = 15).
  { rewrite Hr3 in Hrun3. exact (mot_gen_sets_start _ _ _ _ _ _ Hrun3). }
  destruct Hdone4 as [Hr4 He4]; [reflexivity | cbn [now with_state start]; lia |].
  exists m2, w2, ev2, r3, m3, w3, ev3, r4, m4, w4, ev4.
  split; [exact Hrun2|]. split; [exact Hd2|]. split; [exact Ht2|].
  repeat split; assumption.
Defined.

Lemma position_after_zero auto_r c e :
  calibrated auto_r e ->
  Encoder.get_position (Encoder.update c (Encoder.zero e)) = corrected auto_r c.
Proof.
  intros He.
  change (Encoder.get_position (Encoder.update c (Encoder.zero e)))
    with (0 + Encoder.get_delta (Encoder.update c (Encoder.zero e))).
  rewrite (update_delta auto_r) by (apply calibrated_zero; exact He).
  change (Encoder.old_count (Encoder.zero e)) with 0.
  rewrite Z.sub_0_r. reflexivity.
Qed.

(** X8.  A reversing pass of the scripted turn (state 13, [back] is 1)
    zeroes the encoder and updates it before it reads the position, so
    what it compares with 1440 is the counter of the timer itself, taken
    as a signed value of the counter period, whatever position and
    count the encoder held before: the pass commands -3 when that value
    is less than 1440 ticks from zero and 0 otherwise. *)
Theorem mot_gen_reversing_reads_the_counter
    (auto_r : Z) (i : inputs) (m : Motor.t) (w : world) :
  calibrated auto_r (enc m) ->
  state m = 13 -> back m = 1 -> now i <> start m ->
  exists m' w' ev,
    mot_gen i (m, w) = (Ok (state m'), (m', w')) /\
    trace w' = trace w ++ measure_events ++ ev /\
    Encoder.get_position (enc m') = corrected auto_r (counter' i) /\
    duties ev = [if Z.abs (corrected auto_r (counter' i)) <? 1440 then -3 else 0].
Proof.
  intros He Hs Hb Hne.
  destruct (mot_gen_frame i m w)
    as (r & m' & w' & ev & Hrun & Htr & _ & _ & _ & _ & _ & _ & _ & Hr).
  destruct (Hr Hs Hb Hne) as (Hres & Henc & Hd & _).
  exists m', w', ev. split; [rewrite Hrun, Hres; reflexivity|].
  split; [exact Htr|].
  unfold turn_position in Hd. rewrite (position_after_zero auto_r) in Hd by exact He.
  split; [|exact Hd].
  rewrite Henc. apply position_after_zero. exact He.
Qed.

(** X8 for the right motor of main.py: its encoder has run up to 40000
    ticks, the counter shows 61000, which is -1355 as a signed value of
    the period 62355: the pass commands -3. *)
Lemma mot_gen_reversing_reads_the_counter_witness :
  let m := with_back 1 (with_state 13
             (with_enc (Encoder.updates (Encoder.init 62354) [20000; 40000])
                right_motor)) in
  Encoder.get_position (enc m) = 40000 /\
  exists m' w' ev,
    mot_gen {| now := 5; counter := 60990; counter' := 61000 |} (m, world_with [] [])
    = (Ok (state m'), (m', w')) /\
    Encoder.get_position (enc m') = -1355 /\
    duties ev = [-3].
Proof.
  intros m. split; [reflexivity|].
  destruct (mot_gen_reversing_reads_the_counter 62354
              {| now := 5; counter := 60990; counter' := 61000 |} m (world_with [] []))
    as (m' & w' & ev & Hrun & _ & Hp & Hd);
    [repeat split | reflexivity | reflexivity | cbn; lia |].
  exists m', w', ev. repeat split; assumption.
Defined.

End MotorMore.

Section ProducerFacts.

(** One pass of the classifier: the code it publishes is one of eight. *)
Lemma sen_gen_emits (r : Sensor.readings) (w : world) :
  exists code checks w',
    Sensor.sen_gen r (Sensor.init, w) = (Ok 0, (Sensor.init, w')) /\
    trace w' = trace w ++ checks
                 ++ [q_put turn_q_l code (negb (Queue.full (queue_l w)));
                     q_put turn_q_r code (negb (Queue.full (queue_r w)))] /\
    queue_l w' = snd (Queue.put code (queue_l w)) /\
    queue_r w' = snd (Queue.put code (queue_r w)) /\
    (forall q, puts_to q checks = []) /\
    duties checks = [] /\
    In code live_codes.
Proof.
  unfold Sensor.sen_gen, bind at 1, self at 1.
  cbn [fst snd Sensor.state Sensor.init Z.eqb Sensor.black Sensor.white].
  unfold Sensor.left_rule, Sensor.right_rule.
  repeat match goal with
         | |- context [if ?c then _ else _] =>
             lazymatch c with
             | Queue.full _ => fail
             | _ => let E := fresh "E" in
                    destruct c eqn:E; cbn [andb] in *; try discriminate
             end
         end;
    unfold bind, self, ret; rewrite ?publish_eq, ?report_and_publish_eq;
    cbn [fst snd Sensor.state Sensor.with_state];
    match goal with
    | |- context [after_put turn_q_r ?code (after_put turn_q_l ?code ?w1)] =>
        exists code;
        match w1 with
        | w =>
            exists [];
            destruct (after_puts code w w [] eq_refl eq_refl
                        (eq_sym (app_nil_r _))) as (Ht & Hl & Hr)
        | context [q_full ?checked] =>
            match w1 with
            | context [print ?msg] =>
                exists (full_check checked msg w);
                destruct (after_puts code w w1 (full_check checked msg w))
                  as (Ht & Hl & Hr);
                [destruct (Queue.full (queue checked w)); reflexivity
                |destruct (Queue.full (queue checked w)); reflexivity
                |unfold full_check;
                 destruct (Queue.full (queue checked w));
                 cbn [trace log]; rewrite <- ?app_assoc; reflexivity|]
            end
        end
    end;
    eexists; (split; [reflexivity|]);
    (split; [exact Ht|]); (split; [exact Hl|]); (split; [exact Hr|]);
    (split; [intros q; unfold full_check;
             try match goal with
                 | |- context [Queue.full ?x] => destruct (Queue.full x)
                 end; destruct q; reflexivity|]);
    (split; [unfold full_check;
             try match goal with
                 | |- context [Queue.full ?x] => destruct (Queue.full x)
                 end; reflexivity|]);
    unfold live_codes; cbn [In]; intuition.
Qed.

Lemma publish_publishes code w :
  publishes code w (bind (Sensor.publish code) yield_state (Sensor.init, w)).
Proof.
  unfold bind at 1. rewrite publish_eq. unfold yield_state, bind, self, ret.
  cbn [fst snd Sensor.state Sensor.with_state].
  destruct (after_puts code w w [] eq_refl eq_refl (eq_sym (app_nil_r _)))
    as (Ht & Hl & Hr).
  exists [], (after_put turn_q_r code (after_put turn_q_l code w)).
  split; [reflexivity|]. split; [exact Ht|]. split; [exact Hl|]. split; [exact Hr|].
  split; [intros q; reflexivity | reflexivity].
Qed.

Lemma report_and_publish_publishes checked msg code w :
  publishes code w
    (bind (Sensor.report_and_publish checked msg code) yield_state (Sensor.init, w)).
Proof.
  unfold bind at 1. rewrite report_and_publish_eq. unfold yield_state, bind, self, ret.
  cbn [fst snd Sensor.state Sensor.with_state].
  eexists (full_check checked msg w), _.
  split; [reflexivity|].
  destruct (after_puts code w
              (if Queue.full (queue checked w)
               then log (print msg) (log (q_full checked) w)
               else log (q_full checked) w)
              (full_check checked msg w)) as (Ht & Hl & Hr).
  - destruct (Queue.full (queue checked w)); reflexivity.
  - destruct (Queue.full (queue checked w)); reflexivity.
  - unfold full_check. destruct (Queue.full (queue checked w));
      cbn [trace log]; rewrite <- ?app_assoc; reflexivity.
  - split; [exact Ht|]. split; [exact Hl|]. split; [exact Hr|].
    unfold full_check. split.
    + intros q. destruct (Queue.full (queue checked w)); destruct q; reflexivity.
    + destruct (Queue.full (queue checked w)); reflexivity.
Qed.

Ltac fire_or_pass body code :=
  match goal with
  | |- context [if ?c then body else _] =>
      destruct c;
      [exists code; split; [lia|];
       first [apply publish_publishes | apply report_and_publish_publishes] |]
  end.

(** One pass with fresh reads publishes one code, from 1 to 11. *)
Lemma sen_gen_reads_publishes seen w :
  exists code, 1 <= code <= 11 /\
    publishes code w (Sensor.sen_gen_reads seen (Sensor.init, w)).
Proof.
  unfold Sensor.sen_gen_reads, bind at 1, self at 1.
  cbn [fst snd Sensor.state Sensor.init Z.eqb Sensor.black Sensor.white].
  fold yield_state. unfold Sensor.left_rule, Sensor.right_rule.
  fire_or_pass (Sensor.publish 3) 3.
  fire_or_pass (Sensor.report_and_publish turn_q_r "RIGHT QUEUE FULL" 1) 1.
  fire_or_pass (Sensor.report_and_publish turn_q_r "RIGHT QUEUE FULL" 4) 4.
  fire_or_pass (Sensor.report_and_publish turn_q_r "RIGHT QUEUE FULL" 5) 5.
  fire_or_pass (Sensor.report_and_publish turn_q_r "RIGHT QUEUE FULL" 6) 6.
  fire_or_pass (Sensor.report_and_publish turn_q_r "RIGHT QUEUE FULL" 7) 7.
  fire_or_pass (Sensor.report_and_publish turn_q_l "LEFT QUEUE FULL" 2) 2.
  fire_or_pass (Sensor.report_and_publish turn_q_l "LEFT QUEUE FULL" 8) 8.
  fire_or_pass (Sensor.report_and_publish turn_q_l "LEFT QUEUE FULL" 9) 9.
  fire_or_pass (Sensor.report_and_publish turn_q_l "LEFT QUEUE FULL" 10) 10.
  fire_or_pass (Sensor.report_and_publish turn_q_l "LEFT QUEUE FULL" 11) 11.
  exists 3. split; [lia|]. apply publish_publishes.
Qed.

Lemma sen_gen_reads_steady seen :
  steady seen -> Sensor.sen_gen_reads seen = Sensor.sen_gen (seen Sensor.GO_STRAIGHT).
Proof.
  intros H. unfold Sensor.sen_gen_reads, Sensor.sen_gen.
  rewrite (H Sensor.LEFT_1), (H Sensor.LEFT_2), (H Sensor.LEFT_3), (H Sensor.LEFT_4),
    (H Sensor.LEFT_5), (H Sensor.RIGHT_1), (H Sensor.RIGHT_2), (H Sensor.RIGHT_3),
    (H Sensor.RIGHT_4), (H Sensor.RIGHT_5).
  reflexivity.
Qed.

(** X9.  Whatever each [read()] returns and whatever the queues hold, one
    pass of [sen_gen] yields 0, leaves the task as constructed and hands
    one code, the same, to the left queue and then to the right queue; the
    code is from 1 to 11.  When every channel returns the same value
    throughout the pass, the code is one of 1, 2, 3, 4, 5, 6, 8 and 9,
    each of them published for some readings: the rules LEFT 5 (code 7),
    RIGHT 4 (code 10) and RIGHT 5 (code 11) then never fire, an earlier
    rule of the chain (LEFT 4, LEFT 1, LEFT 2) taking every reading that
    satisfies them.  They fire when a channel changes between two rules
    of one pass: S5 going high after LEFT 4 was tried publishes 7, S5
    going high after LEFT 1 to LEFT 5 were tried publishes 10, S3 and S7
    going high after RIGHT 4 was tried publish 11. *)
Theorem sen_gen_publishes_eight_codes
    (seen : Sensor.rule -> Sensor.readings) (w : world) :
  (exists code ev w',
     Sensor.sen_gen_reads seen (Sensor.init, w) = (Ok 0, (Sensor.init, w')) /\
     trace w' = trace w ++ ev /\
     puts_to turn_q_l ev = [code] /\
     puts_to turn_q_r ev = [code] /\
     1 <= code <= 11 /\
     (steady seen -> In code live_codes))
  /\ Forall (fun code => enqueues_once code (readings_for code) (world_with [] []))
       live_codes
  /\ published (turning Sensor.LEFT_5 (lit true true true false false false)
                                       (lit true true true true false false))
     = ([7], [7])
  /\ published (turning Sensor.RIGHT_4 (lit false false true false true false)
                                        (lit false false true true true false))
     = ([10], [10])
  /\ published (turning Sensor.RIGHT_5 (lit false false false true false true)
                                        (lit false false true true true true))
     = ([11], [11]).
Proof.
  split; [|split; [unfold live_codes; repeat constructor | repeat split]].
  destruct (sen_gen_reads_publishes seen w)
    as (code & Hcode & checks & w' & Hrun & Htr & _ & _ & Hp & _).
  assert (Hl : puts_to turn_q_l
                 (checks ++ [q_put turn_q_l code (negb (Queue.full (queue_l w)));
                             q_put turn_q_r code (negb (Queue.full (queue_r w)))])
               = [code]).
  { unfold puts_to in *. rewrite flat_map_app, (Hp turn_q_l). reflexivity. }
  exists code, (checks ++ [q_put turn_q_l code (negb (Queue.full (queue_l w)));
                           q_put turn_q_r code (negb (Queue.full (queue_r w)))]), w'.
  split; [exact Hrun|]. split; [exact Htr|]. split; [exact Hl|]. split.
  { unfold puts_to in *. rewrite flat_map_app, (Hp turn_q_r). reflexivity. }
  split; [exact Hcode|].
  intros Hsteady.
  destruct (sen_gen_emits (seen Sensor.GO_STRAIGHT) w)
    as (code' & checks' & w'' & Hrun' & Htr' & _ & _ & Hp' & _ & Hin).
  rewrite (sen_gen_reads_steady seen Hsteady), Hrun' in Hrun.
  injection Hrun as Hw. subst w''.
  rewrite Htr in Htr'. apply app_inv_head in Htr'.
  rewrite Htr' in Hl. unfold puts_to in Hl, Hp'.
  rewrite flat_map_app, (Hp' turn_q_l) in Hl. cbn in Hl.
  injection Hl as Hc. rewrite <- Hc. exact Hin.
Qed.

Lemma sw_gen_eq p s w :
  Switch.sw_gen p (s, w) =
  if Switch.state s =? 0 then
    (Ok (if pressed p then 1 else 0),
     (Switch.with_state (if pressed p then 1 else 0) s, w))
  else if Switch.state s =? 1 then (Ok 2, (Switch.with_state 2 s, triggered w))
  else if Switch.state s =? 2 then (Ok 2, (Switch.with_state 2 s, w))
  else (Raise (ValueError "Invalid State"), (s, w)).
Proof.
  unfold Switch.sw_gen, bind at 1, self at 1. cbn [fst snd].
  destruct (Switch.state s =? 0).
  { unfold pressed. destruct ((Switch.left p =? 1) || (Switch.right p =? 1)); reflexivity. }
  destruct (Switch.state s =? 1).
  { unfold bind. rewrite q_put_call_eq. cbn [emit fst snd].
    rewrite q_put_call_eq. reflexivity. }
  destruct (Switch.state s =? 2); reflexivity.
Qed.

(** Once latched, the monitor does nothing. *)
Lemma sw_gen_latched samples : forall w,
  passes Switch.sw_gen samples ({| Switch.state := 2 |}, w)
  = (Ok tt, ({| Switch.state := 2 |}, w)).
Proof.
  induction samples as [|p rest IH]; intros w; [reflexivity|].
  cbn [passes]. rewrite sw_gen_eq. cbn [Switch.state Z.eqb Pos.eqb Switch.with_state].
  apply IH.
Qed.

Lemma sw_gen_run samples : forall w,
  passes Switch.sw_gen samples (Switch.init, w) =
  (Ok tt,
   ({| Switch.state := if existsb pressed (removelast samples) then 2
                       else if existsb pressed samples then 1 else 0 |},
    if existsb pressed (removelast samples) then triggered w else w)).
Proof.
  induction samples as [|p rest IH]; intros w; [reflexivity|].
  cbn [passes]. rewrite sw_gen_eq.
  cbn [Switch.state Switch.init Z.eqb Switch.with_state].
  destruct (pressed p) eqn:Ep.
  - destruct rest as [|p2 rest2].
    + cbn [passes removelast existsb]. rewrite Ep. reflexivity.
    + cbn [passes]. rewrite sw_gen_eq.
      cbn [Switch.state Z.eqb Pos.eqb Switch.with_state].
      rewrite sw_gen_latched.
      change (removelast (p :: p2 :: rest2)) with (p :: removelast (p2 :: rest2)).
      cbn [existsb]. rewrite Ep. reflexivity.
  - change {| Switch.state := 0 |} with Switch.init. rewrite IH.
    destruct rest as [|p2 rest2].
    + cbn [removelast existsb]. rewrite Ep. reflexivity.
    + change (removelast (p :: p2 :: rest2)) with (p :: removelast (p2 :: rest2)).
      cbn [existsb]. rewrite Ep. reflexivity.
Qed.

(** X10.  The switch monitor run for any number of passes from its
    constructor never raises.  If a switch reads 1 in some pass other than
    the last, the run has made exactly three calls: [put(13)] on the left
    queue, the print of "triggered", [put(13)] on the right queue, in that
    order and in the pass after the first one that saw a switch at 1, and
    the task ends in state 2; later readings change nothing.  Otherwise
    the run has made no call at all, and the task ends in state 1 when
    the last pass saw a switch at 1 and in state 0 when none did. *)
Theorem sw_gen_publishes_once (samples : list Switch.pins) (w : world) :
  exists s' w' ev,
    passes Switch.sw_gen samples (Switch.init, w) = (Ok tt, (s', w')) /\
    trace w' = trace w ++ ev /\
    if existsb pressed (removelast samples)
    then ev = [q_put turn_q_l 13 (negb (Queue.full (queue_l w)));
               print "triggered";
               q_put turn_q_r 13 (negb (Queue.full (queue_r w)))] /\
         queue_l w' = snd (Queue.put 13 (queue_l w)) /\
         queue_r w' = snd (Queue.put 13 (queue_r w)) /\
         Switch.state s' = 2
    else ev = [] /\ queue_l w' = queue_l w /\ queue_r w' = queue_r w /\
         Switch.state s' = (if existsb pressed samples then 1 else 0).
Proof.
  rewrite sw_gen_run.
  destruct (existsb pressed (removelast samples)).
  - eexists _, _, _. split; [reflexivity|]. split.
    + unfold triggered, after_put. cbn [trace log set_queue queue queue_l queue_r].
      rewrite <- !app_assoc. reflexivity.
    + repeat split.
  - eexists _, _, []. split; [reflexivity|]. split.
    + symmetry. apply app_nil_r.
    + repeat split.
Qed.

End ProducerFacts.

Section PipelineFacts.
Import Motor.

Lemma put_on_empty code q :
  Queue.items q = [] -> (0 < Queue.size q)%nat ->
  Queue.items (snd (Queue.put code q)) = [code] /\
  Queue.size (snd (Queue.put code q)) = Queue.size q.
Proof.
  intros Hi Hs. unfold Queue.put, Queue.full. rewrite Hi. cbn [List.length].
  destruct (Nat.leb_spec (Queue.size q) 0); [lia|].
  split; reflexivity.
Qed.

(** Which wheel the table drives harder, code by code. *)
Lemma table_sides code :
  1 <= code <= 11 ->
  (In code left_codes -> left_duty code < right_duty code) /\
  (In code right_codes -> right_duty code < left_duty code) /\
  (code = 3 -> right_duty code = left_duty code).
Proof.
  intros Hin.
  assert (Hcases : code = 1 \/ code = 2 \/ code = 3 \/ code = 4 \/ code = 5 \/
                   code = 6 \/ code = 7 \/ code = 8 \/ code = 9 \/ code = 10 \/
                   code = 11) by lia.
  clear Hin. unfold left_codes, right_codes. cbn [In].
  repeat split; intros H;
    repeat (destruct Hcases as [Hcases|Hcases]); subst code;
    first [ solve [cbn; lia] | solve [reflexivity] | exfalso; lia ].
Qed.

(** X11.  From the classifier to the wheels.  Both queues empty, the two
    motor tasks in state 0 with the constants of [__init__]: one pass of
    [sen_gen], whatever each of its [read()] calls returns, then a pass
    of the right task, a pass of the left task, and a second pass of
    each, all at new ticks.  The classifier publishes one code from 1 to
    11, each wheel takes it from its own queue in its first pass and
    commands exactly one duty in its second, the duty of the table for
    that code; nothing else is commanded, both tasks are back in state 0
    and both queues are empty again.  For a code of the LEFT rules the
    right wheel is driven harder than the left, for a code of the RIGHT
    rules the left harder than the right, and for code 3 both alike. *)
Theorem sen_gen_steers_both_wheels
    (seen : Sensor.rule -> Sensor.readings) (mR mL : Motor.t) (w : world)
    (i1 i2 j1 j2 : inputs) :
  as_built mR -> as_built mL ->
  set mR = "R" -> set mL = "L" ->
  state mR = 0 -> state mL = 0 ->
  Queue.items (queue_r w) = [] -> Queue.items (queue_l w) = [] ->
  (0 < Queue.size (queue_r w))%nat -> (0 < Queue.size (queue_l w))%nat ->
  now i1 <> start mR -> now i2 <> now i1 ->
  now j1 <> start mL -> now j2 <> now j1 ->
  exists code w0 mR1 w1 mL1 w2 mR2 w3 mL2 w4 ev,
    Sensor.sen_gen_reads seen (Sensor.init, w) = (Ok 0, (Sensor.init, w0)) /\
    mot_gen i1 (mR, w0) = (Ok code, (mR1, w1)) /\
    mot_gen j1 (mL, w1) = (Ok code, (mL1, w2)) /\
    mot_gen i2 (mR1, w2) = (Ok 0, (mR2, w3)) /\
    mot_gen j2 (mL1, w3) = (Ok 0, (mL2, w4)) /\
    trace w4 = trace w ++ ev /\
    1 <= code <= 11 /\
    duties ev = [right_duty code; left_duty code] /\
    state mR2 = 0 /\ state mL2 = 0 /\
    Queue.items (queue_r w4) = [] /\ Queue.items (queue_l w4) = [] /\
    (In code left_codes -> left_duty code < right_duty code) /\
    (In code right_codes -> right_duty code < left_duty code) /\
    (code = 3 -> right_duty code = left_duty code).
Proof.
  intros HbR HbL HsetR HsetL HstR HstL Hqr Hql Hszr Hszl Hi1 Hi2 Hj1 Hj2.
  destruct (sen_gen_reads_publishes seen w)
    as (code & Hin & checks & w0 & Hsen & Ht0 & Hl0 & Hr0 & _ & Hd0).
  destruct (put_on_empty code (queue_r w) Hqr Hszr) as [Hr0i _].
  destruct (put_on_empty code (queue_l w) Hql Hszl) as [Hl0i _].
  rewrite <- Hr0 in Hr0i. rewrite <- Hl0 in Hl0i.
  assert (Hcode : 1 <= code <= 12) by lia.
  assert (HpR : polls mR turn_q_r = true) by (unfold polls; rewrite HsetR; reflexivity).
  assert (HpL : polls mL turn_q_l = true) by (unfold polls; rewrite HsetL; reflexivity).
  destruct (mot_gen_take i1 mR w0 turn_q_r code [] HstR HpR Hr0i Hi1)
    as (mR1 & w1 & e1 & Hrun1 & Ht1 & Hd1 & Hs1 & Hc1 & Hstart1 & Hr1 & _ & Ho1).
  assert (Hl1 : Queue.items (queue turn_q_l w1) = [code]).
  { rewrite (Ho1 turn_q_l) by discriminate. exact Hl0i. }
  destruct (mot_gen_take j1 mL w1 turn_q_l code [] HstL HpL Hl1 Hj1)
    as (mL1 & w2 & e2 & Hrun2 & Ht2 & Hd2 & Hs2 & Hc2 & Hstart2 & Hl2 & _ & Ho2).
  destruct (mot_gen_act i2 mR1 w2)
    as (mR2 & w3 & e3 & Hrun3 & Ht3 & Hd3 & Hs3 & _ & _ & Hq3).
  { rewrite Hs1. exact Hcode. }
  { left. destruct Hc1 as (H & _). congruence. }
  { exact (as_built_kept mR mR1 Hc1 HbR). }
  { congruence. }
  destruct (mot_gen_act j2 mL1 w3)
    as (mL2 & w4 & e4 & Hrun4 & Ht4 & Hd4 & Hs4 & _ & _ & Hq4).
  { rewrite Hs2. exact Hcode. }
  { right. destruct Hc2 as (H & _). congruence. }
  { exact (as_built_kept mL mL1 Hc2 HbL). }
  { congruence. }
  assert (HwR : wheel_duty mR1 (state mR1) = right_duty code).
  { unfold wheel_duty. destruct Hc1 as (H & _). rewrite H, HsetR, Hs1. reflexivity. }
  assert (HwL : wheel_duty mL1 (state mL1) = left_duty code).
  { unfold wheel_duty. destruct Hc2 as (H & _). rewrite H, HsetL, Hs2. reflexivity. }
  exists code, w0, mR1, w1, mL1, w2, mR2, w3, mL2, w4.
  eexists. split; [exact Hsen|]. split; [exact Hrun1|]. split; [exact Hrun2|].
  split; [exact Hrun3|]. split; [exact Hrun4|]. split.
  { rewrite Ht4, Ht3, Ht2, Ht1, Ht0. rewrite <- !app_assoc. reflexivity. }
  split; [exact Hin|]. split.
  { unfold duties in *. rewrite !flat_map_app.
    rewrite Hd0, Hd1, Hd2, Hd3, Hd4, HwR, HwL. reflexivity. }
  split; [exact Hs3|]. split; [exact Hs4|]. split.
  { change (queue_r w4) with (queue turn_q_r w4).
    rewrite (Hq4 turn_q_r), (Hq3 turn_q_r), (Ho2 turn_q_r) by discriminate. exact Hr1. }
  split.
  { change (queue_l w4) with (queue turn_q_l w4).
    rewrite (Hq4 turn_q_l), (Hq3 turn_q_l). exact Hl2. }
  apply table_sides. exact Hin.
Qed.

(** X11 for the tasks and queues of main.py, with S3 and S1 over the line
    (rule LEFT 2, code 4): 55 on the right wheel, -25 on the left. *)
Lemma sen_gen_steers_both_wheels_witness :
  exists code w0 mR1 w1 mL1 w2 mR2 w3 mL2 w4 ev,
    Sensor.sen_gen_reads (fun _ => readings_for 4) (Sensor.init, initial_world)
    = (Ok 0, (Sensor.init, w0)) /\
    mot_gen {| now := 5; counter := 2; counter' := 0 |} (right_motor, w0)
    = (Ok code, (mR1, w1)) /\
    mot_gen {| now := 5; counter := 3; counter' := 0 |} (left_motor, w1)
    = (Ok code, (mL1, w2)) /\
    mot_gen {| now := 10; counter := 9; counter' := 0 |} (mR1, w2)
    = (Ok 0, (mR2, w3)) /\
    mot_gen {| now := 10; counter := 1; counter' := 0 |} (mL1, w3)
    = (Ok 0, (mL2, w4)) /\
    trace w4 = [] ++ ev /\
    code = 4 /\ duties ev = [55; -25].
Proof.
  destruct (sen_gen_steers_both_wheels (fun _ => readings_for 4) right_motor left_motor
              initial_world
              {| now := 5; counter := 2; counter' := 0 |}
              {| now := 10; counter := 9; counter' := 0 |}
              {| now := 5; counter := 3; counter' := 0 |}
              {| now := 10; counter := 1; counter' := 0 |})
    as (code & w0 & mR1 & w1 & mL1 & w2 & mR2 & w3 & mL2 & w4 & ev &
        Hsen & H1 & H2 & H3 & H4 & Htr & _ & Hd & _);
    try (repeat split; fail); try reflexivity; try (cbn; lia).
  assert (Hc : code = 4).
  { assert (H : fst (mot_gen {| now := 5; counter := 2; counter' := 0 |}
                       (right_motor,
                        snd (snd (Sensor.sen_gen_reads (fun _ => readings_for 4)
                                    (Sensor.init, initial_world))))) = Ok code).
    { rewrite Hsen. cbn [snd]. rewrite H1. reflexivity. }
    vm_compute in H. injection H as H. symmetry. exact H. }
  exists code, w0, mR1, w1, mL1, w2, mR2, w3, mL2, w4, ev.
  split; [exact Hsen|]. split; [exact H1|]. split; [exact H2|].
  split; [exact H3|]. split; [exact H4|]. split; [exact Htr|]. split; [exact Hc|].
  rewrite Hd, Hc. reflexivity.
Defined.

End PipelineFacts.

(** ** Motor driver *)

Lemma L6206_run_app self cs1 cs2 :
  L6206.run self (cs1 ++ cs2) = L6206.run (L6206.run self cs1) cs2.
Proof. unfold L6206.run. apply fold_left_app. Qed.

Lemma L6206_run_after_duty cs : forall self d,
  L6206.duty self = Some d ->
  L6206.PWM_1 self = Z.abs d ->
  L6206.IN2 self = (d <? 0) ->
  let x := L6206.run self cs in
  L6206.duty x = Some (last_duty cs d) /\
  L6206.PWM_1 x = Z.abs (last_duty cs d) /\
  L6206.IN2 x = (last_duty cs d <? 0).
Proof.
  induction cs as [|c cs IH]; intros self d Hd Hp Hi; [repeat split; assumption|].
  change (L6206.run self (c :: cs)) with (L6206.run (L6206.do_call self c) cs).
  destruct c as [v| |].
  - change (last_duty (L6206.SetDuty v :: cs) d) with (last_duty cs v).
    apply (IH (L6206.set_duty v self) v); unfold L6206.set_duty;
      destruct (Z.geb_spec v 0); cbn; try reflexivity;
      symmetry; [apply Z.ltb_ge | apply Z.ltb_lt]; lia.
  - change (last_duty (L6206.Enable :: cs) d) with (last_duty cs d).
    apply (IH (L6206.enable self) d); assumption.
  - change (last_duty (L6206.Disable :: cs) d) with (last_duty cs d).
    apply (IH (L6206.disable self) d); assumption.
Qed.

Lemma L6206_run_enable cs : forall self,
  L6206.EN (L6206.run self cs) = last_enable cs (L6206.EN self).
Proof.
  induction cs as [|c cs IH]; intros self; [reflexivity|].
  change (L6206.run self (c :: cs)) with (L6206.run (L6206.do_call self c) cs).
  rewrite IH.
  destruct c as [v| |]; [|reflexivity|reflexivity].
  change (last_enable (L6206.SetDuty v :: cs) (L6206.EN self))
    with (last_enable cs (L6206.EN self)).
  f_equal. unfold L6206.do_call, L6206.set_duty. destruct (v >=? 0); reflexivity.
Qed.

Lemma set_duty_keeps_enable d self :
  L6206.EN (L6206.set_duty d self) = L6206.EN self.
Proof. unfold L6206.set_duty. destruct (d >=? 0); reflexivity. Qed.

Lemma last_enable_app cs1 cs2 en :
  last_enable (cs1 ++ cs2) en = last_enable cs2 (last_enable cs1 en).
Proof. unfold last_enable. apply fold_left_app. Qed.

(** X12.  Once [set_duty] has been called on a driver, whatever calls of
    [set_duty], [enable] and [disable] came before and come after: the
    driver records the duty [v] of the last [set_duty], the pulse width is
    its absolute value, never negative and never clamped, and the
    direction pin is high exactly when [v] is negative.  The enable pin
    follows the last [enable] or [disable] alone: [set_duty] neither
    enables nor disables the driver. *)
Theorem L6206_pins_follow_the_last_calls
    (self : L6206.t) (before after : list L6206.call) (d : Z) :
  let x := L6206.run self (before ++ L6206.SetDuty d :: after) in
  let v := last_duty after d in
  L6206.duty x = Some v /\
  L6206.PWM_1 x = Z.abs v /\
  0 <= L6206.PWM_1 x /\
  L6206.IN2 x = (v <? 0) /\
  L6206.EN x = last_enable (before ++ after) (L6206.EN self).
Proof.
  intros x v. unfold x.
  rewrite L6206_run_app.
  change (L6206.run (L6206.run self before) (L6206.SetDuty d :: after))
    with (L6206.run (L6206.set_duty d (L6206.run self before)) after).
  destruct (L6206_run_after_duty after (L6206.set_duty d (L6206.run self before)) d)
    as (H1 & H2 & H3).
  - unfold L6206.set_duty. destruct (d >=? 0); reflexivity.
  - unfold L6206.set_duty. destruct (d >=? 0); reflexivity.
  - unfold L6206.set_duty. destruct (Z.geb_spec d 0); cbn;
      symmetry; [apply Z.ltb_ge | apply Z.ltb_lt]; lia.
  - split; [exact H1|]. split; [exact H2|]. split; [rewrite H2; lia|].
    split; [exact H3|].
    rewrite L6206_run_enable, set_duty_keeps_enable, L6206_run_enable.
    symmetry. apply last_enable_app.
Qed.

(** ** User button *)

Lemma button_int_disables (g : Main.globals) :
  Main.stat g = 0 ->
  Main.button_int g =
  {| Main.mot_R := L6206.disable (Main.mot_R g);
     Main.mot_L := L6206.disable (Main.mot_L g);
     Main.stat := 0 |}.
Proof.
  intros Hs. unfold Main.button_int, Main.motor_toggle. rewrite Hs. reflexivity.
Qed.

(** X13.  [stat] is 0 when the button is first pressed, and no press
    changes it: [motor_toggle] assigns a [stat] of its own.  So every
    press calls [motor_toggle] with status 1 and disables both drivers;
    after one press or more both enable pins are low, all else in the
    drivers is as before, and no press enables them again. *)
Theorem button_int_only_disables (presses : nat) (g : Main.globals) :
  Main.stat g = 0 ->
  let g' := Nat.iter (S presses) Main.button_int g in
  Main.stat g' = 0 /\
  Main.mot_R g' = L6206.disable (Main.mot_R g) /\
  Main.mot_L g' = L6206.disable (Main.mot_L g) /\
  L6206.EN (Main.mot_R g') = false /\
  L6206.EN (Main.mot_L g') = false.
Proof.
  intros Hs. cbv zeta.
  induction presses as [|n IH].
  - change (Nat.iter 1 Main.button_int g) with (Main.button_int g).
    rewrite (button_int_disables g Hs). repeat split.
  - change (Nat.iter (S (S n)) Main.button_int g)
      with (Main.button_int (Nat.iter (S n) Main.button_int g)).
    destruct IH as (H0 & HR & HL & _).
    rewrite (button_int_disables _ H0), HR, HL. repeat split.
Qed.

(** X13 from the start of main.py: both drivers enabled, then three
    presses of the button. *)
Lemma button_int_only_disables_witness :
  Main.stat Main.startup = 0 /\
  L6206.EN (Main.mot_R Main.startup) = true /\
  L6206.EN (Main.mot_L Main.startup) = true /\
  Main.stat (Nat.iter 3 Main.button_int Main.startup) = 0 /\
  L6206.EN (Main.mot_R (Nat.iter 3 Main.button_int Main.startup)) = false /\
  L6206.EN (Main.mot_L (Nat.iter 3 Main.button_int Main.startup)) = false.
Proof.
  destruct (button_int_only_disables 2 Main.startup eq_refl) as (H0 & _ & _ & HR & HL).
  repeat split; assumption.
Defined.

(** ** PI controller: the methods *)

Section ClosedLoopMethods.

Context {num : Type} {arith : Number num}.

Lemma play_keeps_measurement (ms : list (ClosedLoop.method num)) :
  forall c : ClosedLoop.t num,
  ClosedLoop.meas (ClosedLoop.play c ms) = ClosedLoop.meas c /\
  ClosedLoop.period (ClosedLoop.play c ms) = ClosedLoop.period c.
Proof.
  induction ms as [|m ms IH]; intros c; [split; reflexivity|].
  change (ClosedLoop.play c (m :: ms))
    with (ClosedLoop.play (ClosedLoop.do_method c m) ms).
  destruct (IH (ClosedLoop.do_method c m)) as [H1 H2].
  rewrite H1, H2. destruct m; split; reflexivity.
Qed.

(** X14.  A controller has no method that takes a new measurement: after
    any sequence of [update], [set_Kp], [set_Ki] and [setpoint] calls,
    [meas] is the value given to the constructor and [period] is the
    constructor's period divided by 1000.  So the error of every update
    is the current setpoint minus the constructor's measurement, and the
    output is the proportional term on that error plus the integral
    grown by [Ki * error * period]; the three setters leave the error
    and the integral as they are. *)
Theorem closed_loop_measurement_is_fixed
    (period Kp Ki ref meas : num) (ms : list (ClosedLoop.method num)) :
  let c := ClosedLoop.play (ClosedLoop.init period Kp Ki ref meas) ms in
  let e := sub (ClosedLoop.ref c) meas in
  ClosedLoop.meas c = meas /\
  ClosedLoop.period c = truediv period (of_int 1000) /\
  ClosedLoop.error (snd (ClosedLoop.update c)) = e /\
  fst (ClosedLoop.update c) =
    add (mul (ClosedLoop.Kp c) e)
        (add (ClosedLoop.integral c)
             (mul (mul (ClosedLoop.Ki c) e) (truediv period (of_int 1000)))) /\
  (forall v,
     ClosedLoop.integral (ClosedLoop.set_Kp v c) = ClosedLoop.integral c /\
     ClosedLoop.integral (ClosedLoop.set_Ki v c) = ClosedLoop.integral c /\
     ClosedLoop.integral (ClosedLoop.setpoint v c) = ClosedLoop.integral c /\
     ClosedLoop.error (ClosedLoop.set_Kp v c) = ClosedLoop.error c /\
     ClosedLoop.error (ClosedLoop.set_Ki v c) = ClosedLoop.error c /\
     ClosedLoop.error (ClosedLoop.setpoint v c) = ClosedLoop.error c).
Proof.
  intros c e.
  destruct (play_keeps_measurement ms (ClosedLoop.init period Kp Ki ref meas))
    as [Hm Hp].
  fold c in Hm, Hp. cbn [ClosedLoop.init ClosedLoop.meas ClosedLoop.period] in Hm, Hp.
  split; [exact Hm|]. split; [exact Hp|]. unfold e.
  cbn [ClosedLoop.update fst snd ClosedLoop.error]. rewrite Hm, Hp.
  repeat split.
Qed.

End ClosedLoopMethods.

(** X15.  In exact arithmetic, a controller with gains [Kp] and [Ki] whose
    setpoint and measurement stay as constructed returns, at its call
    number [n + 1] of [update], [Kp * e + Ki * e * (period/1000) * (n + 1)]
    with [e = ref - meas]: the proportional term plus an integral term
    that grows by the same amount at every call, without bound or reset. *)
Theorem closed_loop_exact_output (period Kp Ki ref meas : Q) (n : nat) :
  (fst (ClosedLoop.update
          (ClosedLoop.updates n (ClosedLoop.init period Kp Ki ref meas)))
   == Kp * (ref - meas)
      + Ki * (ref - meas) * (period / 1000) * inject_Z (Z.of_nat (S n)))%Q.
Proof.
  destruct (updates_fields n (ClosedLoop.init period Kp Ki ref meas))
    as (H1 & H2 & H3 & H4 & H5).
  rewrite exact_update_output, exact_update_integral, exact_updates_integral.
  rewrite H1, H2, H3, H4, H5.
  cbn [ClosedLoop.init ClosedLoop.Kp ClosedLoop.Ki ClosedLoop.ref ClosedLoop.meas
       ClosedLoop.period ClosedLoop.integral of_int truediv exact_number].
  rewrite Nat2Z.inj_succ. unfold Z.succ. rewrite inject_Z_plus.
  change (inject_Z 0) with 0%Q. change (inject_Z 1000) with 1000%Q.
  change (inject_Z 1) with 1%Q. ring.
Qed.

(** ** Orientation driver: status, registers *)

Lemma status_fields (b : byte) :
  let v := BNO055.int_of_byte b in
  let f i := Z.land (Z.shiftr v i) 3 in
  ((0 <=? f 6) && (f 6 <=? 3) && (0 <=? f 4) && (f 4 <=? 3) &&
   (0 <=? f 2) && (f 2 <=? 3) && (0 <=? f 0) && (f 0 <=? 3) &&
   (v =? 64 * f 6 + 16 * f 4 + 4 * f 2 + f 0))%bool = true.
Proof. destruct b; vm_compute; reflexivity. Qed.

(** X16.  When its read of register 0x35 of device 0x28 completes,
    [get_calibration_status] returns a dict whose four entries are the
    four 2-bit fields of that byte, from the top: each is between 0 and
    3, and system * 64 + gyroscope * 16 + accelerometer * 4 + magnetometer
    is the byte. *)
Theorem get_calibration_status_splits_the_byte (bus : I2C.t) :
  let b := BNO055.int_of_byte (I2C.regs bus 0x28 0x35) in
  exists sys gyro accel mag,
    BNO055.get_calibration_status BNO055.attributes bus =
      Some [("system", sys); ("gyroscope", gyro);
            ("accelerometer", accel); ("magnetometer", mag)] /\
    0 <= sys <= 3 /\ 0 <= gyro <= 3 /\ 0 <= accel <= 3 /\ 0 <= mag <= 3 /\
    b = 64 * sys + 16 * gyro + 4 * accel + mag.
Proof.
  intros b.
  pose proof (status_fields (I2C.regs bus 0x28 0x35)) as H. cbv zeta in H. fold b in H.
  repeat (apply andb_true_iff in H; destruct H as [H ?]).
  eexists _, _, _, _. split; [reflexivity|]. fold b.
  repeat match goal with
         | H : (_ <=? _) = true |- _ => apply Z.leb_le in H
         | H : (_ =? _) = true |- _ => apply Z.eqb_eq in H
         end.
  repeat split; assumption.
Qed.

(** A register after a block write: a byte of the block inside it, the
    old content outside. *)
Lemma store_outside addr data : forall base r a k,
  a <> addr \/ k < base \/ base + Z.of_nat (List.length data) <= k ->
  I2C.store addr base data r a k = r a k.
Proof.
  induction data as [|b rest IH]; intros base r a k Hout; [reflexivity|].
  cbn [I2C.store]. rewrite IH.
  - destruct (Z.eqb_spec a addr) as [Ha|Ha]; [|reflexivity].
    destruct (Z.eqb_spec k base) as [Hk|Hk]; [|reflexivity].
    exfalso. cbn [List.length] in Hout. lia.
  - cbn [List.length] in Hout. lia.
Qed.

Lemma store_inside addr data : forall base r j d,
  (j < List.length data)%nat ->
  I2C.store addr base data r addr (base + Z.of_nat j) = nth j data d.
Proof.
  induction data as [|b rest IH]; intros base r j d Hj; [cbn in Hj; lia|].
  cbn [I2C.store]. destruct j as [|j].
  - rewrite store_outside by lia. cbn [nth Z.of_nat].
    rewrite Z.add_0_r, !Z.eqb_refl. reflexivity.
  - cbn [nth]. rewrite Nat2Z.inj_succ.
    replace (base + Z.succ (Z.of_nat j)) with (base + 1 + Z.of_nat j) by lia.
    apply IH. cbn [List.length] in Hj. lia.
Qed.

Lemma read_after_write addr base data bus :
  I2C.readfrom_mem addr base (List.length data) (I2C.writeto_mem addr base data bus)
  = data.
Proof.
  unfold I2C.readfrom_mem, I2C.writeto_mem. cbn [I2C.regs].
  apply nth_ext with (d := "000"%byte) (d' := "000"%byte).
  - rewrite length_map, length_seq. reflexivity.
  - intros j Hj. rewrite length_map, length_seq in Hj.
    rewrite (nth_indep _ _ (I2C.store addr base data (I2C.regs bus) addr
                              (base + Z.of_nat 0)))
      by (rewrite length_map, length_seq; exact Hj).
    rewrite (map_nth (fun k => I2C.store addr base data (I2C.regs bus) addr
                                 (base + Z.of_nat k))).
    rewrite seq_nth by exact Hj. cbn [Nat.add].
    apply store_inside. exact Hj.
Qed.

Lemma int_of_byte_of_int z b :
  BNO055.byte_of_int z = Some b -> BNO055.int_of_byte b = z.
Proof.
  unfold BNO055.byte_of_int, BNO055.int_of_byte.
  destruct ((0 <=? z) && (z <=? 255)) eqn:E; [|discriminate].
  apply andb_true_iff in E. destruct E as [E0 E1].
  apply Z.leb_le in E0.
  intros H. apply Byte.to_of_N in H. rewrite H. apply Z2N.id. exact E0.
Qed.

Lemma bytes_of_ints_in_range (l : list Z) :
  Forall (fun c => 0 <= c <= 255) l ->
  exists bs, BNO055.bytes_of_ints l = Some bs /\
             map BNO055.int_of_byte bs = l /\ List.length bs = List.length l.
Proof.
  induction 1 as [|z l Hz Hl IH]; [exists []; repeat split|].
  destruct IH as (bs & Hbs & Hmap & Hlen).
  assert (Hb : exists b, BNO055.byte_of_int z = Some b).
  { unfold BNO055.byte_of_int.
    assert (E : (0 <=? z) && (z <=? 255) = true).
    { apply andb_true_iff. split; apply Z.leb_le; lia. }
    rewrite E. destruct (Byte.of_N (Z.to_N z)) as [b|] eqn:Eb; [exists b; reflexivity|].
    exfalso. apply Byte.of_N_None_iff in Eb. lia. }
  destruct Hb as (b & Hb).
  exists (b :: bs). cbn [BNO055.bytes_of_ints map List.length].
  rewrite Hb, Hbs, Hmap, Hlen, (int_of_byte_of_int z b Hb). repeat split.
Qed.

(** X17.  Twenty-two coefficients, each from 0 to 255, given to
    [write_calibration_coefficients]: the call makes one write of 22 bytes
    to register 0x55 of device 0x28, a [read_calibration_coefficients]
    that follows returns the same 22 values, and no register outside
    0x55 to 0x6A of that device has changed. *)
Theorem calibration_coefficients_written_are_read_back
    (bus : I2C.t) (coefficients : list Z) :
  List.length coefficients = 22%nat ->
  Forall (fun c => 0 <= c <= 255) coefficients ->
  exists packed_data bus',
    BNO055.write_calibration_coefficients BNO055.attributes coefficients bus
    = (BNO055.Ok tt, bus') /\
    I2C.writes bus' = I2C.writes bus ++ [(0x28, 0x55, packed_data)] /\
    List.length packed_data = 22%nat /\
    BNO055.read_calibration_coefficients BNO055.attributes bus'
    = BNO055.Ok coefficients /\
    (forall a k, ~ (a = 0x28 /\ 0x55 <= k <= 0x6A) ->
                 I2C.regs bus' a k = I2C.regs bus a k).
Proof.
  intros Hlen Hrange.
  destruct (bytes_of_ints_in_range coefficients Hrange) as (bs & Hbs & Hmap & Hl).
  exists bs, (I2C.writeto_mem 0x28 0x55 bs bus).
  rewrite Hlen in Hl.
  split.
  { unfold BNO055.write_calibration_coefficients, BNO055.pack_22B.
    rewrite Hlen, Hbs. reflexivity. }
  split; [reflexivity|]. split; [exact Hl|]. split.
  { unfold BNO055.read_calibration_coefficients.
    change (BNO055.i2c_addr BNO055.attributes) with 0x28.
    rewrite <- Hl at 1. rewrite read_after_write.
    unfold BNO055.unpack_22B. rewrite Hl, Hmap. reflexivity. }
  intros a k Hout. unfold I2C.writeto_mem. cbn [I2C.regs].
  apply store_outside. rewrite Hl. cbn. lia.
Qed.

(** X17 for the coefficients 0 to 21 on the sample device. *)
Lemma calibration_coefficients_written_are_read_back_witness :
  exists packed_data bus',
    BNO055.write_calibration_coefficients BNO055.attributes
      (map Z.of_nat (seq 0 22)) sample_bus = (BNO055.Ok tt, bus') /\
    I2C.writes bus' = [(0x28, 0x55, packed_data)] /\
    BNO055.read_calibration_coefficients BNO055.attributes bus'
    = BNO055.Ok (map Z.of_nat (seq 0 22)).
Proof.
  destruct (calibration_coefficients_written_are_read_back sample_bus
              (map Z.of_nat (seq 0 22)))
    as (packed_data & bus' & Hw & Hws & _ & Hr & _).
  - reflexivity.
  - cbn. repeat constructor; lia.
  - exists packed_data, bus'. repeat split; assumption.
Defined.

Lemma bytes_of_ints_length l : forall bs,
  BNO055.bytes_of_ints l = Some bs -> List.length bs = List.length l.
Proof.
  induction l as [|z l IH]; intros bs H.
  - injection H as <-. reflexivity.
  - cbn [BNO055.bytes_of_ints] in H.
    destruct (BNO055.byte_of_int z); [|discriminate].
    destruct (BNO055.bytes_of_ints l) as [bs'|]; [|discriminate].
    injection H as <-. cbn [List.length]. rewrite (IH bs' eq_refl). reflexivity.
Qed.

Lemma bytes_length l buf : BNO055.bytes l = BNO055.Ok buf -> List.length buf = List.length l.
Proof.
  unfold BNO055.bytes. destruct (BNO055.bytes_of_ints l) as [bs|] eqn:E; [|discriminate].
  intros H. injection H as <-. exact (bytes_of_ints_length l bs E).
Qed.

Lemma writeto_mem_frame addr base buf bus a k :
  a <> addr \/ k < base \/ base + Z.of_nat (List.length buf) <= k ->
  I2C.regs (I2C.writeto_mem addr base buf bus) a k = I2C.regs bus a k.
Proof. intros H. unfold I2C.writeto_mem. cbn [I2C.regs]. apply store_outside. exact H. Qed.

Lemma bytearray_length l buf :
  BNO055.bytearray l = BNO055.Ok buf -> List.length buf = List.length l.
Proof.
  unfold BNO055.bytearray. destruct (BNO055.bytes_of_ints l) as [bs|] eqn:E; [|discriminate].
  intros H. injection H as <-. apply bytes_of_ints_length, E.
Qed.

(** One call of the driver that writes: its transactions and the
    registers it leaves alone. *)
Lemma perform_frame (c : command) (bus : I2C.t) :
  let bus' := perform BNO055.attributes bus c in
  (exists ws, I2C.writes bus' = I2C.writes bus ++ ws /\ Forall driver_write ws) /\
  (forall a k, ~ (a = 0x28 /\ written k) -> I2C.regs bus' a k = I2C.regs bus a k).
Proof.
  cbv zeta. unfold written. destruct c as [mode|placement|cs]; cbn [perform].
  - unfold BNO055.set_operation_mode.
    destruct (BNO055.bytearray [mode]) as [buf|e] eqn:E; cbn [snd].
    + pose proof (bytearray_length _ _ E) as Hl. cbn [List.length] in Hl. split.
      * exists [(0x28, 0x3D, buf)]. split; [reflexivity|].
        constructor; [|constructor]. split; [reflexivity|]. left. auto.
      * intros a k Hout. apply writeto_mem_frame. rewrite Hl.
        change (BNO055.i2c_addr BNO055.attributes) with 0x28. cbn [Z.of_nat]. lia.
    + split; [exists []; split; [symmetry; apply app_nil_r | constructor]|].
      reflexivity.
  - unfold BNO055.remap_axes.
    destruct (BNO055.placement_bytes placement) as [[remap sign]|e]; cbn [snd].
    2: { split; [exists []; split; [symmetry; apply app_nil_r | constructor]|].
         reflexivity. }
    destruct (BNO055.bytes [remap]) as [rbuf|e] eqn:Er; cbn [snd].
    2: { split; [exists []; split; [symmetry; apply app_nil_r | constructor]|].
         reflexivity. }
    pose proof (bytes_length _ _ Er) as Hlr. cbn [List.length] in Hlr.
    destruct (BNO055.bytes [sign]) as [sbuf|e] eqn:Es; cbn [snd].
    + pose proof (bytes_length _ _ Es) as Hls. cbn [List.length] in Hls. split.
      * exists [(0x28, 0x41, rbuf); (0x28, 0x42, sbuf)]. split.
        { cbn [I2C.writes I2C.writeto_mem]. rewrite <- app_assoc. reflexivity. }
        constructor; [|constructor; [|constructor]];
          (split; [reflexivity|]; left; auto).
      * intros a k Hout. rewrite !writeto_mem_frame; [reflexivity| |];
          rewrite ?Hlr, ?Hls;
          change (BNO055.i2c_addr BNO055.attributes) with 0x28; cbn [Z.of_nat]; lia.
    + split.
      * exists [(0x28, 0x41, rbuf)]. split; [reflexivity|].
        constructor; [|constructor]. split; [reflexivity|]. left. auto.
      * intros a k Hout. apply writeto_mem_frame. rewrite Hlr.
        change (BNO055.i2c_addr BNO055.attributes) with 0x28. cbn [Z.of_nat]. lia.
  - unfold BNO055.write_calibration_coefficients, BNO055.pack_22B.
    destruct (Nat.eqb_spec (List.length cs) 22) as [Hl|Hl]; cbn [snd].
    2: { split; [exists []; split; [symmetry; apply app_nil_r | constructor]|].
         reflexivity. }
    destruct (BNO055.bytes_of_ints cs) as [bs|] eqn:E; cbn [snd].
    2: { split; [exists []; split; [symmetry; apply app_nil_r | constructor]|].
         reflexivity. }
    pose proof (bytes_of_ints_length _ _ E) as Hb. rewrite Hl in Hb. split.
    + exists [(0x28, 0x55, bs)]. split; [reflexivity|].
      constructor; [|constructor]. split; [reflexivity|]. right. auto.
    + intros a k Hout. apply writeto_mem_frame. rewrite Hb.
      change (BNO055.i2c_addr BNO055.attributes) with 0x28. cbn. lia.
Qed.

Lemma readfrom_mem_agree addr base n bus bus' :
  (forall j, (j < n)%nat ->
     I2C.regs bus' addr (base + Z.of_nat j) = I2C.regs bus addr (base + Z.of_nat j)) ->
  I2C.readfrom_mem addr base n bus' = I2C.readfrom_mem addr base n bus.
Proof.
  intros H. unfold I2C.readfrom_mem. apply map_ext_in.
  intros j Hj. apply in_seq in Hj. apply H. lia.
Qed.

(** X18.  Whatever calls of [set_operation_mode], [remap_axes] and
    [write_calibration_coefficients] are made, with whatever arguments
    and whether they return or raise: every write transaction goes to
    device 0x28 and is one byte to register 0x3D, 0x41 or 0x42 or 22
    bytes from register 0x55; no other register of any device changes; and
    [get_calibration_status], [read_euler_angles] and
    [read_angular_velocity], which read registers 0x35, 0x1A to 0x1F and
    0x14 to 0x19, return what they returned before. *)
Theorem driver_writes_leave_the_data_registers (cmds : list command) (bus : I2C.t) :
  let self := BNO055.attributes in
  let bus' := fold_left (perform self) cmds bus in
  (exists ws, I2C.writes bus' = I2C.writes bus ++ ws /\ Forall driver_write ws) /\
  (forall a k, ~ (a = 0x28 /\ written k) -> I2C.regs bus' a k = I2C.regs bus a k) /\
  BNO055.get_calibration_status self bus' = BNO055.get_calibration_status self bus /\
  (forall prec emax,
     BNO055.read_euler_angles prec emax self bus'
     = BNO055.read_euler_angles prec emax self bus /\
     BNO055.read_angular_velocity prec emax self bus'
     = BNO055.read_angular_velocity prec emax self bus).
Proof.
  intros self bus'.
  assert (H : (exists ws, I2C.writes bus' = I2C.writes bus ++ ws /\ Forall driver_write ws) /\
              (forall a k, ~ (a = 0x28 /\ written k) ->
                           I2C.regs bus' a k = I2C.regs bus a k)).
  { unfold bus'. clear bus'. revert bus.
    induction cmds as [|c cmds IH]; intros bus.
    - split; [exists []; split; [symmetry; apply app_nil_r | constructor]|].
      reflexivity.
    - cbn [fold_left].
      destruct (IH (perform self bus c)) as ((ws2 & Hw2 & Hf2) & Hr2).
      destruct (perform_frame c bus) as ((ws1 & Hw1 & Hf1) & Hr1).
      split.
      + exists (ws1 ++ ws2). split.
        * rewrite Hw2. fold self in Hw1. rewrite Hw1, app_assoc. reflexivity.
        * apply Forall_app. split; assumption.
      + intros a k Hout. rewrite (Hr2 a k Hout). apply (Hr1 a k Hout). }
  destruct H as [Hws Hregs].
  split; [exact Hws|]. split; [exact Hregs|].
  assert (Hread : forall base n,
            (forall j, (j < n)%nat -> ~ written (base + Z.of_nat j)) ->
            I2C.readfrom_mem 0x28 base n bus' = I2C.readfrom_mem 0x28 base n bus).
  { intros base n Hn. apply readfrom_mem_agree. intros j Hj.
    apply Hregs. intros [_ Hw]. exact (Hn j Hj Hw). }
  split.
  - unfold BNO055.get_calibration_status.
    change (BNO055.i2c_addr self) with 0x28.
    rewrite (Hread 0x35 1%nat); [reflexivity|].
    intros j Hj. unfold written. lia.
  - intros prec emax.
    unfold BNO055.read_euler_angles, BNO055.read_angular_velocity.
    change (BNO055.i2c_addr self) with 0x28.
    rewrite (Hread 0x1A 6%nat), (Hread 0x14 6%nat);
      [split; reflexivity | |]; intros j Hj; unfold written; lia.
Qed.

(** ** Orientation driver: the angles *)

Section Sixteenths.

Variables prec emax : Z.
Hypothesis Hprec : 16 < prec.
Hypothesis Hemax : prec < emax.


Lemma digits2_small (p : positive) : Z.pos p < 2 ^ 16 -> Z.pos (digits2_pos p) <= 16.
Proof.
  intros Hp. pose proof (digits2_bounds p) as [Hlo _].
  destruct (Z.le_gt_cases (Z.pos (digits2_pos p)) 16) as [H|H]; [exact H|].
  exfalso.
  assert (2 ^ 16 <= 2 ^ (Z.pos (digits2_pos p) - 1)) by (apply Z.pow_le_mono_r; lia).
  lia.
Qed.





(** The float of a nonzero integer of at most 16 bits: the integer itself,
    on a mantissa of full width. *)
Lemma float_of_small_int (z : Z) :
  z <> 0 -> Z.abs z < 2 ^ 16 ->
  exists m e,
    PyNum.float_of_int prec emax z = S754_finite (z <? 0) m e /\
    Z.pos (digits2_pos m) = prec /\
    Z.pos m = Z.abs z * 2 ^ (- e) /\
    1 - prec <= e <= 16 - prec.
Proof.
  intros Hz Hsmall.
  assert (Hgen : forall s p, Z.pos p < 2 ^ 16 ->
            exists m e,
              binary_round prec emax s p 0 = S754_finite s m e /\
              Z.pos (digits2_pos m) = prec /\
              Z.pos m = Z.pos p * 2 ^ (- e) /\
              1 - prec <= e <= 16 - prec).
  { intros s p Hp. pose proof (digits2_small p Hp) as Hd.
    unfold binary_round.
    replace (fexp prec emax (Z.pos (digits2_pos p) + 0))
      with (Z.pos (digits2_pos p) - prec) by (unfold fexp, emin; lia).
    unfold shl_align.
    destruct (Z.pos (digits2_pos p) - prec - 0) as [|k|k] eqn:Ek; try lia.
    exists (Pos.iter xO p k), (Z.pos (digits2_pos p) - prec).
    assert (Hdig : Z.pos (digits2_pos (Pos.iter xO p k)) = prec).
    { rewrite digits2_iter_xO, Pos2Z.inj_add. lia. }
    split; [apply binary_round_aux_canonical; [exact Hdig | lia]|].
    split; [exact Hdig|]. split; [|lia].
    rewrite iter_xO_value. f_equal. f_equal. lia. }
  unfold PyNum.float_of_int, binary_normalize.
  destruct z as [|p|p]; [contradiction | |].
  - destruct (Hgen false p Hsmall) as (m & e & H). exists m, e. exact H.
  - destruct (Hgen true p Hsmall) as (m & e & H). exists m, e. exact H.
Qed.


(** Dividing a float of full width by 16.0 lowers its exponent by 4. *)
Lemma SFdiv_sixteen s m e :
  Z.pos (digits2_pos m) = prec ->
  1 - prec <= e <= 16 - prec ->
  SFdiv prec emax (S754_finite s m e) (PyNum.float_of_int prec emax 16)
  = S754_finite s m (e - 4).
Proof.
  intros Hd He.
  destruct (float_of_small_int 16) as (my & ey & Hy & Hdy & Hvy & Hey);
    [discriminate | reflexivity |].
  assert (Eey : ey = 5 - prec).
  { destruct (Z.lt_trichotomy ey (5 - prec)) as [H|[H|H]]; [|exact H|]; exfalso.
    - pose proof (digits2_bounds my) as [_ Hhi]. rewrite Hdy, Hvy in Hhi.
      change (Z.abs 16) with (2 ^ 4) in Hhi. rewrite <- Z.pow_add_r in Hhi by lia.
      apply Z.pow_lt_mono_r_iff in Hhi; lia.
    - pose proof (digits2_bounds my) as [Hlo _]. rewrite Hdy, Hvy in Hlo.
      change (Z.abs 16) with (2 ^ 4) in Hlo. rewrite <- Z.pow_add_r in Hlo by lia.
      apply Z.pow_le_mono_r_iff in Hlo; lia. }
  subst ey.
  assert (Emy : Z.pos my = 2 ^ (prec - 1)).
  { rewrite Hvy. change (Z.abs 16) with (2 ^ 4). rewrite <- Z.pow_add_r by lia.
    f_equal. lia. }
  rewrite Hy. change (16 <? 0) with false.
  unfold SFdiv, SFdiv_core_binary. cbn [Zdigits2]. rewrite Hd, Hdy.
  replace (Z.min (fexp prec emax (prec + e - (prec + (5 - prec)))) (e - (5 - prec)))
    with (e - 5) by (unfold fexp, emin; lia).
  replace (e - (5 - prec) - (e - 5)) with prec by lia.
  destruct prec as [|pp|pp] eqn:Eprec; try lia.
  rewrite Z.shiftl_mul_pow2 by lia.
  replace (Z.pos m * 2 ^ Z.pos pp) with (Z.pos m~0 * Z.pos my).
  2: { rewrite Emy. change (Z.pos m~0) with (2 * Z.pos m).
       replace (Z.pos pp) with (Z.succ (Z.pos pp - 1)) at 2 by lia.
       rewrite Z.pow_succ_r by lia. lia. }
  rewrite div_eucl_exact by lia.
  replace (new_location (Z.pos my) 0) with loc_Exact
    by (unfold new_location, new_location_even, new_location_odd;
        destruct (Z.even (Z.pos my)); reflexivity).
  rewrite <- Eprec in *.
  rewrite binary_round_aux_doubled by (try assumption; lia).
  rewrite Bool.xorb_false_r. f_equal. lia.
Qed.

(** An integer of at most 16 bits divided by the literal 16.0: the
    quotient is a float, and it is exact. *)
Lemma sixteenth_is_exact (raw : Z) :
  Z.abs raw < 2 ^ 16 ->
  is_sixteenth
    (PyNum.py_truediv prec emax (PyNum.PyInt raw) (BNO055.sixteen prec emax)) raw.
Proof.
  intros Hraw. unfold is_sixteenth, PyNum.py_truediv, PyNum.quotient, BNO055.sixteen.
  cbn [PyNum.to_float PyNum.value].
  destruct (Z.eq_dec raw 0) as [->|Hnz].
  - destruct (float_of_small_int 16) as (my & ey & Hy & _);
      [discriminate | reflexivity |].
    rewrite Hy. exists 0%Q. split; reflexivity.
  - destruct (float_of_small_int raw Hnz Hraw) as (m & e & Hx & Hd & Hv & He).
    rewrite Hx, (SFdiv_sixteen _ m e Hd He).
    cbn [PyNum.float_value]. eexists. split; [reflexivity|].
    assert (Hm : cond_Zopp (raw <? 0) (Z.pos m) = raw * 2 ^ (- e)).
    { unfold cond_Zopp. destruct (Z.ltb_spec raw 0); rewrite Hv; lia. }
    rewrite Hm, inject_Z_mult, Zpower_Qpower by lia.
    change (inject_Z 2) with 2%Q.
    replace (e - 4) with (- (- e + 4)) by lia.
    rewrite (Qpower_opp 2 (- e + 4)), (Qpower_plus 2 (- e) 4) by discriminate.
    change (2 ^ 4)%Q with 16%Q.
    assert (Hpow : ~ (2 ^ (- e) == 0)%Q) by (apply Qpower_not_0; discriminate).
    field. exact Hpow.
Qed.

Lemma int16_range (lo hi : byte) : -32768 <= BNO055.int16_of_bytes lo hi <= 32767.
Proof.
  unfold BNO055.int16_of_bytes, BNO055.int_of_byte.
  pose proof (Byte.to_N_bounded lo). pose proof (Byte.to_N_bounded hi).
  cbv zeta. destruct (Z.ltb_spec (Z.of_N (Byte.to_N lo) + 256 * Z.of_N (Byte.to_N hi)) 32768);
    lia.
Qed.

(** X19.  In a float format of more than 16 bits of precision, when
    their reads of the device complete, every value of the dicts that
    [read_euler_angles] and [read_angular_velocity] return is a sixteenth
    of a signed 16-bit halfword of the device, exactly, with no rounding:
    yaw from registers
    0x1A and 0x1B, roll from 0x1C and 0x1D, pitch from 0x1E and 0x1F, and
    roll_rate, pitch_rate, yaw_rate from 0x14, 0x16 and 0x18 on, the low
    byte first.  The halfwords lie between -32768 and 32767, so the values
    lie between -2048 and 2047.9375. *)
Theorem read_angles_are_exact_sixteenths (bus : I2C.t) :
  let self := BNO055.attributes in
  exists roll pitch yaw roll_rate pitch_rate yaw_rate,
    BNO055.read_euler_angles prec emax self bus
    = BNO055.Ok [("roll", roll); ("pitch", pitch); ("yaw", yaw)] /\
    BNO055.read_angular_velocity prec emax self bus
    = BNO055.Ok [("roll_rate", roll_rate); ("pitch_rate", pitch_rate);
                 ("yaw_rate", yaw_rate)] /\
    is_sixteenth yaw (halfword bus 0x1A) /\
    is_sixteenth roll (halfword bus 0x1C) /\
    is_sixteenth pitch (halfword bus 0x1E) /\
    is_sixteenth roll_rate (halfword bus 0x14) /\
    is_sixteenth pitch_rate (halfword bus 0x16) /\
    is_sixteenth yaw_rate (halfword bus 0x18) /\
    (forall k, -32768 <= halfword bus k <= 32767).
Proof.
  intros self.
  assert (Hh : forall k, -32768 <= halfword bus k <= 32767)
    by (intros k; apply int16_range).
  assert (Hs : forall k,
            is_sixteenth
              (PyNum.py_truediv prec emax (PyNum.PyInt (halfword bus k))
                 (BNO055.sixteen prec emax)) (halfword bus k)).
  { intros k. apply sixteenth_is_exact. specialize (Hh k).
    change (2 ^ 16) with 65536. lia. }
  eexists _, _, _, _, _, _.
  split; [reflexivity|]. split; [reflexivity|].
  repeat (split; [apply Hs|]). exact Hh.
Qed.

End Sixteenths.

(** X19 for the 64-bit floats of CPython and the 32-bit floats of the
    pyboard, on the sample device: registers 0x1A and 0x1B hold 26 and
    27, the halfword is 6938 and the yaw 433.625. *)
Lemma read_angles_are_exact_sixteenths_witness :
  (exists roll pitch yaw q,
     BNO055.read_euler_angles 53 1024 BNO055.attributes sample_bus
     = BNO055.Ok [("roll", roll); ("pitch", pitch); ("yaw", yaw)] /\
     PyNum.value yaw = Some q /\ (q == 433625 # 1000)%Q) /\
  (exists roll pitch yaw q,
     BNO055.read_euler_angles 24 128 BNO055.attributes sample_bus
     = BNO055.Ok [("roll", roll); ("pitch", pitch); ("yaw", yaw)] /\
     PyNum.value yaw = Some q /\ (q == 433625 # 1000)%Q).
Proof.
  split.
  - destruct (read_angles_are_exact_sixteenths 53 1024 ltac:(lia) ltac:(lia) sample_bus)
      as (roll & pitch & yaw & _ & _ & _ & He & _ & (q & Hq & Hv) & _).
    exists roll, pitch, yaw, q. split; [exact He|]. split; [exact Hq|].
    rewrite Hv. reflexivity.
  - destruct (read_angles_are_exact_sixteenths 24 128 ltac:(lia) ltac:(lia) sample_bus)
      as (roll & pitch & yaw & _ & _ & _ & He & _ & (q & Hq & Hv) & _).
    exists roll, pitch, yaw, q. split; [exact He|]. split; [exact Hq|].
    rewrite Hv. reflexivity.
Defined.

(** ** The calibration file *)

Lemma every_app p s t : every p (s ++ t) = every p s && every p t.
Proof.
  induction s as [|c s IH]; cbn [every append]; [reflexivity|].
  rewrite IH, andb_assoc. reflexivity.
Qed.

Lemma every_weaken (p q : ascii -> bool) s :
  (forall c, p c = true -> q c = true) -> every p s = true -> every q s = true.
Proof.
  intros Hpq. induction s as [|c s IH]; cbn [every]; [reflexivity|].
  intros H. apply andb_prop in H. destruct H as [Hc Hs].
  rewrite (Hpq c Hc), (IH Hs). reflexivity.
Qed.

Lemma readline_no_LF s :
  every (fun c => negb (Ascii.eqb c PyStr.LF)) s = true -> PyStr.readline s = s.
Proof.
  induction s as [|c s IH]; cbn [every PyStr.readline]; [reflexivity|].
  intros H. apply andb_prop in H. destruct H as [Hc Hs].
  destruct (Ascii.eqb c PyStr.LF); [discriminate|]. rewrite (IH Hs). reflexivity.
Qed.

Lemma lstrip_no_space s :
  every (fun c => negb (PyStr.isspace c)) s = true -> PyStr.lstrip s = s.
Proof.
  destruct s as [|c s]; cbn [every PyStr.lstrip]; [reflexivity|].
  intros H. apply andb_prop in H. destruct H as [Hc _].
  destruct (PyStr.isspace c); [discriminate|reflexivity].
Qed.

Lemma rstrip_no_space s :
  every (fun c => negb (PyStr.isspace c)) s = true -> PyStr.rstrip s = s.
Proof.
  induction s as [|c s IH]; cbn [every PyStr.rstrip]; [reflexivity|].
  intros H. apply andb_prop in H. destruct H as [Hc Hs].
  rewrite (IH Hs). destruct s; [|reflexivity].
  destruct (PyStr.isspace c); [discriminate|reflexivity].
Qed.

Lemma strip_no_space s :
  every (fun c => negb (PyStr.isspace c)) s = true -> PyStr.strip s = s.
Proof.
  intros H. unfold PyStr.strip. rewrite (lstrip_no_space s H). apply rstrip_no_space, H.
Qed.

Lemma split_plain s :
  every plain s = true -> PyStr.split "," s = [s].
Proof.
  induction s as [|c s IH]; cbn [every PyStr.split]; [reflexivity|].
  intros H. apply andb_prop in H. destruct H as [Hc Hs].
  unfold plain in Hc. apply andb_prop in Hc. destruct Hc as [_ Hc].
  destruct (Ascii.eqb c ","); [discriminate|]. rewrite (IH Hs). reflexivity.
Qed.

Lemma split_plain_comma s t :
  every plain s = true ->
  PyStr.split "," (s ++ "," ++ t) = s :: PyStr.split "," t.
Proof.
  induction s as [|c s IH]; intros H.
  - reflexivity.
  - cbn [every] in H. apply andb_prop in H. destruct H as [Hc Hs].
    unfold plain in Hc. apply andb_prop in Hc. destruct Hc as [_ Hc].
    change ((String c s ++ "," ++ t)%string) with (String c (s ++ "," ++ t)).
    cbn [PyStr.split]. destruct (Ascii.eqb c ","); [discriminate|].
    rewrite (IH Hs). reflexivity.
Qed.

Lemma join_cons sep x y rest :
  PyStr.join sep (x :: y :: rest) = (x ++ sep ++ PyStr.join sep (y :: rest))%string.
Proof. reflexivity. Qed.

(** [split] undoes [join] on pieces with no comma in them. *)
Lemma split_join (l : list string) :
  l <> [] -> Forall (fun s => every plain s = true) l ->
  PyStr.split "," (PyStr.join "," l) = l.
Proof.
  induction l as [|x rest IH]; [congruence|]. intros _ H.
  inversion H as [|? ? Hx Hrest]; subst. destruct rest as [|y rest].
  - apply split_plain, Hx.
  - rewrite join_cons, (split_plain_comma _ _ Hx), IH; [reflexivity|discriminate|exact Hrest].
Qed.

(** A joined line of plain pieces holds no white space. *)
Lemma join_no_space (l : list string) :
  Forall (fun s => every plain s = true) l ->
  every (fun c => negb (PyStr.isspace c)) (PyStr.join "," l) = true.
Proof.
  assert (Hw : forall s, every plain s = true ->
                         every (fun c => negb (PyStr.isspace c)) s = true).
  { intros s. apply every_weaken. intros c Hc. unfold plain in Hc.
    apply andb_prop in Hc. apply Hc. }
  induction l as [|x rest IH]; intros H; [reflexivity|].
  inversion H as [|? ? Hx Hrest]; subst. destruct rest as [|y rest].
  - apply Hw, Hx.
  - rewrite join_cons, !every_app, (Hw _ Hx), (IH Hrest). reflexivity.
Qed.

Lemma no_space_no_LF s :
  every (fun c => negb (PyStr.isspace c)) s = true ->
  every (fun c => negb (Ascii.eqb c PyStr.LF)) s = true.
Proof.
  apply every_weaken. intros c Hc.
  destruct (Ascii.eqb c PyStr.LF) eqn:E; [|reflexivity].
  apply Ascii.eqb_eq in E. subst c. discriminate Hc.
Qed.

(** The line [save_coefficients] writes is read back piece by piece. *)
Lemma line_read_back (l : list string) :
  l <> [] -> Forall (fun s => every plain s = true) l ->
  PyStr.split "," (PyStr.strip (PyStr.readline (PyStr.join "," l))) = l.
Proof.
  intros Hne H. pose proof (join_no_space l H) as Hs.
  rewrite (readline_no_LF _ (no_space_no_LF _ Hs)), (strip_no_space _ Hs).
  apply split_join; assumption.
Qed.

Lemma hex_of_byte_plain (b : byte) :
  every plain (PyStr.hex (BNO055.int_of_byte b)) = true.
Proof. destruct b; vm_compute; reflexivity. Qed.

Lemma int_of_byte_one_byte (b : byte) : one_byte (BNO055.int_of_byte b).
Proof. unfold one_byte. destruct b; vm_compute; split; discriminate. Qed.

Lemma ints_map_hex int (buf : list byte) :
  (forall x, one_byte x -> int (PyStr.hex x) = BNO055.Ok x) ->
  Calibration.ints int (map PyStr.hex (map BNO055.int_of_byte buf))
  = BNO055.Ok (map BNO055.int_of_byte buf).
Proof.
  intros Hint. induction buf as [|b buf IH]; [reflexivity|].
  cbn [map Calibration.ints].
  rewrite (Hint _ (int_of_byte_one_byte b)), IH. reflexivity.
Qed.

Lemma hex_pieces_plain (buf : list byte) :
  Forall (fun s => every plain s = true) (map PyStr.hex (map BNO055.int_of_byte buf)).
Proof.
  induction buf as [|b buf IH]; cbn [map]; constructor;
    [apply hex_of_byte_plain|exact IH].
Qed.

Lemma read_coefficients_eq (bus : I2C.t) :
  BNO055.read_calibration_coefficients BNO055.attributes bus
  = BNO055.Ok (map BNO055.int_of_byte (I2C.readfrom_mem 0x28 0x55 22 bus)).
Proof.
  unfold BNO055.read_calibration_coefficients, BNO055.unpack_22B.
  change (BNO055.i2c_addr BNO055.attributes) with 0x28.
  rewrite readfrom_mem_length. reflexivity.
Qed.

Lemma write_coefficients_of_bytes (buf : list byte) (bus : I2C.t) :
  List.length buf = 22%nat ->
  BNO055.write_calibration_coefficients BNO055.attributes
    (map BNO055.int_of_byte buf) bus
  = (BNO055.Ok tt, I2C.writeto_mem 0x28 0x55 buf bus).
Proof.
  intros Hlen. unfold BNO055.write_calibration_coefficients.
  rewrite (pack_unpack_22B buf (map BNO055.int_of_byte buf)); [reflexivity|].
  unfold BNO055.unpack_22B. rewrite Hlen. reflexivity.
Qed.


Lemma coefficient_registers k : ~ (0x55 <= k <= 0x6A) -> k < 0x55 \/ 0x55 + Z.of_nat 22 <= k.
Proof. change (Z.of_nat 22) with 22. lia. Qed.

Section SaveLoad.
Import Calibration.

Variable int : string -> BNO055.res Z.
Hypothesis int_reads_hex : forall x, one_byte x -> int (PyStr.hex x) = BNO055.Ok x.

(** X20.  Coefficients saved are loaded back.  When the bus read
    completes, the file can be opened for writing and [int(x, 0)] reads
    what [hex] writes for 0 to 255: [save_coefficients] returns, writes
    nothing to the bus, and the file holds the 22 values read from
    registers 0x55 to 0x6A, in hexadecimal and joined by commas; no other
    file changes.  A [load_coefficients] of that file on any later
    machine whose bus write completes, whatever its device holds by then,
    returns, and the device then gives the saved 22 values back, its
    other registers being as they were before the load; the load prints
    the pieces it read and leaves the files as they are. *)
Theorem saved_coefficients_are_loaded_back (filename : string) (m : machine) :
  link m = true ->
  Files.writable (disk m) filename = true ->
  let self := BNO055.attributes in
  exists coeffs m1,
    BNO055.read_calibration_coefficients self (bus m) = BNO055.Ok coeffs /\
    List.length coeffs = 22%nat /\
    save_coefficients self filename m = (Ok tt, m1) /\
    bus m1 = bus m /\
    console m1 = console m ++ [Text "Calibration data saved to file."] /\
    Files.read filename (disk m1) = Some (PyStr.join "," (map PyStr.hex coeffs)) /\
    (forall f, f <> filename -> Files.read f (disk m1) = Files.read f (disk m)) /\
    (forall later : machine,
       disk later = disk m1 -> link later = true ->
       exists m2,
         load_coefficients int self filename later = (Ok tt, m2) /\
         BNO055.read_calibration_coefficients self (bus m2) = BNO055.Ok coeffs /\
         (forall a k, ~ (a = 0x28 /\ 0x55 <= k <= 0x6A) ->
                      I2C.regs (bus m2) a k = I2C.regs (bus later) a k) /\
         disk m2 = disk later /\
         console m2 = console later
                      ++ [TextAndList "Calibration Coefficients:"
                            (map PyStr.hex coeffs)]).
Proof.
  intros Hlink Hw self.
  set (buf := I2C.readfrom_mem 0x28 0x55 22 (bus m)).
  assert (Hlen : List.length buf = 22%nat) by apply readfrom_mem_length.
  set (coeffs := map BNO055.int_of_byte buf).
  set (text := PyStr.join "," (map PyStr.hex coeffs)).
  set (disk' := {| Files.content := fun f => if String.eqb f filename then Some text
                                             else Files.content (disk m) f;
                   Files.writable := Files.writable (disk m) |}).
  set (m1 := say (Text "Calibration data saved to file.") (with_disk disk' m)).
  assert (Hread : Files.read filename (disk m1) = Some text).
  { unfold Files.read, m1, disk'. cbn [disk say with_disk Files.content].
    rewrite String.eqb_refl. reflexivity. }
  exists coeffs, m1.
  split; [apply read_coefficients_eq|].
  split; [unfold coeffs; rewrite length_map; exact Hlen|].
  split.
  { unfold save_coefficients, self. rewrite Hlink, read_coefficients_eq.
    unfold Files.write. rewrite Hw. reflexivity. }
  split; [reflexivity|].
  split; [reflexivity|].
  split; [exact Hread|].
  split.
  { intros f Hf. unfold Files.read, m1, disk'. cbn [disk say with_disk Files.content].
    apply String.eqb_neq in Hf. rewrite Hf. reflexivity. }
  intros later Hdisk Hup.
  set (bus2 := I2C.writeto_mem 0x28 0x55 buf (bus later)).
  exists (with_bus bus2
            (say (TextAndList "Calibration Coefficients:" (map PyStr.hex coeffs)) later)).
  split.
  { unfold load_coefficients, self. rewrite Hdisk, Hread.
    unfold text, coeffs. rewrite line_read_back.
    - rewrite (ints_map_hex int buf int_reads_hex).
      rewrite (write_coefficients_of_bytes buf _ Hlen).
      cbn [link say]. rewrite Hup. reflexivity.
    - destruct buf; [discriminate Hlen|discriminate].
    - apply hex_pieces_plain. }
  split.
  { unfold self. rewrite read_coefficients_eq. unfold bus2.
    cbn [bus with_bus]. rewrite <- Hlen at 1. rewrite read_after_write. reflexivity. }
  split.
  { intros a k Hak. unfold bus2. cbn [bus with_bus].
    apply writeto_mem_frame. rewrite Hlen.
    destruct (Z.eq_dec a 0x28) as [Ha|Ha]; [right|left; exact Ha].
    apply coefficient_registers. intros Hk. apply Hak. split; assumption. }
  split; reflexivity.
Qed.

End SaveLoad.

Lemma int_of_hex_reads_hex x : one_byte x -> int_of_hex (PyStr.hex x) = BNO055.Ok x.
Proof.
  intros _. unfold int_of_hex, PyStr.hex. rewrite HexString.to_Z_of_Z. reflexivity.
Qed.

(** X20 for the default file name on a machine with every register at
    zero and a reader of hexadecimal literals. *)
Lemma saved_coefficients_are_loaded_back_witness :
  exists coeffs m1,
    Calibration.save_coefficients BNO055.attributes "IMU_cal_coeffs.txt" blank_machine
    = (Calibration.Ok tt, m1) /\
    Files.read "IMU_cal_coeffs.txt" (Calibration.disk m1)
    = Some (PyStr.join "," (map PyStr.hex coeffs)) /\
    exists m2,
      Calibration.load_coefficients int_of_hex BNO055.attributes "IMU_cal_coeffs.txt"
        (Calibration.with_bus (Calibration.bus blank_machine) m1)
      = (Calibration.Ok tt, m2) /\
      BNO055.read_calibration_coefficients BNO055.attributes (Calibration.bus m2)
      = BNO055.Ok coeffs.
Proof.
  destruct (saved_coefficients_are_loaded_back int_of_hex int_of_hex_reads_hex
              "IMU_cal_coeffs.txt" blank_machine eq_refl eq_refl)
    as (coeffs & m1 & _ & _ & Hsave & Hbus & Hcon & Hfile & _ & Hload).
  exists coeffs, m1. split; [exact Hsave|]. split; [exact Hfile|].
  destruct (Hload (Calibration.with_bus (Calibration.bus blank_machine) m1))
    as (m2 & H1 & H2 & _); [reflexivity | | exists m2; split; assumption].
  injection Hsave as <-. reflexivity.
Defined.

